(** * The golangci-worker pull-request pipeline, embedded in Rocq

    A shallow embedding of the analysis worker:
    - [app/lib/executors] ([TempDirShell] and its derivation methods),
    - [app/lib/goutils/workspaces] ([Go2.Setup]),
    - [app/analyze/processors] (the [githubGoPR] processor),
    - [app/analyze] (the queue task handlers).

    Calls to external collaborators (hosting-provider client, state store,
    fetcher, linter runner, reporter, file system) are recorded in a trace of
    events; what each call answers is read from a [World], so every theorem
    quantified over worlds holds for all behaviours of the collaborators,
    panics included. *)

From stdpp Require Import gmap strings list.
From Stdlib Require Import ZArith DecimalString Ascii.

Open Scope string_scope.
Open Scope list_scope.

(** ** Go's [strings] and [fmt], as far as the worker uses them *)

Module golang.

(** [strings.ToUpper] / [strings.ToLower], on ASCII letters. *)
Definition upper_ascii (c : ascii) : ascii :=
  let n := nat_of_ascii c in
  if (97 <=? n)%nat && (n <=? 122)%nat then ascii_of_nat (n - 32) else c.

Definition lower_ascii (c : ascii) : ascii :=
  let n := nat_of_ascii c in
  if (65 <=? n)%nat && (n <=? 90)%nat then ascii_of_nat (n + 32) else c.

Fixpoint map_string (f : ascii -> ascii) (s : string) : string :=
  match s with
  | EmptyString => EmptyString
  | String c s' => String (f c) (map_string f s')
  end.

Definition ToUpper : string -> string := map_string upper_ascii.
Definition ToLower : string -> string := map_string lower_ascii.

(** [strings.Contains s substr]. *)
Fixpoint Contains (s substr : string) : bool :=
  if String.prefix substr s then true
  else match s with
       | EmptyString => false
       | String _ s' => Contains s' substr
       end.

(** [strings.Split s sep] for a one-character separator. *)
Fixpoint Split (s : string) (sep : ascii) : list string :=
  match s with
  | EmptyString => [EmptyString]
  | String c s' =>
      if Ascii.eqb c sep then EmptyString :: Split s' sep
      else match Split s' sep with
           | [] => [String c EmptyString]
           | p :: ps => String c p :: ps
           end
  end.

(** The verb [%d] of [fmt.Sprintf], for [len] results and for [int]s. *)
Definition fmt_nat (n : nat) : string := NilZero.string_of_uint (Nat.to_uint n).
Definition fmt_int (z : Z) : string := NilZero.string_of_int (Z.to_int z).

(** A Go call either returns or panics; the panic value is kept as text. *)
Inductive result (A : Type) : Type :=
| Ret (a : A)
| Panic (v : string).
Arguments Ret {A} a.
Arguments Panic {A} v.

(** What the runtime reports on a nil dereference. *)
Definition nil_dereference : string :=
  "runtime error: invalid memory address or nil pointer dereference".

End golang.

Import golang.

(** ** [app/lib/executors]: the temp-dir shell and its derived copies *)

Module executors.

(** Modelled from the spec: the embedded struct [shell] and its method
    [SetEnv] are not under src.  The spec gives an executor a working
    directory and environment overrides, a mapping from name to value in
    which the last write wins. *)
Record shell : Type := mkShell {
  wd : string;
  env : gmap string string
}.

(** Modelled from the spec: [shell.SetEnv] overrides one entry of the
    environment mapping of the shell it is called on. *)
Definition shell_SetEnv (s : shell) (k v : string) : shell :=
  mkShell (wd s) (<[k := v]> (env s)).

(** [type TempDirShell struct { shell }] *)
Record TempDirShell : Type := mkTempDirShell { sh : shell }.

#[global] Instance shell_eq_dec : EqDecision shell.
Proof. solve_decision. Defined.

#[global] Instance TempDirShell_eq_dec : EqDecision TempDirShell.
Proof. solve_decision. Defined.

(** [func (s TempDirShell) WorkDir() string] *)
Definition WorkDir (s : TempDirShell) : string := wd (sh s).

Definition Env (s : TempDirShell) : gmap string string := env (sh s).

(** The struct-level effect of [eCopy := s; eCopy.SetEnv(k, v)]. *)
Definition copy_SetEnv (s : TempDirShell) (k v : string) : TempDirShell :=
  let eCopy := s in
  mkTempDirShell (shell_SetEnv (sh eCopy) k v).

(** The struct-level effect of [eCopy := s; eCopy.wd = wd]. *)
Definition copy_SetWorkDir (s : TempDirShell) (dir : string) : TempDirShell :=
  let eCopy := s in
  mkTempDirShell (mkShell dir (env (sh eCopy))).

(** Executors are handed around as [*TempDirShell]: a heap of structs and
    addresses into it.  A method with a value receiver reads the struct at
    the address; [&eCopy] allocates a fresh address. *)
Abbreviation ptr := positive.
Abbreviation heap := (gmap positive TempDirShell).

Definition alloc (h : heap) (s : TempDirShell) : ptr * heap :=
  let p := fresh (dom h) in (p, <[p := s]> h).

(** [func (s TempDirShell) WithEnv(k, v string) Executor] *)
Definition WithEnv (h : heap) (e : ptr) (k v : string) : option (ptr * heap) :=
  match h !! e with
  | Some s => Some (alloc h (copy_SetEnv s k v))
  | None => None
  end.

(** [func (s TempDirShell) WithWorkDir(wd string) Executor] *)
Definition WithWorkDir (h : heap) (e : ptr) (dir : string) : option (ptr * heap) :=
  match h !! e with
  | Some s => Some (alloc h (copy_SetWorkDir s dir))
  | None => None
  end.

(** [func (s *TempDirShell) SetWorkDir(wd string)]: in place. *)
Definition SetWorkDir (h : heap) (e : ptr) (dir : string) : option heap :=
  match h !! e with
  | Some s => Some (<[e := copy_SetWorkDir s dir]> h)
  | None => None
  end.

(** [SetEnv], promoted from the embedded shell: in place. *)
Definition SetEnv (h : heap) (e : ptr) (k v : string) : option heap :=
  match h !! e with
  | Some s => Some (<[e := copy_SetEnv s k v]> h)
  | None => None
  end.

(** The in-place mutations an owner can apply to an executor. *)
Inductive mutation : Type :=
| MutSetEnv (k v : string)
| MutSetWorkDir (dir : string).

Definition mutate (h : heap) (e : ptr) (m : mutation) : option heap :=
  match m with
  | MutSetEnv k v => SetEnv h e k v
  | MutSetWorkDir dir => SetWorkDir h e dir
  end.

Fixpoint mutate_all (h : heap) (e : ptr) (ms : list mutation) : option heap :=
  match ms with
  | [] => Some h
  | m :: ms' =>
      match mutate h e m with
      | Some h' => mutate_all h' e ms'
      | None => None
      end
  end.

End executors.

(** ** Data carried through the pipeline *)

Module github.

(** Modelled from the spec: package [app/lib/github] is not under src.  A
    check status is one of pending, success, failure, error, and
    [string(status)] is its lowercase name. *)
Inductive Status : Type :=
| StatusPending
| StatusSuccess
| StatusFailure
| StatusError.

Definition Status_string (s : Status) : string :=
  match s with
  | StatusPending => "pending"
  | StatusSuccess => "success"
  | StatusFailure => "failure"
  | StatusError => "error"
  end.

#[global] Instance Status_eq_dec : EqDecision Status.
Proof. solve_decision. Defined.

Record Repo : Type := mkRepo { Owner : string; Name : string }.

Record Context : Type := mkContext {
  ctxRepo : Repo;
  GithubAccessToken : string;
  PullRequestNumber : Z
}.

(** The fields of [gh.PullRequest] the processor reads. *)
Record PullRequest : Type := mkPullRequest {
  prNumber : Z;
  prState : string;
  prHeadRef : string;
  prHeadSHA : string;
  prHeadRepo : string
}.

(** go-github getters accept a nil receiver and answer the zero value. *)
Definition PullRequest_GetNumber (pr : option PullRequest) : Z :=
  match pr with Some p => prNumber p | None => 0%Z end.
Definition PullRequest_GetState (pr : option PullRequest) : string :=
  match pr with Some p => prState p | None => "" end.
Definition PullRequest_GetHeadRef (pr : option PullRequest) : string :=
  match pr with Some p => prHeadRef p | None => "" end.
Definition PullRequest_GetHeadSHA (pr : option PullRequest) : string :=
  match pr with Some p => prHeadSHA p | None => "" end.
Definition PullRequest_GetHeadRepo (pr : option PullRequest) : string :=
  match pr with Some p => prHeadRepo p | None => "" end.

End github.

Module fetchers.

Record Repo : Type := mkRepo {
  CloneURL : string;
  Ref : string;
  FullPath : string
}.

End fetchers.

Module lintres.

(** An issue is opaque to the worker; only the length of the list is read. *)
Inductive Issue : Type := MkIssue (text : string).

(** [result.Result]: the issues and the linter's own JSON document. *)
Record Result : Type := mkResult {
  Issues : list Issue;
  ResultJSON : string
}.

End lintres.

Module goenv.

Record Step : Type := mkStep { Description : string; StepError : string }.
Record Group : Type := mkGroup { GroupName : string; Steps : list Step }.
Record Log : Type := mkLog { Groups : list Group }.

(** The document [goenvbuild] prints ([goenvresult.Result]). *)
Record Result : Type := mkResult {
  ResWorkDir : string;
  Environment : gmap string string;
  ResLog : option Log;
  ResError : string
}.

(** One warning of [ensuredeps.Result]. *)
Record DepWarning : Type := mkDepWarning { Kind : string; WarnText : string }.

End goenv.

(** The error values the driver tells apart by their dynamic type. *)
Inductive error : Type :=
| IgnoredError (Status : github.Status) (StatusDesc : string) (IsRecoverable : bool)
| InternalError (PublicDesc PrivateDesc : string)
| BadInputError (PublicDesc : string)
| ErrorString (msg : string).

Module collector.

(** The timing of one stage.  Durations are wall-clock readings and are not
    modelled; a timing is known by its name. *)
Record Timing : Type := mkTiming { TimingName : string }.

Record Warning : Type := mkWarning { Tag : string; Text : string }.

End collector.

Module prstate.

Record workerRes : Type := mkWorkerRes {
  Timings : list collector.Timing;
  Warnings : list collector.Warning;
  Error : string
}.

Record resultJSON : Type := mkResultJSON {
  Version : nat;
  GolangciLintRes : option string;
  WorkerRes : workerRes
}.

(** [prstate.State]; [CreatedAt] is a timestamp kept as a number. *)
Record State : Type := mkState {
  CreatedAt : nat;
  Status : string;
  ReportedIssuesCount : nat;
  ResultJSON : option resultJSON
}.

Definition with_Status (s : State) (st : string) : State :=
  mkState (CreatedAt s) st (ReportedIssuesCount s) (ResultJSON s).

End prstate.

Abbreviation Executor := executors.TempDirShell.

(** ** Collaborators, events and the monad of a job *)

(** Each call to a collaborator leaves one event in the trace of the job. *)
Inductive Event : Type :=
| EvGetPullRequest (c : github.Context)
| EvGetPullRequestPatch (c : github.Context)
| EvSetCommitStatus (sha : string) (status : github.Status) (desc url : string)
| EvGetState (owner name guid : string)
| EvUpdateState (owner name guid : string) (st : prstate.State)
| EvGoSetup (repo : fetchers.Repo)
| EvGoClean
| EvFetchDeps (path : string)
| EvFetch (repo : fetchers.Repo) (exec : Executor)
| EvRun (exec : Executor) (cmd : string)
| EvLint (exec : Executor)
| EvReport (sha : string) (issues : list lintres.Issue)
| EvTempFile
| EvWriteFile (name content : string)
| EvCopyFile (exec : Executor) (dst src : string)
| EvRemove (name : string)
| EvClean (exec : Executor).

(** What a collaborator answers: a value, an error, or a panic. *)
Inductive outcome (A : Type) : Type :=
| Ok (a : A)
| Err (e : error)
| Panics (v : string).
Arguments Ok {A} a.
Arguments Err {A} e.
Arguments Panics {A} v.

(** The behaviour of everything outside the worker during one job. *)
Record World : Type := mkWorld {
  (* github.Client *)
  GetPullRequest : github.Context -> outcome github.PullRequest;
  GetPullRequestPatch : github.Context -> outcome string;
  SetCommitStatus : string -> github.Status -> string -> string -> outcome unit;
  IsRecoverableError : error -> bool;
  GetCloneURL : github.Context -> string -> string;
  (* prstate.Storage *)
  GetState : string -> string -> string -> outcome prstate.State;
  UpdateState : string -> string -> string -> prstate.State -> outcome unit;
  (* workspaces.Go, the in-process workspace *)
  GoSetup : fetchers.Repo -> outcome unit;
  GoGopath : string;
  GoExecutor : Executor;
  GoFetchDeps : string -> outcome (list goenv.DepWarning);
  (* fetchers.Fetcher, executors.Executor.Run, encoding/json *)
  Fetch : fetchers.Repo -> Executor -> outcome unit;
  Run : Executor -> string -> outcome string;
  Unmarshal : string -> goenv.Result + error;
  (* linters.Runner, reporters.Reporter *)
  Lint : Executor -> outcome lintres.Result;
  Report : string -> list lintres.Issue -> outcome unit;
  (* ioutil.TempFile, ioutil.WriteFile, Executor.CopyFile *)
  TempFile : outcome string;
  WriteFile : string -> string -> outcome unit;
  CopyFile : Executor -> string -> string -> outcome unit;
  (* os.Environ, runtime/debug.Stack, error.Error, escapeErrorText *)
  Environ : list string;
  Stack : string;
  ErrorText : error -> string;
  escapeErrorText : string -> gmap string string -> string
}.

(** [os.Getenv]: the value of the first entry [key=value], or the empty
    string when the variable is unset. *)
Fixpoint Getenv (environ : list string) (key : string) : string :=
  match environ with
  | [] => ""
  | kv :: rest =>
      if String.prefix (key +:+ "=") kv
      then String.substring (String.length key + 1) (String.length kv) kv
      else Getenv rest key
  end.

(** A computation over a state [S]: it emits events, and either returns or
    panics.  The state outlives a panic, as the heap of a Go program does. *)
Definition M (S A : Type) : Type := S -> list Event * (result A * S).

Definition ret {S A} (a : A) : M S A := fun s => ([], (Ret a, s)).

Definition bind {S A B} (m : M S A) (f : A -> M S B) : M S B :=
  fun s =>
    match m s with
    | (t, (Ret a, s')) => let '(t', x) := f a s' in (t ++ t', x)
    | (t, (Panic v, s')) => (t, (Panic v, s'))
    end.

Notation "x <- m ;; k" := (bind m (fun x => k))
  (at level 20, m at level 99, k at level 200, only parsing).
Notation "m ;;; k" := (bind m (fun _ => k))
  (at level 100, k at level 200, right associativity, only parsing).

Definition get {S} : M S S := fun s => ([], (Ret s, s)).
Definition modify {S} (f : S -> S) : M S unit := fun s => ([], (Ret tt, f s)).
Definition panic {S A} (v : string) : M S A := fun s => ([], (Panic v, s)).

(** A call: the event is recorded, then the collaborator answers. *)
Definition call {S A} (e : Event) (o : outcome A) : M S (A + error) :=
  fun s =>
    ([e], (match o with
           | Ok a => Ret (inl a)
           | Err err => Ret (inr err)
           | Panics v => Panic v
           end, s)).

(** A call that cannot fail. *)
Definition emit {S} (e : Event) : M S unit := fun s => ([e], (Ret tt, s)).

(** [defer d; body]: [d] runs when [body] returns or panics; a panic of
    [d] replaces the outcome of [body]. *)
Definition defer {S A} (d : M S unit) (body : M S A) : M S A :=
  fun s =>
    let '(t, (r, s')) := body s in
    let '(t', (r', s'')) := d s' in
    (t ++ t', (match r' with Ret _ => r | Panic v => Panic v end, s'')).

(** A method with a value receiver works on a copy of the struct. *)
Definition by_value {S A} (m : M S A) : M S A :=
  fun s => let '(t, (r, _)) := m s in (t, (r, s)).

(** Run a computation on the first component of a larger state. *)
Definition on_fst {S L A} (m : M S A) : M (S * L) A :=
  fun sl => let '(t, (r, s')) := m (fst sl) in (t, (r, (s', snd sl))).

Definition events {S A} (x : list Event * (result A * S)) : list Event := fst x.
Definition returned {S A} (x : list Event * (result A * S)) : result A := fst (snd x).
Definition final {S A} (x : list Event * (result A * S)) : S := snd (snd x).

(** ** [app/lib/goutils/workspaces]: the external-builder installer *)

Module workspaces.

Import executors.

(** [workspaces.Go], the in-process workspace, is built by [NewGo] from the
    job's executor; its methods are collaborators of the [World]. *)
Record Go : Type := mkGo { goExec : Executor }.

Definition NewGo (exec : Executor) : Go := mkGo exec.

(** [workspaces.Go2]; its logger and fetcher are collaborators. *)
Record Go2 : Type := mkGo2 { exec : Executor }.

Definition NewGo2 (exec : Executor) : Go2 := mkGo2 exec.

(** [errors.Wrap(err, msg)]: a new error whose text is [msg: err]. *)
Definition Wrap (w : World) (err : error) (msg : string) : error :=
  ErrorString (msg +:+ ": " +:+ ErrorText w err).

(** [path.Join]: the non-empty elements, separated by slashes.  The final
    [path.Clean] is the identity on the owner and repository names of a
    hosting provider and is left out. *)
Fixpoint Join (parts : list string) : string :=
  match parts with
  | [] => ""
  | p :: rest =>
      if String.eqb p "" then Join rest
      else match Join rest with
           | EmptyString => p
           | tail => p +:+ "/" +:+ tail
           end
  end.

(** [func (w *Go2) Setup(ctx, repo, projectPathParts...)] *)
Definition Setup {S} (w : World) (go2 : Go2) (repo : fetchers.Repo)
    (projectPathParts : list string) : M S (Executor * option goenv.Log + error) :=
  r <- call (EvFetch repo (exec go2)) (Fetch w repo (exec go2)) ;;
  match r with
  | inr err => ret (inr (Wrap w err "failed to fetch repo"))
  | inl _ =>
      let exec' :=
        copy_SetEnv (copy_SetEnv (exec go2) "REPO" (Join projectPathParts))
                    "FORMAT_JSON" "1" in
      r <- call (EvRun exec' "goenvbuild") (Run w exec' "goenvbuild") ;;
      match r with
      | inr err => ret (inr (Wrap w err "goenvbuild failed"))
      | inl out =>
          match Unmarshal w out with
          | inr err =>
              ret (inr (Wrap w err "failed to unmarshal goenvbuild result json"))
          | inl envbuildResult =>
              if negb (String.eqb (goenv.ResError envbuildResult) "")
              then ret (inr (ErrorString ("goenvbuild internal error: "
                                          +:+ goenv.ResError envbuildResult)))
              else
                let retExec := copy_SetWorkDir (exec go2) (goenv.ResWorkDir envbuildResult) in
                let retExec :=
                  map_fold (fun k v e => copy_SetEnv e k v) retExec
                           (goenv.Environment envbuildResult) in
                ret (inl (retExec, goenv.ResLog envbuildResult))
          end
      end
  end.

End workspaces.

(** ** [app/analyze/processors]: the pull-request processor *)

Module processors.

Import github.

Definition patchPath : string := "../changes.patch".
Definition internalError : string := "Internal error".
Definition statusSentToQueue : string := "sent_to_queue".
Definition statusProcessing : string := "processing".
Definition statusProcessed : string := "processed".
Definition noGoFilesToAnalyzeMessage : string := "No Go files to analyze".
Definition noGoFilesToAnalyzeErr : string := "no go files to analyze".

(** [githubGoPR] with the fields of the embedded [githubGoPRConfig] and
    [resultCollector] that hold data; the interface-typed slots of the
    configuration are the collaborators of the [World]. *)
Record githubGoPR : Type := mkGithubGoPR {
  pr : option PullRequest;
  analysisGUID : string;
  context : Context;
  gw : option workspaces.Go;
  resLog : option goenv.Log;
  exec : Executor;
  timings : list collector.Timing;
  warnings : list collector.Warning;
  newWorkspaceInstaller : option workspaces.Go2
}.

Definition set_pr (p : option PullRequest) (g : githubGoPR) : githubGoPR :=
  mkGithubGoPR p (analysisGUID g) (context g) (gw g) (resLog g) (exec g)
               (timings g) (warnings g) (newWorkspaceInstaller g).

Definition set_gw (x : option workspaces.Go) (g : githubGoPR) : githubGoPR :=
  mkGithubGoPR (pr g) (analysisGUID g) (context g) x (resLog g) (exec g)
               (timings g) (warnings g) (newWorkspaceInstaller g).

Definition set_resLog (x : option goenv.Log) (g : githubGoPR) : githubGoPR :=
  mkGithubGoPR (pr g) (analysisGUID g) (context g) (gw g) x (exec g)
               (timings g) (warnings g) (newWorkspaceInstaller g).

Definition set_exec (x : Executor) (g : githubGoPR) : githubGoPR :=
  mkGithubGoPR (pr g) (analysisGUID g) (context g) (gw g) (resLog g) x
               (timings g) (warnings g) (newWorkspaceInstaller g).

Definition add_timing (name : string) (g : githubGoPR) : githubGoPR :=
  mkGithubGoPR (pr g) (analysisGUID g) (context g) (gw g) (resLog g) (exec g)
               (timings g ++ [collector.mkTiming name]) (warnings g)
               (newWorkspaceInstaller g).

Definition add_warning (tag text : string) (g : githubGoPR) : githubGoPR :=
  mkGithubGoPR (pr g) (analysisGUID g) (context g) (gw g) (resLog g) (exec g)
               (timings g) (warnings g ++ [collector.mkWarning tag text])
               (newWorkspaceInstaller g).

Abbreviation G := githubGoPR.

(** Modelled from the spec: the methods of [resultCollector] are not under
    src.  [publicWarn(stage, text)] appends to the warnings. *)
Definition publicWarn (stage text : string) : M G unit :=
  modify (add_warning stage text).

(** Modelled from the spec: [trackTiming(name, fn)] measures [fn] and
    appends a timing when [fn] has returned. *)
Definition trackTiming {A} (name : string) (f : M G A) : M G A :=
  r <- f ;; modify (add_timing name) ;;; ret r.

(** Modelled from the spec: [addTimingFrom(name, t0)] appends a timing. *)
Definition addTimingFrom (name : string) : M G unit :=
  modify (add_timing name).

(** [f.Name()] on the [*os.File] handed back by [ioutil.TempFile]: the
    handle is nil when the creation failed. *)
Definition FileName {S} (f : option string) : M S string :=
  match f with
  | Some name => ret name
  | None => panic nil_dereference
  end.

(** [func storePatch(ctx, patch, exec) error] *)
Definition storePatch {S} (w : World) (patch : string) (exec : Executor) : M S (option error) :=
  r <- call EvTempFile (TempFile w) ;;
  let f := match r with inl name => Some name | inr _ => None end in
  let err := match r with inl _ => None | inr e => Some e end in
  (* defer os.Remove(f.Name()): the argument is evaluated here *)
  name <- FileName f ;;
  defer (emit (EvRemove name))
    (match err with
     | Some e =>
         ret (Some (ErrorString ("can't create temp file for patch: " +:+ ErrorText w e)))
     | None =>
         r <- call (EvWriteFile name patch) (WriteFile w name patch) ;;
         match r with
         | inr e =>
             ret (Some (ErrorString ("can't write patch to temp file " +:+ name
                                     +:+ ": " +:+ ErrorText w e)))
         | inl _ =>
             r <- call (EvCopyFile exec patchPath name) (CopyFile w exec patchPath name) ;;
             match r with
             | inr e => ret (Some (ErrorString ("can't copy patch file: " +:+ ErrorText w e)))
             | inl _ => ret None
             end
         end
     end).

(** [func (g githubGoPR) getRepo() *fetchers.Repo] *)
Definition getRepo (w : World) (g : G) : fetchers.Repo :=
  fetchers.mkRepo
    (GetCloneURL w (context g) (PullRequest_GetHeadRepo (pr g)))
    (PullRequest_GetHeadRef (pr g))
    ("github.com/" +:+ Owner (ctxRepo (context g)) +:+ "/" +:+ Name (ctxRepo (context g))).

Definition hidden : string := "{hidden}".

(** One turn of the loop over [os.Environ()] in [buildSecrets]. *)
Definition add_env_secret (ret : gmap string string) (kv : string) : gmap string string :=
  match Split kv "=" with
  | [_; v] => if (6 <=? String.length v)%nat then <[v := hidden]> ret else ret
  | _ => ret
  end.

(** [func (g githubGoPR) buildSecrets() map[string]string] *)
Definition buildSecrets (w : World) : M G (gmap string string) :=
  by_value
    (g <- get ;;
     let ret0 : gmap string string :=
       <[analysisGUID g := hidden]> (<[GithubAccessToken (context g) := hidden]> ∅) in
     ret1 <- match newWorkspaceInstaller g with
             | None =>
                 match gw g with
                 | Some _ => ret (<[GoGopath w := "$GOPATH"]> ret0)
                 | None => panic nil_dereference
                 end
             | Some _ => ret ret0
             end ;;
     ret (foldl add_env_secret ret1 (Environ w))).

(** [for _, x := range xs { body }] *)
Fixpoint forM_ {S A} (xs : list A) (body : A -> M S unit) : M S unit :=
  match xs with
  | [] => ret tt
  | x :: rest => body x ;;; forM_ rest body
  end.

(** [func (g *githubGoPR) prepareRepo(ctx) error] *)
Definition prepareRepo (w : World) : M G (option error) :=
  g <- get ;;
  match newWorkspaceInstaller g with
  | Some _ =>
      match resLog g with
      | Some log =>
          forM_ (goenv.Groups log) (fun sg =>
            forM_ (goenv.Steps sg) (fun s =>
              if negb (String.eqb (goenv.StepError s) "") then
                let text := goenv.Description s +:+ " error: " +:+ goenv.StepError s in
                secrets <- buildSecrets w ;;
                let text := escapeErrorText w text secrets in
                publicWarn (goenv.GroupName sg) text
              else ret tt))
      | None => ret tt
      end ;;;
      ret None
  | None =>
      let repo := getRepo w g in
      r <- trackTiming "Clone" (call (EvFetch repo (exec g)) (Fetch w repo (exec g))) ;;
      match r with
      | inr err =>
          ret (Some (InternalError "can't clone git repo"
                       ("can't clone git repo: " +:+ ErrorText w err)))
      | inl _ =>
          r <- trackTiming "Deps"
                 (match gw g with
                  | Some _ =>
                      call (EvFetchDeps (fetchers.FullPath repo))
                           (GoFetchDeps w (fetchers.FullPath repo))
                  | None => panic nil_dereference
                  end) ;;
          match r with
          | inr _ => ret tt
          | inl depWarnings =>
              forM_ depWarnings (fun dw =>
                let warnText := "Fetch deps: " +:+ goenv.Kind dw +:+ ": " +:+ goenv.WarnText dw in
                secrets <- buildSecrets w ;;
                let warnText := escapeErrorText w warnText secrets in
                publicWarn "prepare repo" warnText)
          end ;;;
          ret None
      end
  end.

(** The state record [updateAnalysisState] builds. *)
Definition processed_state (g : G) (res : option lintres.Result)
    (status : Status) (publicError : string) : prstate.State :=
  let resJSON :=
    prstate.mkResultJSON 1
      (match res with Some r => Some (lintres.ResultJSON r) | None => None end)
      (prstate.mkWorkerRes (timings g) (warnings g) publicError) in
  let issuesCount :=
    match res with Some r => length (lintres.Issues r) | None => 0 end in
  prstate.mkState 0 ("processed/" +:+ Status_string status) issuesCount (Some resJSON).

(** [func (g githubGoPR) updateAnalysisState(ctx, res, status, publicError)] *)
Definition updateAnalysisState (w : World) (res : option lintres.Result)
    (status : Status) (publicError : string) : M G unit :=
  by_value
    (g <- get ;;
     let s := processed_state g res status publicError in
     let owner := Owner (ctxRepo (context g)) in
     let name := Name (ctxRepo (context g)) in
     _ <- call (EvUpdateState owner name (analysisGUID g) s)
               (UpdateState w owner name (analysisGUID g) s) ;;
     ret tt).

(** [func getGithubStatusForIssues(issues) (github.Status, string)] *)
Definition getGithubStatusForIssues (issues : list lintres.Issue) : Status * string :=
  match length issues with
  | 0 => (StatusSuccess, "No issues found!")
  | 1 => (StatusFailure, "1 issue found")
  | _ => (StatusFailure, fmt_nat (length issues) +:+ " issues found")
  end.

(** The details URL computed by [setCommitStatus]. *)
Definition detailsURL (w : World) (g : G) (status : Status) : string :=
  match status with
  | StatusFailure | StatusSuccess | StatusError =>
      Getenv (Environ w) "WEB_ROOT" +:+ "/r/github.com/"
        +:+ Owner (ctxRepo (context g)) +:+ "/" +:+ Name (ctxRepo (context g))
        +:+ "/pulls/" +:+ fmt_int (PullRequest_GetNumber (pr g))
  | StatusPending => ""
  end.

(** [func (g githubGoPR) setCommitStatus(ctx, status, desc)] *)
Definition setCommitStatus (w : World) (status : Status) (desc : string) : M G unit :=
  by_value
    (g <- get ;;
     let url := detailsURL w g status in
     let sha := PullRequest_GetHeadSHA (pr g) in
     r <- call (EvSetCommitStatus sha status desc url)
               (SetCommitStatus w sha status desc url) ;;
     match r with
     | inr _ => publicWarn "github" "Can't set github commit status"
     | inl _ => ret tt
     end).

(** The body of [work], run over the receiver and the named result [res].
    The assignment [res, err = g.runner.Run(...)] made inside the timed
    closure is recorded right after the closure returns; nothing can
    observe the difference. *)
Definition work_body (w : World)
  : M (G * option lintres.Result) (option lintres.Result * option error) :=
  g <- on_fst get ;;
  let prState := ToUpper (PullRequest_GetState (pr g)) in
  if String.eqb prState "MERGED" || String.eqb prState "CLOSED" then
    on_fst (publicWarn "process"
              ("Pull Request is already " +:+ prState +:+ ", skip analysis")) ;;;
    ret (None, Some (IgnoredError StatusSuccess
                       ("Pull Request is already " +:+ ToLower prState) false))
  else
    e <- on_fst (prepareRepo w) ;;
    match e with
    | Some err => ret (None, Some err)
    | None =>
        g <- on_fst get ;;
        r <- on_fst (trackTiming "Analysis" (call (EvLint (exec g)) (Lint w (exec g)))) ;;
        match r with
        | inr err => ret (None, Some err)
        | inl res =>
            modify (fun s => (fst s, Some res)) ;;;
            let issues := lintres.Issues res in
            r <- call (EvReport (PullRequest_GetHeadSHA (pr g)) issues)
                      (Report w (PullRequest_GetHeadSHA (pr g)) issues) ;;
            match r with
            | inr err =>
                ret (None, Some (InternalError "can't send pull request comments to github"
                                   ("can't send pull request comments to github: "
                                    +:+ ErrorText w err)))
            | inl _ => ret (Some res, None)
            end
        end
    end.

(** What the deferred function of [work] makes of a recovered panic. *)
Definition panic_error (w : World) (rerr : string) : error :=
  InternalError "golangci-worker panic-ed"
                ("panic occured: " +:+ rerr +:+ ", " +:+ Stack w).

(** [func (g *githubGoPR) work(ctx) (res *result.Result, err error)]: the
    body under its deferred [recover]. *)
Definition work (w : World) : M G (option lintres.Result * option error) :=
  fun g =>
    match work_body w (g, None) with
    | (t, (Ret x, (g', _))) => (t, (Ret x, g'))
    | (t, (Panic rerr, (g', res))) => (t, (Ret (res, Some (panic_error w rerr)), g'))
    end.

(** The [if]/[else] chain of [processWithGuaranteedGithubStatus] that
    turns the outcome of [work] into the status, its description, the
    public error and the error to return. *)
Definition classify (w : World) (res : option lintres.Result) (err : option error)
  : M G (Status * string * string * option error) :=
  match err with
  | Some (IgnoredError status statusDesc isRecoverable) =>
      (* already must have warning, don't set publicError *)
      ret (status, statusDesc, "", if isRecoverable then err else None)
  | Some (InternalError publicDesc privateDesc) =>
      if Contains privateDesc noGoFilesToAnalyzeErr
      then ret (StatusSuccess, noGoFilesToAnalyzeMessage, noGoFilesToAnalyzeMessage, None)
      else ret (StatusError, publicDesc, publicDesc, err)
  | Some (BadInputError publicDesc) =>
      secrets <- buildSecrets w ;;
      ret (StatusError, "can't analyze", escapeErrorText w publicDesc secrets, None)
  | Some (ErrorString _) =>
      ret (StatusError, internalError, internalError, err)
  | None =>
      match res with
      | Some r =>
          let '(status, statusDesc) := getGithubStatusForIssues (lintres.Issues r) in
          ret (status, statusDesc, "", None)
      | None => panic nil_dereference
      end
  end.

(** [func (g *githubGoPR) processWithGuaranteedGithubStatus(ctx) error] *)
Definition processWithGuaranteedGithubStatus (w : World) : M G (option error) :=
  x <- work w ;;
  let '(res, err) := x in
  c <- classify w res err ;;
  let '(status, statusDesc, publicError, err) := c in
  (* update of state must be before commit status update *)
  updateAnalysisState w res status publicError ;;;
  setCommitStatus w status statusDesc ;;;
  ret err.

(** Stage 3 failed: the terminal writes both branches of [Process] make. *)
Definition report_setup_failure (w : World) (err : error) : M G unit :=
  let publicError := "failed to setup workspace: " +:+ ErrorText w err in
  secrets <- buildSecrets w ;;
  let publicError := escapeErrorText w publicError secrets in
  updateAnalysisState w None StatusError publicError ;;;
  setCommitStatus w StatusError "failed to setup".

(** [Process] from the patch fetch on (the statements after the workspace
    has been set up).  The last statement,
    [return g.processWithGuaranteedGithubStatus(ctx)], is the parameter
    [finalize], so that what precedes it can be spoken of on its own. *)
Definition Process_after_setup (w : World) (finalize : M G (option error))
  : M G (option error) :=
  g <- get ;;
  r <- call (EvGetPullRequestPatch (context g)) (GetPullRequestPatch w (context g)) ;;
  match r with
  | inr err =>
      if negb (IsRecoverableError w err) then ret (Some err)
      else ret (Some (ErrorString ("can't get patch: " +:+ ErrorText w err)))
  | inl patch =>
      e <- storePatch w patch (exec g) ;;
      match e with
      | Some err => ret (Some (ErrorString ("can't store patch: " +:+ ErrorText w err)))
      | None =>
          let owner := Owner (ctxRepo (context g)) in
          let name := Name (ctxRepo (context g)) in
          r <- call (EvGetState owner name (analysisGUID g))
                    (GetState w owner name (analysisGUID g)) ;;
          match r with
          | inr _ => ret tt
          | inl curState =>
              if String.eqb (prstate.Status curState) statusSentToQueue then
                addTimingFrom "In Queue" ;;;
                let curState := prstate.with_Status curState statusProcessing in
                _ <- call (EvUpdateState owner name (analysisGUID g) curState)
                          (UpdateState w owner name (analysisGUID g) curState) ;;
                ret tt
              else ret tt
          end ;;;
          finalize
      end
  end.

(** The body of [Process], up to its last statement [finalize]. *)
Definition Process_then (w : World) (finalize : M G (option error))
  : M G (option error) :=
  by_value
    (g0 <- get ;;
     defer (emit (EvClean (exec g0)))
       (r <- call (EvGetPullRequest (context g0)) (GetPullRequest w (context g0)) ;;
        match r with
        | inr err =>
            if negb (IsRecoverableError w err) then ret (Some err)
            else ret (Some (ErrorString ("can't get pull request: " +:+ ErrorText w err)))
        | inl p =>
            modify (set_pr (Some p)) ;;;
            setCommitStatus w StatusPending "GolangCI is reviewing your Pull Request..." ;;;
            g <- get ;;
            let owner := Owner (ctxRepo (context g)) in
            let name := Name (ctxRepo (context g)) in
            match newWorkspaceInstaller g with
            | None =>
                modify (set_gw (Some (workspaces.NewGo (exec g)))) ;;;
                r <- call (EvGoSetup (getRepo w g)) (GoSetup w (getRepo w g)) ;;
                match r with
                | inr err =>
                    report_setup_failure w err ;;;
                    ret (Some (ErrorString ("can't setup go workspace: " +:+ ErrorText w err)))
                | inl _ =>
                    defer (emit EvGoClean)
                      (modify (set_exec (GoExecutor w)) ;;;
                       Process_after_setup w finalize)
                end
            | Some installer =>
                r <- workspaces.Setup w installer (getRepo w g) ["github.com"; owner; name] ;;
                match r with
                | inr err =>
                    report_setup_failure w err ;;;
                    ret None
                | inl (exec', resLog') =>
                    modify (set_exec exec') ;;;
                    modify (set_resLog resLog') ;;;
                    addTimingFrom "Prepare" ;;;
                    Process_after_setup w finalize
                end
            end
        end)).

(** [func (g githubGoPR) Process(ctx) error] *)
Definition Process (w : World) : M G (option error) :=
  Process_then w (processWithGuaranteedGithubStatus w).

End processors.

(** ** [app/analyze]: the queue task handlers *)

Module analyze.

Record Task : Type := mkTask {
  taskContext : github.Context;
  APIRequestID : string;
  UserID : nat;
  AnalysisGUID : string
}.

(** The processor factory and the [%+v] rendering of a task. *)
Record Factory : Type := mkFactory {
  BuildProcessor : Task -> outcome processors.githubGoPR;
  FormatTask : Task -> string
}.

(** [func analyze(ctx, repoOwner, ..., analysisGUID) error] *)
Definition analyze (w : World) (f : Factory) (repoOwner repoName githubAccessToken : string)
    (pullRequestNumber : Z) (apiRequestID : string) (userID : nat)
    (analysisGUID : string) : list Event * result (option error) :=
  let t :=
    mkTask (github.mkContext (github.mkRepo repoOwner repoName)
                             githubAccessToken pullRequestNumber)
           apiRequestID userID analysisGUID in
  match BuildProcessor f t with
  | Panics v => ([], Panic v)
  | Err err =>
      ([], Ret (Some (ErrorString ("can't build processor for task " +:+ FormatTask f t
                                   +:+ ": " +:+ ErrorText w err))))
  | Ok p =>
      match processors.Process w p with
      | (tr, (Panic v, _)) => (tr, Panic v)
      | (tr, (Ret (Some err), _)) =>
          (tr, Ret (Some (ErrorString ("can't process task " +:+ FormatTask f t
                                       +:+ ": " +:+ ErrorText w err))))
      | (tr, (Ret None, _)) => (tr, Ret None)
      end
  end.

(** [func analyzeLogged(...) error]: the analytics around [analyze] leave
    its result as it is. *)
Definition analyzeLogged (w : World) (f : Factory) (repoOwner repoName githubAccessToken : string)
    (pullRequestNumber : Z) (apiRequestID : string) (userID : nat)
    (analysisGUID : string) : list Event * result (option error) :=
  analyze w f repoOwner repoName githubAccessToken pullRequestNumber
          apiRequestID userID analysisGUID.

(** [func analyzeWrappedV2(...) (err error)]: [analyzeLogged] under a
    deferred [recover]. *)
Definition analyzeWrappedV2 (w : World) (f : Factory) (repoOwner repoName githubAccessToken : string)
    (pullRequestNumber : Z) (apiRequestID : string) (userID : nat)
    (analysisGUID : string) : list Event * result (option error) :=
  match analyzeLogged w f repoOwner repoName githubAccessToken pullRequestNumber
                      apiRequestID userID analysisGUID with
  | (tr, Ret err) => (tr, Ret err)
  | (tr, Panic r) =>
      (tr, Ret (Some (ErrorString ("panic recovered: " +:+ r +:+ ", " +:+ Stack w))))
  end.

(** [func analyzeWrapped(...) (err error)] *)
Definition analyzeWrapped (w : World) (f : Factory) (repoOwner repoName githubAccessToken : string)
    (pullRequestNumber : Z) (apiRequestID : string) (userID : nat)
  : list Event * result (option error) :=
  analyzeWrappedV2 w f repoOwner repoName githubAccessToken pullRequestNumber
                   apiRequestID userID "".

End analyze.

(** ** What a trace shows *)

Module trace.

Import github.

(** A state record is terminal when its status reads [processed/...]. *)
Definition terminal_state (st : prstate.State) : bool :=
  String.prefix "processed/" (prstate.Status st).

(** A commit status is terminal when it is not [pending]. *)
Definition terminal_status (s : Status) : bool :=
  match s with
  | StatusPending => false
  | StatusSuccess | StatusFailure | StatusError => true
  end.

Definition is_terminal (e : Event) : bool :=
  match e with
  | EvUpdateState _ _ _ st => terminal_state st
  | EvSetCommitStatus _ status _ _ => terminal_status status
  | _ => false
  end.

(** An event that writes neither a terminal state nor a terminal status. *)
Definition quiet (e : Event) : Prop := is_terminal e = false.

(** The terminal state records written, oldest first. *)
Fixpoint terminal_states (tr : list Event) : list prstate.State :=
  match tr with
  | [] => []
  | EvUpdateState _ _ _ st :: rest =>
      if terminal_state st then st :: terminal_states rest else terminal_states rest
  | _ :: rest => terminal_states rest
  end.

(** The terminal commit statuses set, oldest first: status, description
    and details URL. *)
Fixpoint terminal_statuses (tr : list Event) : list (Status * string * string) :=
  match tr with
  | [] => []
  | EvSetCommitStatus _ status desc url :: rest =>
      if terminal_status status then (status, desc, url) :: terminal_statuses rest
      else terminal_statuses rest
  | _ :: rest => terminal_statuses rest
  end.

(** Every commit status set, pending ones included. *)
Fixpoint statuses (tr : list Event) : list (Status * string * string) :=
  match tr with
  | [] => []
  | EvSetCommitStatus _ status desc url :: rest => (status, desc, url) :: statuses rest
  | _ :: rest => statuses rest
  end.

(** The repositories cloned through the fetcher. *)
Fixpoint clones (tr : list Event) : list fetchers.Repo :=
  match tr with
  | [] => []
  | EvFetch repo _ :: rest => repo :: clones rest
  | _ :: rest => clones rest
  end.

(** The public error stored in a state record. *)
Definition public_error (st : prstate.State) : string :=
  match prstate.ResultJSON st with
  | Some doc => prstate.Error (prstate.WorkerRes doc)
  | None => ""
  end.

(** The two writes that end a job, or the part of them that was reached. *)
Inductive final_writes : list Event -> Prop :=
| final_none : final_writes []
| final_state owner name guid st status :
    prstate.Status st = "processed/" +:+ Status_string status ->
    final_writes [EvUpdateState owner name guid st]
| final_both owner name guid st sha status desc url :
    prstate.Status st = "processed/" +:+ Status_string status ->
    final_writes [EvUpdateState owner name guid st;
                  EvSetCommitStatus sha status desc url].

(** The state store and the status endpoint answer every call. *)
Definition writes_return (w : World) : Prop :=
  (forall sha status desc url v, SetCommitStatus w sha status desc url <> Panics v) /\
  (forall owner name guid st v, UpdateState w owner name guid st <> Panics v).

(** The linter runner never hands back an ignored error that carries the
    pending status. *)
Definition no_pending_outcome (w : World) : Prop :=
  forall exec desc recoverable,
    Lint w exec <> Err (IgnoredError StatusPending desc recoverable).

(** In the in-process strategy the workspace has been created. *)
Definition ready (g : processors.G) : Prop :=
  processors.newWorkspaceInstaller g = None -> processors.gw g <> None.

(** [Process] run from [g] gets to its last statement in state [g1], having
    emitted [pre]; the deferred calls then emit [post]. *)
Definition reaches_finalization (w : World) (g : processors.G)
    (pre : list Event) (g1 : processors.G) (post : list Event) : Prop :=
  forall finalize : M processors.G (option error),
    events (processors.Process_then w finalize g) = pre ++ events (finalize g1) ++ post /\
    returned (processors.Process_then w finalize g) = returned (finalize g1).

(** The state of the processor when stage 3 runs, [p] being the pull
    request that stage 1 fetched. *)
Definition state_at_provisioning (g : processors.G) (p : PullRequest) : processors.G :=
  match processors.newWorkspaceInstaller g with
  | Some _ => processors.set_pr (Some p) g
  | None =>
      processors.set_gw (Some (workspaces.NewGo (processors.exec g)))
                        (processors.set_pr (Some p) g)
  end.

(** Stage 3 fails with [err]. *)
Definition provisioning_fails (w : World) (g : processors.G) (p : PullRequest)
    (err : error) : Prop :=
  let g1 := processors.set_pr (Some p) g in
  match processors.newWorkspaceInstaller g with
  | Some installer =>
      returned (workspaces.Setup w installer (processors.getRepo w g1)
                  ["github.com"; Owner (ctxRepo (processors.context g));
                   Name (ctxRepo (processors.context g))] g1)
      = Ret (inr err)
  | None => GoSetup w (processors.getRepo w g1) = Err err
  end.

End trace.

(** ** The vocabulary of the proofs *)

Module logic.

Import github processors trace.

(** [Quiet P m]: from a state in [P], [m] makes no terminal write and ends
    in [P]. *)
Definition Quiet {S A} (P : S -> Prop) (m : M S A) : Prop :=
  forall s, P s -> Forall quiet (events (m s)) /\ P (final (m s)).

(** [Returns Q m]: whenever [m] returns, its result is in [Q]. *)
Definition Returns {S A} (Q : A -> Prop) (m : M S A) : Prop :=
  forall s, match returned (m s) with Ret a => Q a | Panic _ => True end.

(** What [work] hands to the finalization: a result whenever there is no
    error, and never an ignored error with the pending status unless the
    linter runner produced it. *)
Definition work_result_ok (w : World) (x : option lintres.Result * option error) : Prop :=
  (x.2 = None -> x.1 <> None) /\
  (no_pending_outcome w -> forall desc r, x.2 <> Some (IgnoredError StatusPending desc r)).

(** The panic value of an answer, if it is a panic. *)
Definition panicked {A} (o : outcome A) : option string :=
  match o with
  | Panics v => Some v
  | Ok _ | Err _ => None
  end.

(** How a run of [Process_then] can go: it leaves before any terminal
    write, or it reports a failed provisioning, or it gets to [finalize]. *)
Inductive Outcome (w : World) (finalize : M G (option error))
  : list Event -> result (option error) -> Prop :=
| out_early tr r :
    Forall quiet tr -> r <> Ret None -> Outcome w finalize tr r
| out_failed pre err g1 post r :
    Forall quiet pre -> Forall quiet post -> ready g1 ->
    Outcome w finalize (pre ++ events (report_setup_failure w err g1) ++ post) r
| out_reached pre g1 post :
    Forall quiet pre -> Forall quiet post -> ready g1 ->
    Outcome w finalize (pre ++ events (finalize g1) ++ post) (returned (finalize g1)).

(** [Shape w k P m]: from a state in [P], [m] runs to one of the outcomes. *)
Definition Shape (w : World) (k : M G (option error)) (P : G -> Prop)
    (m : M G (option error)) : Prop :=
  forall s, P s -> Outcome w k (events (m s)) (returned (m s)).

End logic.

(** ** Worlds and jobs used as concrete inputs *)

Module scenarios.

Import github processors.

Definition exec0 : Executor :=
  executors.mkTempDirShell (executors.mkShell "/tmp/golangci.x" ∅).

Definition ctx0 : Context := mkContext (mkRepo "owner" "name") "token-123456" 7.

Definition pr_open : PullRequest := mkPullRequest 7 "open" "feature" "abc123" "fork".
Definition pr_closed : PullRequest := mkPullRequest 7 "CLOSED" "feature" "abc123" "fork".

Definition envres0 : goenv.Result :=
  goenv.mkResult "/goapp" (<["GOPATH" := "/go"]> ∅) None "".

Definition error_text (e : error) : string :=
  match e with
  | IgnoredError _ desc _ => desc
  | InternalError _ priv => priv
  | BadInputError pub => pub
  | ErrorString msg => msg
  end.

Definition environ0 : list string :=
  ["HOME=/root"; "WEB_ROOT=https://golangci.com"; "SECRET=hunter22"].

(** A world in which every collaborator succeeds, but for the answers given
    as arguments. *)
Definition world (getpr : outcome PullRequest) (gosetup fetch : outcome unit)
    (lint : outcome lintres.Result) (tempfile : outcome string)
    (environ : list string) : World :=
  mkWorld
    (fun _ => getpr) (fun _ => Ok "diff") (fun _ _ _ _ => Ok tt) (fun _ => true)
    (fun _ repo => "https://github.com/" +:+ repo)
    (fun _ _ _ => Ok (prstate.mkState 100 "sent_to_queue" 0 None))
    (fun _ _ _ _ => Ok tt)
    (fun _ => gosetup) "/gopath" exec0 (fun _ => Ok [])
    (fun _ _ => fetch) (fun _ _ => Ok "{}") (fun _ => inl envres0)
    (fun _ => lint) (fun _ _ => Ok tt)
    tempfile (fun _ _ => Ok tt) (fun _ _ _ => Ok tt)
    environ "goroutine 1 [running]" error_text (fun text _ => text).

Definition issues2 : list lintres.Issue := [lintres.MkIssue "a"; lintres.MkIssue "b"].

Definition nominal (p : PullRequest) (lint : outcome lintres.Result) : World :=
  world (Ok p) (Ok tt) (Ok tt) lint (Ok "/tmp/golangci.diff1") environ0.

Definition world_clean : World := nominal pr_open (Ok (lintres.mkResult [] "{}")).
Definition world_two_issues : World := nominal pr_open (Ok (lintres.mkResult issues2 "{}")).
Definition world_closed : World := nominal pr_closed (Ok (lintres.mkResult [] "{}")).
Definition world_lint_panics : World := nominal pr_open (Panics "boom").
Definition world_no_go_files : World :=
  nominal pr_open (Err (InternalError "can't run linters" "build failed: no go files to analyze")).
Definition world_pr_unreachable : World :=
  world (Err (ErrorString "connection reset")) (Ok tt) (Ok tt)
        (Ok (lintres.mkResult [] "{}")) (Ok "/tmp/golangci.diff1") environ0.
Definition world_setup_fails : World :=
  world (Ok pr_open) (Err (ErrorString "no space left")) (Err (ErrorString "no space left"))
        (Ok (lintres.mkResult [] "{}")) (Ok "/tmp/golangci.diff1") environ0.
Definition world_no_temp_file : World :=
  world (Ok pr_open) (Ok tt) (Ok tt) (Ok (lintres.mkResult [] "{}"))
        (Err (ErrorString "disk full")) environ0.
Definition world_no_web_root : World :=
  world (Ok pr_open) (Ok tt) (Ok tt) (Ok (lintres.mkResult [] "{}"))
        (Ok "/tmp/golangci.diff1") ["HOME=/root"].

(** A job as the factory builds it; [installer] selects the strategy. *)
Definition job (installer : option workspaces.Go2) : G :=
  mkGithubGoPR None "guid-1" ctx0 None None exec0 [] [] installer.

Definition job_builder : G := job (Some (workspaces.NewGo2 exec0)).
Definition job_in_process : G := job None.

(** The state in which the builder job gets to finalization when stages 1
    to 6 succeed. *)
Definition nominal_state : G :=
  add_timing "In Queue"
    (add_timing "Prepare"
       (set_resLog None
          (set_exec (executors.copy_SetEnv
                       (executors.copy_SetWorkDir exec0 "/goapp") "GOPATH" "/go")
             (set_pr (Some pr_open) job_builder)))).

Definition factory (p : outcome G) : analyze.Factory :=
  analyze.mkFactory (fun _ => p) (fun t => analyze.AnalysisGUID t).

End scenarios.

(** ** [app/lib/httputils]: the HTTP client *)

Module httputils.

(** A [*grequests.Response], by what the client reads of it; it is handed
    out as the [io.ReadCloser] of its body. *)
Record Response : Type := mkResponse {
  RespOk : bool;
  StatusCode : Z;
  RespBody : string
}.

#[global] Instance Response_eq_dec : EqDecision Response.
Proof. solve_decision. Defined.

(** The calls of the client, with what the library answered: the response
    of a request ([None] when the request could not be made), the closing
    of a response, and a warning written to the log. *)
Inductive NetEvent (J : Type) : Type :=
| NetGet (url : string) (answer : option Response)
| NetPut (url : string) (jsonObj : J) (answer : option Response)
| NetClose (resp : Response)
| NetDecode (resp : Response)
| NetWarnf (msg : string).
Arguments NetGet {J} url answer.
Arguments NetPut {J} url jsonObj answer.
Arguments NetClose {J} resp.
Arguments NetDecode {J} resp.
Arguments NetWarnf {J} msg.

(** The network and the formatting verbs the client relies on: [%q] is
    [Quote] and [%s] of an error is [ErrText]. *)
Record Net (J : Type) : Type := mkNet {
  grequests_Get : string -> Response + error;
  grequests_Put : string -> J -> Response + error;
  Close : Response -> option error;
  Decode : Response -> J + error;
  Quote : string -> string;
  ErrText : error -> string
}.
Arguments grequests_Get {J} n url.
Arguments grequests_Put {J} n url jsonObj.
Arguments Close {J} n resp.
Arguments Decode {J} n resp.
Arguments Quote {J} n s.
Arguments ErrText {J} n e.
Arguments mkNet {J}.

(** [type Client interface { Get; Put }] *)
Record Client (J : Type) : Type := mkClient {
  Get : string -> list (NetEvent J) * (Response + error);
  Put : string -> J -> list (NetEvent J) * option error
}.
Arguments Get {J} c url.
Arguments Put {J} c url jsonObj.
Arguments mkClient {J}.

(** The closing of a response that answered with an error code; a failure
    to close is logged. *)
Definition close_logged {J} (net : Net J) (url : string) (resp : Response)
  : list (NetEvent J) :=
  match Close net resp with
  | Some cerr =>
      [NetClose resp;
       NetWarnf ("Can't close " +:+ Quote net url +:+ " response: " +:+ ErrText net cerr)]
  | None => [NetClose resp]
  end.

(** [func (c GrequestsClient) Get(ctx, url) (io.ReadCloser, error)] *)
Definition GrequestsClient_Get {J} (net : Net J) (url : string)
  : list (NetEvent J) * (Response + error) :=
  match grequests_Get net url with
  | inr err =>
      ([NetGet url None],
       inr (ErrorString ("unable to make GET http request " +:+ Quote net url
                         +:+ ": " +:+ ErrText net err)))
  | inl resp =>
      if negb (RespOk resp) then
        (NetGet url (Some resp) :: close_logged net url resp,
         inr (ErrorString ("got error code from " +:+ Quote net url
                           +:+ ": " +:+ fmt_int (StatusCode resp))))
      else ([NetGet url (Some resp)], inl resp)
  end.

(** [func (c GrequestsClient) Put(ctx, url, jsonObj) error] *)
Definition GrequestsClient_Put {J} (net : Net J) (url : string) (jsonObj : J)
  : list (NetEvent J) * option error :=
  match grequests_Put net url jsonObj with
  | inr err =>
      ([NetPut url jsonObj None],
       Some (ErrorString ("unable to make PUT http request " +:+ Quote net url
                          +:+ ": " +:+ ErrText net err)))
  | inl resp =>
      if negb (RespOk resp) then
        (NetPut url jsonObj (Some resp) :: close_logged net url resp,
         Some (ErrorString ("got error code from " +:+ Quote net url
                            +:+ ": " +:+ fmt_int (StatusCode resp))))
      else ([NetPut url jsonObj (Some resp)], None)
  end.

(** [type GrequestsClient struct{}] as a [Client]. *)
Definition GrequestsClient {J} (net : Net J) : Client J :=
  mkClient (GrequestsClient_Get net) (GrequestsClient_Put net).

(** The responses a trace received, and the ones it closed, oldest first. *)
Fixpoint received {J} (tr : list (NetEvent J)) : list Response :=
  match tr with
  | [] => []
  | NetGet _ (Some resp) :: rest => resp :: received rest
  | NetPut _ _ (Some resp) :: rest => resp :: received rest
  | _ :: rest => received rest
  end.

Fixpoint closed {J} (tr : list (NetEvent J)) : list Response :=
  match tr with
  | [] => []
  | NetClose resp :: rest => resp :: closed rest
  | _ :: rest => closed rest
  end.

(** A trace without the warnings written to the log. *)
Fixpoint unlogged {J} (tr : list (NetEvent J)) : list (NetEvent J) :=
  match tr with
  | [] => []
  | NetWarnf _ :: rest => unlogged rest
  | e :: rest => e :: unlogged rest
  end.

(** The same network with another answer to [Close]. *)
Definition with_Close {J} (net : Net J) (close : Response -> option error) : Net J :=
  mkNet (grequests_Get net) (grequests_Put net) close (Decode net) (Quote net)
        (ErrText net).

End httputils.

(** ** [app/analyze/repostate]: the state store behind the API *)

Module repostate.

Import httputils.

(** [type APIStorage struct { host; client }] *)
Record APIStorage : Type := mkAPIStorage {
  host : string;
  client : Client prstate.State
}.

(** [func NewAPIStorage(client httputils.Client) *APIStorage] *)
Definition NewAPIStorage (environ : list string) (client : Client prstate.State)
  : APIStorage :=
  mkAPIStorage (Getenv environ "API_URL") client.

(** [func (s APIStorage) getAnalysisURL(owner, name, analysisID string) string] *)
Definition getAnalysisURL (s : APIStorage) (owner name analysisID : string) : string :=
  host s +:+ "/v1/repos/github.com/" +:+ owner +:+ "/" +:+ name
         +:+ "/repoanalyzes/" +:+ analysisID.

(** [func (s APIStorage) UpdateState(ctx, owner, name, analysisID, state) error] *)
Definition UpdateState (s : APIStorage) (owner name analysisID : string)
    (state : prstate.State) : list (NetEvent prstate.State) * option error :=
  Put (client s) (getAnalysisURL s owner name analysisID) state.

(** [func (s APIStorage) GetState(ctx, owner, name, analysisID)], which
    returns a [*State] and an error;
    the deferred [bodyReader.Close()] runs after the decoding, whatever
    the decoding gave, and its answer is dropped. *)
Definition GetState (net : Net prstate.State) (s : APIStorage)
    (owner name analysisID : string)
  : list (NetEvent prstate.State) * (prstate.State + error) :=
  match Get (client s) (getAnalysisURL s owner name analysisID) with
  | (tr, inr err) => (tr, inr err)
  | (tr, inl bodyReader) =>
      match Decode net bodyReader with
      | inr err =>
          (tr ++ [NetDecode bodyReader; NetClose bodyReader],
           inr (ErrorString ("can't read json body: " +:+ ErrText net err)))
      | inl state =>
          (tr ++ [NetDecode bodyReader; NetClose bodyReader], inl state)
      end
  end.

End repostate.

(** ** [TempDirShell.CopyFile]: files on disk *)

Module files.

(** An open [*os.File]. *)
Record File : Type := mkFile { fd : nat; path : string }.

#[global] Instance File_eq_dec : EqDecision File.
Proof. solve_decision. Defined.

(** The calls on the file system, with the handle a successful opening
    gave. *)
Inductive FsEvent : Type :=
| FsOpen (name : string) (answer : option File)
| FsOpenFile (name : string) (answer : option File)
| FsCopy (to from : File)
| FsClose (f : File)
| FsRemoveAll (dir : string)
| FsWarnf (msg : string).

(** The file system and [filepath.Join]. *)
Record FS : Type := mkFS {
  Open : string -> File + error;
  OpenFile : string -> File + error;
  Copy : File -> File -> option error;
  RemoveAll : string -> option error;
  filepath_Join : string -> string -> string;
  FsErrText : error -> string
}.

(** [func (s TempDirShell) CopyFile(ctx, dst, src string) error]; the two
    deferred [Close] calls run in the reverse order of the openings. *)
Definition CopyFile (fs : FS) (s : executors.TempDirShell) (dst src : string)
  : list FsEvent * option error :=
  let dst := filepath_Join fs (executors.WorkDir s) dst in
  match Open fs src with
  | inr err =>
      ([FsOpen src None],
       Some (ErrorString ("can't open " +:+ src +:+ ": " +:+ FsErrText fs err)))
  | inl from =>
      match OpenFile fs dst with
      | inr err =>
          ([FsOpen src (Some from); FsOpenFile dst None; FsClose from],
           Some (ErrorString ("can't open " +:+ dst +:+ ": " +:+ FsErrText fs err)))
      | inl to =>
          match Copy fs to from with
          | Some err =>
              ([FsOpen src (Some from); FsOpenFile dst (Some to); FsCopy to from;
                FsClose to; FsClose from],
               Some (ErrorString ("can't copy from " +:+ src +:+ " to " +:+ dst
                                  +:+ ": " +:+ FsErrText fs err)))
          | None =>
              ([FsOpen src (Some from); FsOpenFile dst (Some to); FsCopy to from;
                FsClose to; FsClose from],
               None)
          end
      end
  end.

(** [func (s TempDirShell) Clean()]: a failure to remove the directory is
    logged. *)
Definition Clean (fs : FS) (s : executors.TempDirShell) : list FsEvent :=
  match RemoveAll fs (executors.WorkDir s) with
  | Some err =>
      [FsRemoveAll (executors.WorkDir s);
       FsWarnf ("Can't remove temp dir " +:+ executors.WorkDir s +:+ ": "
                +:+ FsErrText fs err)]
  | None => [FsRemoveAll (executors.WorkDir s)]
  end.

(** The files a trace opened, and the ones it closed, oldest first. *)
Fixpoint opened (tr : list FsEvent) : list File :=
  match tr with
  | [] => []
  | FsOpen _ (Some f) :: rest => f :: opened rest
  | FsOpenFile _ (Some f) :: rest => f :: opened rest
  | _ :: rest => opened rest
  end.

Fixpoint closed (tr : list FsEvent) : list File :=
  match tr with
  | [] => []
  | FsClose f :: rest => f :: closed rest
  | _ :: rest => closed rest
  end.

(** The names a trace opened for writing, created when missing. *)
Fixpoint written (tr : list FsEvent) : list string :=
  match tr with
  | [] => []
  | FsOpenFile name _ :: rest => name :: written rest
  | _ :: rest => written rest
  end.

(** The directories a trace removed. *)
Fixpoint removed (tr : list FsEvent) : list string :=
  match tr with
  | [] => []
  | FsRemoveAll dir :: rest => dir :: removed rest
  | _ :: rest => removed rest
  end.

End files.

(** ** Further observations on traces and data *)

Module observations.

Import github processors trace.

(** An entry [kv] of the environment makes [x] a secret: it splits at its
    only "=" into a name and [x], and [x] has at least six bytes. *)
Definition redacts (kv x : string) : Prop :=
  exists k, Split kv "=" = [k; x] /\ (6 <= String.length x)%nat.

(** The warning [prepareRepo] publishes for one step of the build log. *)
Definition step_warning (w : World) (secrets : gmap string string)
    (sg : goenv.Group) (s : goenv.Step) : list collector.Warning :=
  if negb (String.eqb (goenv.StepError s) "") then
    [collector.mkWarning (goenv.GroupName sg)
       (escapeErrorText w (goenv.Description s +:+ " error: " +:+ goenv.StepError s)
                        secrets)]
  else [].

(** The warnings of a whole build log, in the order of the log. *)
Definition step_warnings (w : World) (secrets : gmap string string)
    (log : goenv.Log) : list collector.Warning :=
  flat_map (fun sg => flat_map (step_warning w secrets sg) (goenv.Steps sg))
           (goenv.Groups log).

(** The warning [prepareRepo] publishes for one warning of the dependency
    fetch. *)
Definition deps_warning (w : World) (secrets : gmap string string)
    (dw : goenv.DepWarning) : collector.Warning :=
  collector.mkWarning "prepare repo"
    (escapeErrorText w ("Fetch deps: " +:+ goenv.Kind dw +:+ ": " +:+ goenv.WarnText dw)
                     secrets).

(** Several calls of [publicWarn] in a row. *)
Definition add_warnings (ws : list collector.Warning) (g : G) : G :=
  foldl (fun g wn => add_warning (collector.Tag wn) (collector.Text wn) g) g ws.

(** [Only ok m]: every event [m] emits is in [ok]. *)
Definition Only {S A} (ok : Event -> Prop) (m : M S A) : Prop :=
  forall s, Forall ok (events (m s)).

(** The calls of the repository fetcher and of the dependency fetch. *)
Definition is_fetch (e : Event) : Prop :=
  match e with
  | EvFetch _ _ | EvFetchDeps _ => True
  | _ => False
  end.

(** The calls [work] can make. *)
Definition is_analysis (e : Event) : Prop :=
  match e with
  | EvFetch _ _ | EvFetchDeps _ | EvLint _ | EvReport _ _ => True
  | _ => False
  end.

(** The reviews posted, oldest first: commit and issues. *)
Fixpoint reports (tr : list Event) : list (string * list lintres.Issue) :=
  match tr with
  | [] => []
  | EvReport sha issues :: rest => (sha, issues) :: reports rest
  | _ :: rest => reports rest
  end.

(** The executors the linters were run on, oldest first. *)
Fixpoint lint_runs (tr : list Event) : list Executor :=
  match tr with
  | [] => []
  | EvLint exec :: rest => exec :: lint_runs rest
  | _ :: rest => lint_runs rest
  end.

(** Every state record written, terminal or not, oldest first. *)
Fixpoint state_writes (tr : list Event) : list prstate.State :=
  match tr with
  | [] => []
  | EvUpdateState _ _ _ st :: rest => st :: state_writes rest
  | _ :: rest => state_writes rest
  end.

(** A build log with one failed step, and the builder job holding it. *)
Definition log_one_failure : goenv.Log :=
  goenv.mkLog
    [goenv.mkGroup "prepare repo"
       [goenv.mkStep "check go.mod" "";
        goenv.mkStep "go mod download" "exit status 1"];
     goenv.mkGroup "build" [goenv.mkStep "go build" ""]].

(** The errors of [work] that finalization hands back to the queue. *)
Definition retried (err : error) : Prop :=
  match err with
  | IgnoredError _ _ isRecoverable => isRecoverable = true
  | InternalError _ privateDesc =>
      Contains privateDesc processors.noGoFilesToAnalyzeErr = false
  | BadInputError _ => False
  | ErrorString _ => True
  end.

(** Worlds in which the linter runner fails in the several ways. *)
Definition world_bad_input : World :=
  scenarios.nominal scenarios.pr_open (Err (BadInputError "can't parse go.mod")).
Definition world_unknown_error : World :=
  scenarios.nominal scenarios.pr_open (Err (ErrorString "exit status 2")).

(** A world in which the review cannot be posted. *)
Definition world_review_fails : World :=
  mkWorld
    (fun _ => Ok scenarios.pr_open) (fun _ => Ok "diff") (fun _ _ _ _ => Ok tt)
    (fun _ => true) (fun _ repo => "https://github.com/" +:+ repo)
    (fun _ _ _ => Ok (prstate.mkState 100 "processing" 0 None))
    (fun _ _ _ _ => Err (ErrorString "state store down"))
    (fun _ => Ok tt) "/gopath" scenarios.exec0
    (fun _ => Err (ErrorString "dep: no lock file"))
    (fun _ _ => Ok tt) (fun _ _ => Ok "{}") (fun _ => inl scenarios.envres0)
    (fun _ => Ok (lintres.mkResult scenarios.issues2 "{}"))
    (fun _ _ => Err (ErrorString "403 Forbidden"))
    (Ok "/tmp/golangci.diff1") (fun _ _ => Ok tt) (fun _ _ _ => Ok tt)
    scenarios.environ0 "goroutine 1 [running]" scenarios.error_text (fun text _ => text).

(** Every event but the clean-up of an executor. *)
Definition not_clean (e : Event) : Prop :=
  match e with
  | EvClean _ => False
  | _ => True
  end.

(** Stage 3 succeeds for the pull request [p]: it emits [setup_events] and
    leaves the processor in the state [g1]. *)
Definition provisioning_succeeds (w : World) (g : G) (p : PullRequest)
    (setup_events : list Event) (g1 : G) : Prop :=
  let g0 := set_pr (Some p) g in
  match newWorkspaceInstaller g with
  | Some installer =>
      exists exec' resLog',
        workspaces.Setup w installer (getRepo w g0)
          ["github.com"; Owner (ctxRepo (context g)); Name (ctxRepo (context g))] g0
        = (setup_events, (Ret (inl (exec', resLog')), g0)) /\
        g1 = add_timing "Prepare" (set_resLog resLog' (set_exec exec' g0))
  | None =>
      GoSetup w (getRepo w g0) = Ok tt /\
      setup_events = [EvGoSetup (getRepo w g0)] /\
      g1 = set_exec (GoExecutor w) (set_gw (Some (workspaces.NewGo (exec g))) g0)
  end.

(** The deferred calls that end a run of [Process] once stage 3 has
    succeeded. *)
Definition cleanup (g : G) : list Event :=
  match newWorkspaceInstaller g with
  | Some _ => [EvClean (exec g)]
  | None => [EvGoClean; EvClean (exec g)]
  end.

(** A world in which the linter runner panics with a value that mentions
    the "no go files" mark. *)
Definition world_panic_with_mark : World :=
  scenarios.nominal scenarios.pr_open (Panics "loader: no go files to analyze in ./...").

(** The calls stage 3 can make. *)
Definition is_provisioning (e : Event) : Prop :=
  match e with
  | EvFetch _ _ | EvRun _ _ | EvGoSetup _ => True
  | _ => False
  end.

(** The calls [storePatch] can make. *)
Definition is_patch_file (e : Event) : Prop :=
  match e with
  | EvTempFile | EvWriteFile _ _ | EvCopyFile _ _ _ | EvRemove _ => True
  | _ => False
  end.

(** The text of the pending status. *)
Definition reviewing : string := "GolangCI is reviewing your Pull Request...".

(** A state store that answers every request, and a disk on which every
    call succeeds. *)
Definition net_ok : httputils.Net prstate.State :=
  httputils.mkNet
    (fun _ => inl (httputils.mkResponse true 200 "{}"))
    (fun _ _ => inl (httputils.mkResponse true 200 "ok"))
    (fun _ => None)
    (fun _ => inl (prstate.mkState 100 "sent_to_queue" 0 None))
    (fun s => s) scenarios.error_text.

Definition fs_ok : files.FS :=
  files.mkFS (fun name => inl (files.mkFile 3 name)) (fun name => inl (files.mkFile 4 name))
             (fun _ _ => None) (fun _ => None)
             (fun dir name => dir +:+ "/" +:+ name) scenarios.error_text.

End observations.

(** * Properties *)

Import golang github processors trace logic scenarios.
Import observations.

(** ** Strings *)

Example ToUpper_closed : ToUpper "closed" = "CLOSED".
Proof. reflexivity. Qed.

Example ToLower_merged : ToLower "MERGED" = "merged".
Proof. reflexivity. Qed.

Example Split_env : Split "HOME=/root" "=" = ["HOME"; "/root"].
Proof. reflexivity. Qed.

Example Split_two_seps : Split "A=b=c" "=" = ["A"; "b"; "c"].
Proof. reflexivity. Qed.

Example Getenv_set : Getenv environ0 "WEB_ROOT" = "https://golangci.com".
Proof. reflexivity. Qed.

Example Getenv_unset : Getenv ["HOME=/root"] "WEB_ROOT" = "".
Proof. reflexivity. Qed.

Lemma append_cons (c : ascii) (s t : string) : String c s +:+ t = String c (s +:+ t).
Proof. reflexivity. Qed.

Lemma append_nil_l (t : string) : "" +:+ t = t.
Proof. reflexivity. Qed.

Lemma prefix_app (v rest : string) : String.prefix v (v +:+ rest) = true.
Proof.
  induction v as [|c v IH].
  - now destruct rest.
  - rewrite append_cons. cbn [String.prefix].
    destruct (ascii_dec c c) as [_|ne]; [exact IH | now destruct ne].
Qed.

Lemma Contains_here (v rest : string) : Contains (v +:+ rest) v = true.
Proof.
  destruct (v +:+ rest) eqn:E; cbn [Contains];
    rewrite <- E, prefix_app; reflexivity.
Qed.

Lemma Contains_later (pre s v : string) :
  Contains s v = true -> Contains (pre +:+ s) v = true.
Proof.
  intros H. induction pre as [|c pre IH]; [exact H|].
  rewrite append_cons. cbn [Contains]. rewrite IH.
  now destruct (String.prefix v _).
Qed.

Lemma Contains_infix (pre v post : string) : Contains (pre +:+ v +:+ post) v = true.
Proof. apply Contains_later, Contains_here. Qed.

Lemma append_not_empty (s : string) (c : ascii) (t : string) : s +:+ String c t <> "".
Proof. destruct s; [rewrite append_nil_l | rewrite append_cons]; discriminate. Qed.

(** ** The check status derived from the issue list *)

(** C7. [getGithubStatusForIssues] maps the empty issue list to success
    with the description "No issues found!", a one-element list to failure
    with "1 issue found", and a list of N > 1 elements to failure with
    "N issues found", N being written in decimal. *)
Theorem getGithubStatusForIssues_by_count :
  getGithubStatusForIssues [] = (StatusSuccess, "No issues found!") /\
  (forall i, getGithubStatusForIssues [i] = (StatusFailure, "1 issue found")) /\
  (forall i j rest,
      getGithubStatusForIssues (i :: j :: rest)
      = (StatusFailure, fmt_nat (length (i :: j :: rest)) +:+ " issues found")) /\
  getGithubStatusForIssues issues2 = (StatusFailure, "2 issues found") /\
  getGithubStatusForIssues (repeat (lintres.MkIssue "x") 12)
  = (StatusFailure, "12 issues found").
Proof. repeat split. Qed.

(** ** The details URL of a commit status *)

Lemma setCommitStatus_events (w : World) (status : Status) (desc : string) (g : G) :
  events (setCommitStatus w status desc g)
  = [EvSetCommitStatus (PullRequest_GetHeadSHA (pr g)) status desc (detailsURL w g status)].
Proof.
  unfold setCommitStatus, by_value, bind, get, call, publicWarn, modify, ret.
  destruct (SetCommitStatus w _ status desc _); reflexivity.
Qed.

Lemma setCommitStatus_final (w : World) (status : Status) (desc : string) (g : G) :
  final (setCommitStatus w status desc g) = g.
Proof.
  unfold setCommitStatus, by_value, bind, get, call, publicWarn, modify, ret.
  destruct (SetCommitStatus w _ status desc _); reflexivity.
Qed.

Lemma setCommitStatus_returned (w : World) (status : Status) (desc : string) (g : G) :
  (forall v, SetCommitStatus w (PullRequest_GetHeadSHA (pr g)) status desc
                             (detailsURL w g status) <> Panics v) ->
  returned (setCommitStatus w status desc g) = Ret tt.
Proof.
  intros H.
  unfold setCommitStatus, by_value, bind, get, call, publicWarn, modify, ret.
  destruct (SetCommitStatus w _ status desc _) eqn:E; try reflexivity.
  now destruct (H v).
Qed.

(** C8, as the code has it.  The details URL handed to [SetCommitStatus] is
    empty for the pending status and is
    [<WEB_ROOT>/r/github.com/<owner>/<name>/pulls/<pr>] for success, failure
    and error; with [WEB_ROOT] unset it is that path without a root, which
    is not the empty string. *)
Theorem setCommitStatus_details_url (w : World) (g : G) (status : Status) (desc : string) :
  events (setCommitStatus w status desc g)
  = [EvSetCommitStatus (PullRequest_GetHeadSHA (pr g)) status desc (detailsURL w g status)] /\
  detailsURL w g StatusPending = "" /\
  (status <> StatusPending ->
   detailsURL w g status
   = Getenv (Environ w) "WEB_ROOT" +:+ "/r/github.com/"
       +:+ Owner (ctxRepo (context g)) +:+ "/" +:+ Name (ctxRepo (context g))
       +:+ "/pulls/" +:+ fmt_int (PullRequest_GetNumber (pr g))) /\
  (status <> StatusPending -> detailsURL w g status <> "") /\
  (status <> StatusPending -> Getenv (Environ w) "WEB_ROOT" = "" ->
   detailsURL w g status
   = "/r/github.com/" +:+ Owner (ctxRepo (context g)) +:+ "/"
       +:+ Name (ctxRepo (context g)) +:+ "/pulls/"
       +:+ fmt_int (PullRequest_GetNumber (pr g))).
Proof.
  split; [apply setCommitStatus_events|].
  split; [reflexivity|].
  split; [destruct status; intros H; solve [reflexivity | now destruct H]|].
  split.
  - destruct status; intros H; try (now destruct H);
      cbn [detailsURL]; apply append_not_empty.
  - destruct status; intros H E; try (now destruct H);
      cbn [detailsURL]; rewrite E; reflexivity.
Qed.

Lemma setCommitStatus_details_url_witness :
  StatusSuccess <> StatusPending /\
  Getenv (Environ world_no_web_root) "WEB_ROOT" = "" /\
  detailsURL world_no_web_root (set_pr (Some pr_open) job_builder) StatusSuccess
  = "/r/github.com/owner/name/pulls/7".
Proof.
  split; [discriminate|]. split; [reflexivity|].
  destruct (setCommitStatus_details_url world_no_web_root
              (set_pr (Some pr_open) job_builder) StatusSuccess "ok")
    as (_ & _ & _ & _ & H).
  rewrite H; [reflexivity | discriminate | reflexivity].
Defined.

(** C8 as the claim states it fails: with [WEB_ROOT] unset the URL set
    along with a success status is not empty. *)
Lemma details_url_not_empty_when_web_root_unset :
  Getenv (Environ world_no_web_root) "WEB_ROOT" = "" /\
  events (setCommitStatus world_no_web_root StatusSuccess "No issues found!"
                          (set_pr (Some pr_open) job_builder))
  = [EvSetCommitStatus "abc123" StatusSuccess "No issues found!"
                       "/r/github.com/owner/name/pulls/7"] /\
  "/r/github.com/owner/name/pulls/7" <> "".
Proof. repeat split. discriminate. Qed.

(** ** Storing the patch *)

(** C10. When the temporary file cannot be created, [storePatch] panics on
    the nil file handle while it evaluates the argument of the deferred
    [os.Remove(f.Name())], before it looks at the error; when the file has
    been created, it returns an error only if writing the patch or copying
    it into the workspace failed, and returns nil if both succeeded. *)
Theorem storePatch_temp_file {S} (w : World) (patch : string) (exec : Executor) (s : S) :
  (forall e, TempFile w = Err e ->
     storePatch w patch exec s = ([EvTempFile], (Panic nil_dereference, s))) /\
  (forall name err, TempFile w = Ok name ->
     returned (storePatch w patch exec s) = Ret (Some err) ->
     (exists e, WriteFile w name patch = Err e) \/
     (exists e, CopyFile w exec patchPath name = Err e)) /\
  (forall name, TempFile w = Ok name ->
     WriteFile w name patch = Ok tt ->
     CopyFile w exec patchPath name = Ok tt ->
     storePatch w patch exec s
     = ([EvTempFile; EvWriteFile name patch; EvCopyFile exec patchPath name; EvRemove name],
        (Ret None, s))).
Proof.
  unfold storePatch, bind, call, FileName, defer, emit, panic, ret.
  repeat split.
  - intros e ->. reflexivity.
  - intros name err -> H. cbn in H |- *.
    destruct (WriteFile w name patch) eqn:EW; cbn in H; eauto; try discriminate.
    destruct (CopyFile w exec patchPath name) eqn:EC; cbn in H; eauto; discriminate.
  - intros name -> -> ->. reflexivity.
Qed.

Lemma storePatch_temp_file_witness :
  TempFile world_no_temp_file = Err (ErrorString "disk full") /\
  storePatch world_no_temp_file "diff" exec0 tt = ([EvTempFile], (Panic nil_dereference, tt)).
Proof.
  split; [reflexivity|].
  apply (proj1 (storePatch_temp_file world_no_temp_file "diff" exec0 tt)
               (ErrorString "disk full")).
  reflexivity.
Defined.

(** ** Derived executors *)

Section Derivation.

Import executors.

Variables (h : heap) (base : ptr) (s : TempDirShell).
Hypothesis base_live : h !! base = Some s.

Lemma alloc_fresh (x : TempDirShell) : h !! (alloc h x).1 = None.
Proof. cbn. apply not_elem_of_dom, is_fresh. Qed.

Lemma alloc_keeps (x : TempDirShell) : (alloc h x).2 !! base = Some s.
Proof.
  cbn. rewrite lookup_insert_ne; [exact base_live|].
  intros E. pose proof (alloc_fresh x) as F. cbn in F.
  rewrite E, base_live in F. discriminate.
Qed.

Lemma alloc_reads (x : TempDirShell) : (alloc h x).2 !! (alloc h x).1 = Some x.
Proof. cbn. apply lookup_insert_eq. Qed.

Lemma alloc_differs (x : TempDirShell) : (alloc h x).1 <> base.
Proof.
  intros E. pose proof (alloc_fresh x) as F. rewrite E, base_live in F. discriminate.
Qed.

End Derivation.

Lemma mutate_all_frame (ms : list executors.mutation) (h : executors.heap)
    (d base : executors.ptr) (x s : Executor) :
  d <> base -> h !! d = Some x -> h !! base = Some s ->
  exists h' x', executors.mutate_all h d ms = Some h' /\
                h' !! d = Some x' /\ h' !! base = Some s.
Proof.
  revert h x. induction ms as [|m ms IH]; intros h x Hne Hd Hb.
  - exists h, x. auto.
  - cbn [executors.mutate_all].
    destruct m as [k v|dir]; cbn [executors.mutate];
      unfold executors.SetEnv, executors.SetWorkDir; rewrite Hd.
    + eapply IH; [exact Hne | apply lookup_insert_eq |].
      rewrite lookup_insert_ne; [exact Hb | exact Hne].
    + eapply IH; [exact Hne | apply lookup_insert_eq |].
      rewrite lookup_insert_ne; [exact Hb | exact Hne].
Qed.

(** C9. Deriving an executor does not touch the one it is derived from:
    [WithEnv] and [WithWorkDir] hand back an address that was not in use,
    holding a copy with the one entry or the working directory overridden;
    in [base.WithEnv(k, v).WithEnv(k, v2)] the entry for [k] is [v2]; and
    whatever is then done in place to a derivative, the struct at [base]
    keeps its environment and its working directory. *)
Theorem derived_executor_independent (h : executors.heap) (base : executors.ptr)
    (s : Executor) (k v v2 dir : string) (ms : list executors.mutation) :
  h !! base = Some s ->
  exists d1 h1 d2 h2 dw hw,
    executors.WithEnv h base k v = Some (d1, h1) /\
    h !! d1 = None /\ d1 <> base /\ h1 !! base = Some s /\
    h1 !! d1 = Some (executors.copy_SetEnv s k v) /\
    executors.WithEnv h1 d1 k v2 = Some (d2, h2) /\
    h1 !! d2 = None /\ h2 !! base = Some s /\
    (exists x2, h2 !! d2 = Some x2 /\ executors.Env x2 !! k = Some v2 /\
                executors.WorkDir x2 = executors.WorkDir s) /\
    executors.WithWorkDir h base dir = Some (dw, hw) /\
    h !! dw = None /\ dw <> base /\ hw !! base = Some s /\
    (exists xw, hw !! dw = Some xw /\ executors.WorkDir xw = dir /\
                executors.Env xw = executors.Env s) /\
    (exists h', executors.mutate_all h2 d2 ms = Some h' /\ h' !! base = Some s) /\
    (exists h', executors.mutate_all h1 d1 ms = Some h' /\ h' !! base = Some s) /\
    (exists h', executors.mutate_all hw dw ms = Some h' /\ h' !! base = Some s).
Proof.
  intros Hb.
  set (x1 := executors.copy_SetEnv s k v).
  set (a1 := executors.alloc h x1).
  set (x2 := executors.copy_SetEnv x1 k v2).
  set (a2 := executors.alloc a1.2 x2).
  set (xw := executors.copy_SetWorkDir s dir).
  set (aw := executors.alloc h xw).
  assert (H1b : a1.2 !! base = Some s) by apply (alloc_keeps h base s Hb).
  assert (H1d : a1.2 !! a1.1 = Some x1) by apply alloc_reads.
  assert (H1n : a1.1 <> base) by apply (alloc_differs h base s Hb).
  assert (H2b : a2.2 !! base = Some s) by apply (alloc_keeps a1.2 base s H1b).
  assert (H2d : a2.2 !! a2.1 = Some x2) by apply alloc_reads.
  assert (H2n : a2.1 <> base) by apply (alloc_differs a1.2 base s H1b).
  assert (Hwb : aw.2 !! base = Some s) by apply (alloc_keeps h base s Hb).
  assert (Hwd : aw.2 !! aw.1 = Some xw) by apply alloc_reads.
  assert (Hwn : aw.1 <> base) by apply (alloc_differs h base s Hb).
  exists a1.1, a1.2, a2.1, a2.2, aw.1, aw.2.
  repeat match goal with |- _ /\ _ => split end.
  - unfold executors.WithEnv. rewrite Hb. reflexivity.
  - apply alloc_fresh.
  - exact H1n.
  - exact H1b.
  - exact H1d.
  - unfold executors.WithEnv. rewrite H1d. reflexivity.
  - apply alloc_fresh.
  - exact H2b.
  - exists x2. split; [exact H2d|]. split; [apply lookup_insert_eq | reflexivity].
  - unfold executors.WithWorkDir. rewrite Hb. reflexivity.
  - apply alloc_fresh.
  - exact Hwn.
  - exact Hwb.
  - exists xw. split; [exact Hwd|]. split; reflexivity.
  - destruct (mutate_all_frame ms a2.2 a2.1 base x2 s H2n H2d H2b) as (h' & _ & E & _ & B).
    eauto.
  - destruct (mutate_all_frame ms a1.2 a1.1 base x1 s H1n H1d H1b) as (h' & _ & E & _ & B).
    eauto.
  - destruct (mutate_all_frame ms aw.2 aw.1 base xw s Hwn Hwd Hwb) as (h' & _ & E & _ & B).
    eauto.
Qed.

Lemma derived_executor_independent_witness :
  ({[1%positive := exec0]} : gmap positive Executor) !! 1%positive = Some exec0 /\
  exists d1 h1,
    executors.WithEnv {[1%positive := exec0]} 1%positive "REPO" "a" = Some (d1, h1) /\
    d1 <> 1%positive /\ h1 !! 1%positive = Some exec0.
Proof.
  split; [reflexivity|].
  destruct (derived_executor_independent {[1%positive := exec0]} 1%positive exec0
              "REPO" "a" "b" "/goapp"
              [executors.MutSetEnv "REPO" "c"; executors.MutSetWorkDir "/elsewhere"])
    as (d1 & h1 & _ & _ & _ & _ & E & _ & N & B & _); [reflexivity|].
  exists d1, h1. auto.
Defined.

(** The executor [Go2.Setup] hands back: the working directory of the
    [goenvbuild] result and its environment laid over that of [w.exec],
    whatever the order in which the map is ranged over. *)
Lemma fold_SetEnv (m : gmap string string) (e : Executor) :
  let r := map_fold (fun k v e => executors.copy_SetEnv e k v) e m in
  executors.WorkDir r = executors.WorkDir e /\
  executors.Env r = m ∪ executors.Env e.
Proof.
  cbn zeta.
  apply (map_fold_weak_ind
           (fun (r : Executor) (m : gmap string string) =>
              executors.WorkDir r = executors.WorkDir e /\
              executors.Env r = m ∪ executors.Env e)).
  - split; [reflexivity|]. now rewrite (left_id_L ∅ (∪)).
  - intros k v m' r Hk [Hw He]. split; [exact Hw|].
    unfold executors.Env, executors.copy_SetEnv, executors.shell_SetEnv in *.
    cbn [executors.sh executors.env]. rewrite He. now rewrite insert_union_l.
Qed.

Lemma Setup_executor {S} (w : World) (go2 : workspaces.Go2) (repo : fetchers.Repo)
    (parts : list string) (s : S) (e : Executor) (log : option goenv.Log) :
  returned (workspaces.Setup w go2 repo parts s) = Ret (inl (e, log)) ->
  exists out res,
    Unmarshal w out = inl res /\ goenv.ResError res = "" /\
    executors.WorkDir e = goenv.ResWorkDir res /\
    executors.Env e = goenv.Environment res ∪ executors.Env (workspaces.exec go2) /\
    log = goenv.ResLog res.
Proof.
  unfold workspaces.Setup, bind, call, ret, returned.
  destruct (Fetch w repo _); cbn; try discriminate.
  destruct (Run w _ _) as [out| |]; cbn; try discriminate.
  destruct (Unmarshal w out) as [res|] eqn:EU; cbn; try discriminate.
  destruct (String.eqb (goenv.ResError res) "") eqn:EE; cbn; try discriminate.
  intros H. injection H as <- <-.
  apply String.eqb_eq in EE.
  destruct (fold_SetEnv (goenv.Environment res)
              (executors.copy_SetWorkDir (workspaces.exec go2) (goenv.ResWorkDir res)))
    as [Hw He].
  exists out, res. repeat split; auto.
Qed.

(** ** The scenarios of the specification, run *)

Example clean_repository :
  statuses (events (Process world_clean job_builder))
  = [(StatusPending, "GolangCI is reviewing your Pull Request...", "");
     (StatusSuccess, "No issues found!",
      "https://golangci.com/r/github.com/owner/name/pulls/7")] /\
  map (fun st => (prstate.Status st, prstate.ReportedIssuesCount st))
      (terminal_states (events (Process world_clean job_builder)))
  = [("processed/success", 0)] /\
  returned (Process world_clean job_builder) = Ret None.
Proof. vm_compute. repeat split. Qed.

Example two_issues :
  terminal_statuses (events (Process world_two_issues job_in_process))
  = [(StatusFailure, "2 issues found",
      "https://golangci.com/r/github.com/owner/name/pulls/7")] /\
  map (fun st => (prstate.Status st, prstate.ReportedIssuesCount st))
      (terminal_states (events (Process world_two_issues job_in_process)))
  = [("processed/failure", 2)] /\
  In (EvReport "abc123" issues2) (events (Process world_two_issues job_in_process)).
Proof. vm_compute. repeat split. auto 20. Qed.

Example pull_request_unreachable :
  events (Process world_pr_unreachable job_builder)
  = [EvGetPullRequest ctx0; EvClean exec0].
Proof. reflexivity. Qed.

Example linter_panics :
  terminal_statuses (events (Process world_lint_panics job_builder))
  = [(StatusError, "golangci-worker panic-ed",
      "https://golangci.com/r/github.com/owner/name/pulls/7")] /\
  exists err, returned (Process world_lint_panics job_builder) = Ret (Some err).
Proof. vm_compute. eauto. Qed.

Example secrets_of_the_builder_job :
  returned (buildSecrets world_clean nominal_state)
  = Ret (<["hunter22" := "{hidden}"]>
           (<["https://golangci.com" := "{hidden}"]>
              (<["guid-1" := "{hidden}"]> (<["token-123456" := "{hidden}"]> ∅)))).
Proof. vm_compute. reflexivity. Qed.

(** ** Reasoning about computations *)

Section Computations.

Context {S : Type}.

Lemma bind_run {A B} (m : M S A) (f : A -> M S B) (s : S) :
  bind m f s
  = match returned (m s) with
    | Ret a =>
        (events (m s) ++ events (f a (final (m s))),
         (returned (f a (final (m s))), final (f a (final (m s)))))
    | Panic v => (events (m s), (Panic v, final (m s)))
    end.
Proof.
  unfold bind, events, returned, final.
  destruct (m s) as [t [[a|v] s']]; cbn; [|reflexivity].
  destruct (f a s') as [t' [r s'']]; reflexivity.
Qed.

Lemma defer_run {A} (d : M S unit) (body : M S A) (s : S) :
  defer d body s
  = (events (body s) ++ events (d (final (body s))),
     (match returned (d (final (body s))) with
      | Ret _ => returned (body s)
      | Panic v => Panic v
      end, final (d (final (body s))))).
Proof.
  unfold defer, events, returned, final.
  destruct (body s) as [t [r s']]; cbn.
  destruct (d s') as [t' [r' s'']]; reflexivity.
Qed.

Lemma by_value_run {A} (m : M S A) (s : S) :
  by_value m s = (events (m s), (returned (m s), s)).
Proof.
  unfold by_value, events, returned. destruct (m s) as [t [r s']]; reflexivity.
Qed.

Variable P : S -> Prop.

Lemma Quiet_ret {A} (a : A) : Quiet P (ret a).
Proof. intros s Hs. split; [constructor | exact Hs]. Qed.

Lemma Quiet_get : Quiet P get.
Proof. intros s Hs. split; [constructor | exact Hs]. Qed.

Lemma Quiet_panic {A} (v : string) : Quiet P (@panic S A v).
Proof. intros s Hs. split; [constructor | exact Hs]. Qed.

Lemma Quiet_modify (f : S -> S) : (forall s, P s -> P (f s)) -> Quiet P (modify f).
Proof. intros Hf s Hs. split; [constructor | apply Hf, Hs]. Qed.

Lemma Quiet_call {A} (e : Event) (o : outcome A) : quiet e -> Quiet P (call e o).
Proof. intros He s Hs. split; [repeat constructor; exact He | exact Hs]. Qed.

Lemma Quiet_emit (e : Event) : quiet e -> Quiet P (emit e).
Proof. intros He s Hs. split; [repeat constructor; exact He | exact Hs]. Qed.

Lemma Quiet_bind {A B} (m : M S A) (f : A -> M S B) :
  Quiet P m -> (forall a, Quiet P (f a)) -> Quiet P (bind m f).
Proof.
  intros Hm Hf s Hs. rewrite bind_run.
  destruct (Hm s Hs) as [Em Pm].
  destruct (returned (m s)) as [a|v]; cbn; [|auto].
  destruct (Hf a _ Pm) as [Ef Pf].
  split; [apply Forall_app; auto | exact Pf].
Qed.

Lemma Quiet_defer {A} (d : M S unit) (body : M S A) :
  Quiet P d -> Quiet P body -> Quiet P (defer d body).
Proof.
  intros Hd Hb s Hs. rewrite defer_run.
  destruct (Hb s Hs) as [Eb Pb]. destruct (Hd _ Pb) as [Ed Pd].
  split; [apply Forall_app; auto | exact Pd].
Qed.

Lemma Quiet_by_value {A} (m : M S A) : Quiet P m -> Quiet P (by_value m).
Proof.
  intros Hm s Hs. rewrite by_value_run.
  destruct (Hm s Hs) as [Em _]. auto.
Qed.

Lemma Quiet_forM_ {A} (xs : list A) (body : A -> M S unit) :
  (forall x, Quiet P (body x)) -> Quiet P (forM_ xs body).
Proof.
  intros Hb. induction xs as [|x xs IH]; cbn [forM_].
  - apply Quiet_ret.
  - apply Quiet_bind; [apply Hb | intros _; exact IH].
Qed.

End Computations.

Lemma Quiet_on_fst {S L A} (P : S -> Prop) (m : M S A) :
  Quiet P m -> Quiet (fun sl : S * L => P (fst sl)) (on_fst m).
Proof.
  intros Hm [s l] Hs. unfold on_fst, events, final. cbn [fst snd] in *.
  destruct (Hm s Hs) as [Em Pm]. unfold events, final in Em, Pm.
  destruct (m s) as [t [r s']]; cbn in *. auto.
Qed.

(** One step of a quietness proof: follow the shape of the computation. *)
Ltac quiet_step :=
  match goal with
  | |- Quiet _ (ret _) => apply Quiet_ret
  | |- Quiet _ get => apply Quiet_get
  | |- Quiet _ (panic _) => apply Quiet_panic
  | |- Quiet _ (call _ _) => apply Quiet_call; reflexivity
  | |- Quiet _ (emit _) => apply Quiet_emit; reflexivity
  | |- Quiet _ (bind _ _) => apply Quiet_bind; [|intros ?]
  | |- Quiet _ (defer _ _) => apply Quiet_defer
  | |- Quiet _ (by_value _) => apply Quiet_by_value
  | |- Quiet _ (forM_ _ _) => apply Quiet_forM_; intros ?
  | |- Quiet _ (on_fst _) => apply Quiet_on_fst
  | |- Quiet _ (match ?x with _ => _ end) => destruct x
  | |- Quiet _ (let '(_, _) := ?x in _) => destruct x
  | |- Quiet _ (let _ := _ in _) => cbn zeta
  end.

Lemma storePatch_quiet {S} (P : S -> Prop) (w : World) (patch : string) (exec : Executor) :
  Quiet P (storePatch w patch exec).
Proof. unfold storePatch, FileName. repeat quiet_step. Qed.

Lemma Setup_quiet {S} (P : S -> Prop) (w : World) (go2 : workspaces.Go2)
    (repo : fetchers.Repo) (parts : list string) :
  Quiet P (workspaces.Setup w go2 repo parts).
Proof. unfold workspaces.Setup. repeat quiet_step. Qed.

Lemma ready_add_warning (tag text : string) (g : G) : ready g -> ready (add_warning tag text g).
Proof. exact id. Qed.

Lemma ready_add_timing (name : string) (g : G) : ready g -> ready (add_timing name g).
Proof. exact id. Qed.

Lemma publicWarn_quiet (stage text : string) : Quiet ready (publicWarn stage text).
Proof. apply Quiet_modify. intros g. apply ready_add_warning. Qed.

Lemma addTimingFrom_quiet (name : string) : Quiet ready (addTimingFrom name).
Proof. apply Quiet_modify. intros g. apply ready_add_timing. Qed.

Lemma trackTiming_quiet {A} (name : string) (f : M G A) :
  Quiet ready f -> Quiet ready (trackTiming name f).
Proof.
  intros Hf. unfold trackTiming. repeat quiet_step; try exact Hf.
  apply Quiet_modify. intros g. apply ready_add_timing.
Qed.

Lemma buildSecrets_quiet (w : World) : Quiet ready (buildSecrets w).
Proof. unfold buildSecrets. repeat quiet_step. Qed.

Lemma prepareRepo_quiet (w : World) : Quiet ready (prepareRepo w).
Proof.
  unfold prepareRepo.
  repeat first
    [ apply buildSecrets_quiet
    | apply publicWarn_quiet
    | apply trackTiming_quiet
    | quiet_step ].
Qed.

Lemma Returns_ret {S A} (Q : A -> Prop) (a : A) : Q a -> Returns Q (@ret S A a).
Proof. intros H s. exact H. Qed.

Lemma Returns_panic {S A} (Q : A -> Prop) (v : string) : Returns Q (@panic S A v).
Proof. intros s. exact I. Qed.

Lemma Returns_bind {S A B} (R : A -> Prop) (Q : B -> Prop) (m : M S A) (f : A -> M S B) :
  Returns R m -> (forall a, R a -> Returns Q (f a)) -> Returns Q (bind m f).
Proof.
  intros Hm Hf s. rewrite bind_run. specialize (Hm s).
  destruct (returned (m s)) as [a|v]; cbn; [|exact I].
  apply (Hf a Hm).
Qed.

Lemma Returns_any {S A} (m : M S A) : Returns (fun _ => True) m.
Proof. intros s. now destruct (returned (m s)). Qed.

Lemma Returns_call {S A} (e : Event) (o : outcome A) :
  Returns (fun r => match r with inl a => o = Ok a | inr err => o = Err err end)
          (@call S A e o).
Proof. intros s. unfold call, returned. cbn. now destruct o. Qed.

Lemma Returns_on_fst {S L A} (Q : A -> Prop) (m : M S A) :
  Returns Q m -> Returns Q (@on_fst S L A m).
Proof.
  intros Hm [s l]. specialize (Hm s). unfold on_fst, returned in *. cbn [fst snd] in *.
  destruct (m s) as [t [r s']]; exact Hm.
Qed.

Lemma Returns_trackTiming {A} (Q : A -> Prop) (name : string) (f : M G A) :
  Returns Q f -> Returns Q (trackTiming name f).
Proof.
  intros Hf. unfold trackTiming.
  apply Returns_bind with (R := Q); [exact Hf|]. intros a Ha.
  apply Returns_bind with (R := fun _ => True); [apply Returns_any|]. intros _ _.
  apply Returns_ret, Ha.
Qed.

(** [prepareRepo] fails with an internal error only. *)
Lemma prepareRepo_returns (w : World) :
  Returns (fun e => e = None \/ exists pub priv, e = Some (InternalError pub priv))
          (prepareRepo w).
Proof.
  unfold prepareRepo.
  apply Returns_bind with (R := fun _ => True); [apply Returns_any|]. intros g _.
  destruct (newWorkspaceInstaller g).
  - apply Returns_bind with (R := fun _ => True); [apply Returns_any|]. intros _ _.
    apply Returns_ret. now left.
  - apply Returns_bind with (R := fun _ => True); [apply Returns_any|]. intros [u|err] _.
    + apply Returns_bind with (R := fun _ => True); [apply Returns_any|]. intros r _.
      apply Returns_bind with (R := fun _ => True); [apply Returns_any|]. intros _ _.
      apply Returns_ret. now left.
    + apply Returns_ret. right. eauto.
Qed.

Lemma work_body_returns (w : World) : Returns (work_result_ok w) (work_body w).
Proof.
  unfold work_body.
  apply Returns_bind with (R := fun _ => True); [apply Returns_any|]. intros g _.
  destruct (_ || _).
  - apply Returns_bind with (R := fun _ => True); [apply Returns_any|]. intros _ _.
    apply Returns_ret. split; cbn; [discriminate|]. intros _ d r. discriminate.
  - apply Returns_bind
      with (R := fun e => e = None \/ exists pub priv, e = Some (InternalError pub priv)).
    { apply Returns_on_fst, prepareRepo_returns. }
    intros e [->|(pub & priv & ->)].
    + apply Returns_bind with (R := fun _ => True); [apply Returns_any|]. intros g' _.
      apply Returns_bind
        with (R := fun r => match r with
                            | inl a => Lint w (exec g') = Ok a
                            | inr err => Lint w (exec g') = Err err
                            end).
      { apply Returns_on_fst, Returns_trackTiming, Returns_call. }
      intros [res|err] Hr.
      * apply Returns_bind with (R := fun _ => True); [apply Returns_any|]. intros _ _.
        apply Returns_bind with (R := fun _ => True); [apply Returns_any|]. intros [u|err] _.
        -- apply Returns_ret. split; cbn; [discriminate|]. intros _ d r. discriminate.
        -- apply Returns_ret. split; cbn; [discriminate|]. intros _ d r. discriminate.
      * apply Returns_ret. split; cbn; [discriminate|].
        intros Hn d r E. injection E as ->. exact (Hn _ _ _ Hr).
    + apply Returns_ret. split; cbn; [discriminate|]. intros _ d r. discriminate.
Qed.

Lemma work_body_quiet (w : World) :
  Quiet (fun sl : G * option lintres.Result => ready (fst sl)) (work_body w).
Proof.
  unfold work_body.
  repeat first
    [ apply Quiet_on_fst
    | apply prepareRepo_quiet
    | apply publicWarn_quiet
    | apply trackTiming_quiet
    | apply Quiet_modify; intros ? H; exact H
    | quiet_step ].
Qed.

(** [work] always returns: its deferred function recovers every panic. *)
Lemma work_spec (w : World) (g : G) :
  ready g ->
  exists tr res err g',
    work w g = (tr, (Ret (res, err), g')) /\
    Forall quiet tr /\ ready g' /\ work_result_ok w (res, err).
Proof.
  intros Hg. unfold work.
  pose proof (work_body_returns w (g, None)) as HR.
  destruct (work_body_quiet w (g, None) Hg) as [HE HP].
  unfold events, returned, final in *.
  destruct (work_body w (g, None)) as [t [[[res err]|v] [g' res']]]; cbn in *.
  - exists t, res, err, g'. repeat split; try assumption; apply HR.
  - exists t, res', (Some (panic_error w v)), g'.
    repeat split; try assumption; cbn; try discriminate.
Qed.

Lemma work_returns (w : World) (g : G) :
  exists tr x g', work w g = (tr, (Ret x, g')).
Proof.
  unfold work. destruct (work_body w (g, None)) as [t [[x|v] [g' res']]]; eauto.
Qed.

(** ** The two final writes *)

Lemma updateAnalysisState_run (w : World) (res : option lintres.Result)
    (status : Status) (publicError : string) (g : G) :
  let owner := Owner (ctxRepo (context g)) in
  let name := Name (ctxRepo (context g)) in
  let st := processed_state g res status publicError in
  updateAnalysisState w res status publicError g
  = ([EvUpdateState owner name (analysisGUID g) st],
     (match panicked (UpdateState w owner name (analysisGUID g) st) with
      | Some v => Panic v
      | None => Ret tt
      end, g)).
Proof.
  cbn zeta. unfold updateAnalysisState, by_value, bind, get, call, ret.
  destruct (UpdateState w _ _ _ _); reflexivity.
Qed.

Lemma setCommitStatus_run (w : World) (status : Status) (desc : string) (g : G) :
  let sha := PullRequest_GetHeadSHA (pr g) in
  let url := detailsURL w g status in
  setCommitStatus w status desc g
  = ([EvSetCommitStatus sha status desc url],
     (match panicked (SetCommitStatus w sha status desc url) with
      | Some v => Panic v
      | None => Ret tt
      end, g)).
Proof.
  cbn zeta. unfold setCommitStatus, by_value, bind, get, call, publicWarn, modify, ret.
  destruct (SetCommitStatus w _ _ _ _); reflexivity.
Qed.

Lemma buildSecrets_run (w : World) (g : G) :
  ready g -> exists secrets, buildSecrets w g = ([], (Ret secrets, g)).
Proof.
  intros Hg. unfold buildSecrets, by_value, bind, get, ret, panic.
  unfold ready in Hg.
  destruct (newWorkspaceInstaller g); cbn; [eauto|].
  destruct (gw g); cbn; [eauto|]. now destruct Hg.
Qed.

Lemma classify_run (w : World) (res : option lintres.Result) (err : option error) (g : G) :
  ready g -> (err = None -> res <> None) ->
  exists c, classify w res err g = ([], (Ret c, g)).
Proof.
  intros Hg Hres. unfold classify.
  destruct err as [[status desc [|]|pub priv|pub|msg]|]; try (unfold ret; eauto; fail).
  - destruct (Contains priv noGoFilesToAnalyzeErr); unfold ret; eauto.
  - destruct (buildSecrets_run w g Hg) as [secrets E].
    unfold bind, ret. rewrite E. cbn. eauto.
  - destruct res as [r|]; [|now destruct Hres].
    destruct (getGithubStatusForIssues (lintres.Issues r)). unfold ret. eauto.
Qed.

(** The finalization as one equation: the events of [work], the state
    record, and the commit status unless the state store panicked. *)
Lemma finalization_run (w : World) (g : G) :
  ready g ->
  exists tr res err g' status desc publicError err',
    work w g = (tr, (Ret (res, err), g')) /\
    Forall quiet tr /\ ready g' /\ work_result_ok w (res, err) /\
    classify w res err g' = ([], (Ret (status, desc, publicError, err'), g')) /\
    let owner := Owner (ctxRepo (context g')) in
    let name := Name (ctxRepo (context g')) in
    let st := processed_state g' res status publicError in
    let sha := PullRequest_GetHeadSHA (pr g') in
    let url := detailsURL w g' status in
    processWithGuaranteedGithubStatus w g
    = match panicked (UpdateState w owner name (analysisGUID g') st) with
      | Some v => (tr ++ [EvUpdateState owner name (analysisGUID g') st], (Panic v, g'))
      | None =>
          (tr ++ [EvUpdateState owner name (analysisGUID g') st;
                  EvSetCommitStatus sha status desc url],
           (match panicked (SetCommitStatus w sha status desc url) with
            | Some v => Panic v
            | None => Ret err'
            end, g'))
      end.
Proof.
  intros Hg.
  destruct (work_spec w g Hg) as (tr & res & err & g' & Ew & Hq & Hg' & Hok).
  destruct (classify_run w res err g' Hg' (proj1 Hok))
    as ([[[status desc] publicError] err'] & Ec).
  exists tr, res, err, g', status, desc, publicError, err'.
  repeat (split; [assumption|]).
  cbn zeta. unfold processWithGuaranteedGithubStatus.
  rewrite bind_run, Ew. cbn [returned events final fst snd].
  rewrite bind_run, Ec. cbn [returned events final fst snd].
  rewrite bind_run, updateAnalysisState_run. cbn [returned events final fst snd].
  destruct (panicked (UpdateState w _ _ _ _)); [reflexivity|].
  rewrite bind_run, setCommitStatus_run. cbn [returned events final fst snd].
  destruct (panicked (SetCommitStatus w _ _ _ _)); reflexivity.
Qed.

Lemma classify_not_pending (w : World) (res : option lintres.Result)
    (err : option error) (g g' : G) (tr : list Event)
    (status : Status) (desc publicError : string) (err' : option error) :
  classify w res err g = (tr, (Ret (status, desc, publicError, err'), g')) ->
  (forall d r, err <> Some (IgnoredError StatusPending d r)) ->
  status <> StatusPending.
Proof.
  unfold classify. intros E Hn.
  destruct err as [[st d r|pub priv|pub|msg]|].
  - unfold ret in E. injection E as _ <- _ _ _. intros ->. now apply (Hn d r).
  - destruct (Contains priv noGoFilesToAnalyzeErr); unfold ret in E;
      injection E as _ <- _ _ _; discriminate.
  - rewrite bind_run in E. destruct (returned (buildSecrets w g)); cbn in E; [|discriminate].
    injection E as _ <- _ _ _. discriminate.
  - unfold ret in E. injection E as _ <- _ _ _. discriminate.
  - destruct res as [r|]; [|discriminate].
    unfold getGithubStatusForIssues in E.
    destruct (length (lintres.Issues r)) as [|[|n]]; unfold ret in E;
      injection E as _ <- _ _ _; discriminate.
Qed.

Lemma report_setup_failure_run (w : World) (err : error) (g : G) :
  ready g ->
  exists secrets,
    buildSecrets w g = ([], (Ret secrets, g)) /\
    let publicError :=
      escapeErrorText w ("failed to setup workspace: " +:+ ErrorText w err) secrets in
    let owner := Owner (ctxRepo (context g)) in
    let name := Name (ctxRepo (context g)) in
    let st := processed_state g None StatusError publicError in
    let sha := PullRequest_GetHeadSHA (pr g) in
    let url := detailsURL w g StatusError in
    report_setup_failure w err g
    = match panicked (UpdateState w owner name (analysisGUID g) st) with
      | Some v => ([EvUpdateState owner name (analysisGUID g) st], (Panic v, g))
      | None =>
          ([EvUpdateState owner name (analysisGUID g) st;
            EvSetCommitStatus sha StatusError "failed to setup" url],
           (match panicked (SetCommitStatus w sha StatusError "failed to setup" url) with
            | Some v => Panic v
            | None => Ret tt
            end, g))
      end.
Proof.
  intros Hg. destruct (buildSecrets_run w g Hg) as [secrets E].
  exists secrets. split; [exact E|]. cbn zeta.
  unfold report_setup_failure.
  rewrite bind_run, E. cbn [returned events final fst snd].
  rewrite bind_run, updateAnalysisState_run. cbn [returned events final fst snd].
  destruct (panicked (UpdateState w _ _ _ _)); [reflexivity|].
  rewrite setCommitStatus_run. reflexivity.
Qed.

Lemma Outcome_prefix (w : World) (k : M G (option error)) (t tr : list Event)
    (r : result (option error)) :
  Forall quiet t -> Outcome w k tr r -> Outcome w k (t ++ tr) r.
Proof.
  intros Ht [tr' r' Hq Hr | pre err g1 post r' Hp Hq Hg | pre g1 post Hp Hq Hg].
  - apply out_early; [apply Forall_app; auto | exact Hr].
  - rewrite app_assoc. apply out_failed; auto. apply Forall_app; auto.
  - rewrite app_assoc. apply out_reached; auto. apply Forall_app; auto.
Qed.

Lemma Outcome_suffix (w : World) (k : M G (option error)) (t tr : list Event)
    (r : result (option error)) :
  Forall quiet t -> Outcome w k tr r -> Outcome w k (tr ++ t) r.
Proof.
  intros Ht [tr' r' Hq Hr | pre err g1 post r' Hp Hq Hg | pre g1 post Hp Hq Hg].
  - apply out_early; [apply Forall_app; auto | exact Hr].
  - rewrite <- !app_assoc. apply out_failed; auto. apply Forall_app; auto.
  - rewrite <- !app_assoc. apply out_reached; auto. apply Forall_app; auto.
Qed.

Section Shapes.

Variables (w : World) (k : M G (option error)).

Lemma Shape_finalize : Shape w k ready k.
Proof.
  intros s Hs.
  rewrite <- (app_nil_r (events (k s))).
  apply (out_reached w k [] s []); auto.
Qed.

Lemma Shape_early (P : G -> Prop) (e : error) : Shape w k P (ret (Some e)).
Proof. intros s _. apply out_early; [constructor | discriminate]. Qed.

Lemma Shape_bind {A} (P P' : G -> Prop) (m : M G A) (f : A -> M G (option error)) :
  (forall s, P s -> Forall quiet (events (m s)) /\ P' (final (m s))) ->
  (forall a, Shape w k P' (f a)) ->
  Shape w k P (bind m f).
Proof.
  intros Hm Hf s Hs. rewrite bind_run.
  destruct (Hm s Hs) as [Em Pm].
  destruct (returned (m s)) as [a|v]; cbn [events returned fst snd].
  - apply Outcome_prefix; [exact Em|]. apply (Hf a _ Pm).
  - apply out_early; [exact Em | discriminate].
Qed.

Lemma Shape_get (P : G -> Prop) (f : G -> M G (option error)) :
  (forall g, Shape w k (fun s => s = g /\ P s) (f g)) -> Shape w k P (bind get f).
Proof.
  intros Hf s Hs. rewrite bind_run. cbn [get events returned final fst snd app].
  apply (Hf s s). auto.
Qed.

Lemma Shape_defer_emit (P : G -> Prop) (e : Event) (body : M G (option error)) :
  quiet e -> Shape w k P body -> Shape w k P (defer (emit e) body).
Proof.
  intros He Hb s Hs. rewrite defer_run. cbn [emit events returned final fst snd].
  apply Outcome_suffix; [repeat constructor; exact He | apply (Hb s Hs)].
Qed.

Lemma Shape_by_value (P : G -> Prop) (m : M G (option error)) :
  Shape w k P m -> Shape w k P (by_value m).
Proof. intros Hm s Hs. rewrite by_value_run. apply (Hm s Hs). Qed.

Lemma Shape_failed (P : G -> Prop) (err : error) (r : option error) :
  (forall s, P s -> ready s) ->
  Shape w k P (bind (report_setup_failure w err) (fun _ => ret r)).
Proof.
  intros HP s Hs. rewrite bind_run.
  destruct (returned (report_setup_failure w err s));
    cbn [ret events returned final fst snd].
  - apply (out_failed w k [] err s []); auto.
  - rewrite <- (app_nil_r (events _)).
    apply (out_failed w k [] err s []); auto.
Qed.

Lemma Shape_weaken (P P' : G -> Prop) (m : M G (option error)) :
  (forall s, P s -> P' s) -> Shape w k P' m -> Shape w k P m.
Proof. intros HP Hm s Hs. apply Hm, HP, Hs. Qed.

End Shapes.

Lemma ready_with_installer (g : G) (i : workspaces.Go2) :
  newWorkspaceInstaller g = Some i -> ready g.
Proof. unfold ready. intros ->. discriminate. Qed.

Lemma refresh_queue_timing_quiet (w : World) (owner name guid : string)
    (r : prstate.State + error) :
  Quiet ready
    (match r with
     | inr _ => ret tt
     | inl curState =>
         if String.eqb (prstate.Status curState) statusSentToQueue then
           addTimingFrom "In Queue" ;;;
           let curState := prstate.with_Status curState statusProcessing in
           _ <- call (EvUpdateState owner name guid curState)
                     (UpdateState w owner name guid curState) ;;
           ret tt
         else ret tt
     end).
Proof. repeat first [apply addTimingFrom_quiet | quiet_step]. Qed.

Lemma Process_after_setup_shape (w : World) (k : M G (option error)) :
  Shape w k ready (Process_after_setup w k).
Proof.
  unfold Process_after_setup.
  apply Shape_get; intros g.
  apply Shape_bind with (P' := ready).
  { intros s [_ Hs]. split; [repeat constructor | exact Hs]. }
  intros [patch|err].
  - apply Shape_bind with (P' := ready);
      [exact (storePatch_quiet ready w patch (exec g))|].
    intros [err|]; [apply Shape_early|].
    cbn zeta.
    apply Shape_bind with (P' := ready).
    { intros s Hs. split; [repeat constructor | exact Hs]. }
    intros r.
    apply Shape_bind with (P' := ready);
      [exact (refresh_queue_timing_quiet w _ _ _ r)|].
    intros _. apply Shape_finalize.
  - destruct (negb _); apply Shape_early.
Qed.

Lemma Process_then_shape (w : World) (k : M G (option error)) :
  Shape w k (fun _ => True) (Process_then w k).
Proof.
  unfold Process_then.
  apply Shape_by_value, Shape_get; intros g0.
  apply Shape_defer_emit; [reflexivity|].
  apply Shape_bind with (P' := fun _ => True).
  { intros s _. split; [repeat constructor | exact I]. }
  intros [p|err]; [|destruct (negb _); apply Shape_early].
  apply Shape_bind with (P' := fun _ => True).
  { intros s _. split; [constructor | exact I]. }
  intros _.
  apply Shape_bind with (P' := fun _ => True).
  { intros s _. rewrite setCommitStatus_events. split; [repeat constructor | exact I]. }
  intros _.
  apply Shape_get; intros g. cbn zeta.
  destruct (newWorkspaceInstaller g) as [installer|] eqn:Ei.
  - apply Shape_bind with (P' := fun s => s = g).
    { intros s [-> _]. apply (Setup_quiet (fun s => s = g)). reflexivity. }
    intros [[exec' resLog']|err].
    + apply Shape_bind with (P' := ready).
      { intros s ->. split; [constructor|]. apply (ready_with_installer _ installer), Ei. }
      intros _.
      apply Shape_bind with (P' := ready).
      { intros s Hs. split; [constructor | exact Hs]. }
      intros _.
      apply Shape_bind with (P' := ready); [exact (addTimingFrom_quiet "Prepare")|].
      intros _. apply Process_after_setup_shape.
    + apply Shape_failed. intros s ->. apply (ready_with_installer _ installer), Ei.
  - apply Shape_bind with (P' := ready).
    { intros s _. split; [constructor|]. unfold ready. cbn. discriminate. }
    intros _.
    apply Shape_bind with (P' := ready).
    { intros s Hs. split; [repeat constructor | exact Hs]. }
    intros [u|err].
    + apply Shape_defer_emit; [reflexivity|].
      apply Shape_bind with (P' := ready).
      { intros s Hs. split; [constructor | exact Hs]. }
      intros _. apply Process_after_setup_shape.
    + apply Shape_failed. auto.
Qed.

Lemma app_shuffle {A} (pre tr x post : list A) :
  pre ++ (tr ++ x) ++ post = (pre ++ tr) ++ x ++ post.
Proof. now rewrite <- !app_assoc. Qed.

(** The trace of [Process] is a stretch without terminal writes, then what
    was reached of the two final writes, then the deferred clean-up. *)
Lemma Process_trace_split (w : World) (g : G) :
  exists before writes after,
    events (Process w g) = before ++ writes ++ after /\
    Forall quiet before /\ Forall quiet after /\ final_writes writes /\
    (writes = [] -> returned (Process w g) <> Ret None) /\
    (writes_return w -> length writes <> 1) /\
    (no_pending_outcome w ->
     forall owner name guid st sha status desc url,
       writes = [EvUpdateState owner name guid st; EvSetCommitStatus sha status desc url] ->
       status <> StatusPending).
Proof.
  unfold Process.
  destruct (Process_then_shape w (processWithGuaranteedGithubStatus w) g I)
    as [tr r Hq Hr | pre err g1 post r Hp Hq Hg | pre g1 post Hp Hq Hg].
  - exists tr, [], []. rewrite app_nil_r.
    repeat split; auto; try constructor; cbn; try discriminate.
  - destruct (report_setup_failure_run w err g1 Hg) as (secrets & _ & E).
    cbn zeta in E. rewrite E.
    destruct (panicked (UpdateState w _ _ _ _)) eqn:EU; cbn [events fst].
    + eexists pre, _, post. split; [reflexivity|].
      repeat split; auto; try discriminate.
      * eapply final_state. reflexivity.
      * intros [_ HU].
        destruct (UpdateState w _ _ _ _) eqn:EU'; try discriminate.
        now destruct (HU _ _ _ _ _ EU').
    + eexists pre, _, post. split; [reflexivity|].
      repeat split; auto; try discriminate.
      * eapply final_both. reflexivity.
      * intros _ * E'. injection E' as _ _ _ _ _ <- _ _. discriminate.
  - destruct (finalization_run w g1 Hg)
      as (tr & res & err & g' & status & desc & pe & err' & Ew & Hqw & Hg' & Hok & Ec & E).
    cbn zeta in E. rewrite E.
    destruct (panicked (UpdateState w _ _ _ _)) eqn:EU; cbn [events returned fst snd].
    + rewrite app_shuffle. eexists (pre ++ tr), _, post. split; [reflexivity|].
      repeat split; auto; try discriminate.
      * apply Forall_app; auto.
      * eapply final_state. reflexivity.
      * intros [_ HU].
        destruct (UpdateState w _ _ _ _) eqn:EU'; try discriminate.
        now destruct (HU _ _ _ _ _ EU').
    + rewrite app_shuffle. eexists (pre ++ tr), _, post. split; [reflexivity|].
      repeat split; auto; try discriminate.
      * apply Forall_app; auto.
      * eapply final_both. reflexivity.
      * intros Hn * E'. injection E' as _ _ _ _ _ <- _ _.
        eapply classify_not_pending; [exact Ec|]. apply Hok, Hn.
Qed.

(** ** Counting and ordering the terminal writes *)

Lemma terminal_states_app (a b : list Event) :
  terminal_states (a ++ b) = terminal_states a ++ terminal_states b.
Proof.
  induction a as [|e a IH]; [reflexivity|].
  destruct e; cbn [app terminal_states]; try exact IH.
  destruct (terminal_state st); cbn [app]; now rewrite IH.
Qed.

Lemma terminal_statuses_app (a b : list Event) :
  terminal_statuses (a ++ b) = terminal_statuses a ++ terminal_statuses b.
Proof.
  induction a as [|e a IH]; [reflexivity|].
  destruct e; cbn [app terminal_statuses]; try exact IH.
  destruct (terminal_status status); cbn [app]; now rewrite IH.
Qed.

Lemma quiet_terminal_states (tr : list Event) :
  Forall quiet tr -> terminal_states tr = [].
Proof.
  induction 1 as [|e tr He _ IH]; [reflexivity|].
  unfold quiet in He. destruct e; cbn [terminal_states is_terminal] in *; try exact IH.
  now rewrite He.
Qed.

Lemma quiet_terminal_statuses (tr : list Event) :
  Forall quiet tr -> terminal_statuses tr = [].
Proof.
  induction 1 as [|e tr He _ IH]; [reflexivity|].
  unfold quiet in He. destruct e; cbn [terminal_statuses is_terminal] in *; try exact IH.
  now rewrite He.
Qed.

Lemma terminal_state_processed (st : prstate.State) (status : Status) :
  prstate.Status st = "processed/" +:+ Status_string status -> terminal_state st = true.
Proof. unfold terminal_state. intros ->. apply prefix_app. Qed.

Lemma terminal_status_not_pending (status : Status) :
  status <> StatusPending -> terminal_status status = true.
Proof. destruct status; intros H; [now destruct H | reflexivity..]. Qed.

(** The terminal writes of a trace that splits around the final writes. *)
Lemma terminal_writes_of_split (before writes after : list Event) :
  Forall quiet before -> Forall quiet after ->
  terminal_states (before ++ writes ++ after) = terminal_states writes /\
  terminal_statuses (before ++ writes ++ after) = terminal_statuses writes.
Proof.
  intros Hb Ha.
  rewrite !terminal_states_app, !terminal_statuses_app.
  rewrite (quiet_terminal_states _ Hb), (quiet_terminal_states _ Ha).
  rewrite (quiet_terminal_statuses _ Hb), (quiet_terminal_statuses _ Ha).
  now rewrite !app_nil_r.
Qed.

(** A write that is not quiet lies beyond a quiet stretch. *)
Lemma loud_after_quiet (e : Event) (a rest pre post : list Event) :
  Forall quiet a -> ~ quiet e -> a ++ rest = pre ++ e :: post ->
  exists mid, pre = a ++ mid /\ rest = mid ++ e :: post.
Proof.
  intros Ha He. revert pre.
  induction Ha as [|x a Hx Ha IH]; intros pre E; cbn [app] in E.
  - exists pre. auto.
  - destruct pre as [|y pre]; cbn [app] in E; injection E as -> E.
    + now destruct He.
    + destruct (IH _ E) as (mid & -> & ->). exists mid. auto.
Qed.

Lemma loud_not_in_quiet (e : Event) (b mid post : list Event) :
  Forall quiet b -> ~ quiet e -> b <> mid ++ e :: post.
Proof.
  intros Hb He ->. apply Forall_app in Hb as [_ Hb].
  apply Forall_cons_iff in Hb as [Hq _]. exact (He Hq).
Qed.

(** C4. In every run of [Process], each terminal commit status is set
    right after a state record [processed/<that status>] has been written:
    in finalization and when provisioning fails, [UpdateState] comes
    before [SetCommitStatus]. *)
Theorem state_written_before_status (w : World) (g : G) (pre post : list Event)
    (sha : string) (status : Status) (desc url : string) :
  events (Process w g) = pre ++ EvSetCommitStatus sha status desc url :: post ->
  status <> StatusPending ->
  exists pre' owner name guid st,
    pre = pre' ++ [EvUpdateState owner name guid st] /\
    prstate.Status st = "processed/" +:+ Status_string status.
Proof.
  intros E Hs.
  assert (Hloud : ~ quiet (EvSetCommitStatus sha status desc url)).
  { unfold quiet. cbn. now rewrite terminal_status_not_pending. }
  destruct (Process_trace_split w g) as (a & f & b & Ef & Ha & Hb & Hf & _).
  rewrite Ef in E.
  destruct (loud_after_quiet _ _ _ _ _ Ha Hloud E) as (mid & -> & Em).
  destruct Hf as [|o n guid st status' Hst|o n guid st sha' status' desc' url' Hst];
    cbn [app] in Em.
  - now destruct (loud_not_in_quiet _ _ _ _ Hb Hloud Em).
  - destruct mid as [|x mid]; cbn [app] in Em; [discriminate|].
    injection Em as _ Em. now destruct (loud_not_in_quiet _ _ _ _ Hb Hloud Em).
  - destruct mid as [|x [|y mid]]; cbn [app] in Em; [discriminate| |].
    + injection Em as <- _ <- _ _ _. eauto 10.
    + injection Em as _ _ Em. now destruct (loud_not_in_quiet _ _ _ _ Hb Hloud Em).
Qed.

Lemma state_written_before_status_witness :
  let tr := events (Process world_two_issues job_builder) in
  tr = take 14 tr
       ++ EvSetCommitStatus "abc123" StatusFailure "2 issues found"
                            "https://golangci.com/r/github.com/owner/name/pulls/7"
          :: drop 15 tr /\
  StatusFailure <> StatusPending /\
  exists pre' owner name guid st,
    take 14 tr = pre' ++ [EvUpdateState owner name guid st] /\
    prstate.Status st = "processed/failure".
Proof.
  cbn zeta. split; [vm_compute; reflexivity|]. split; [discriminate|].
  apply (state_written_before_status world_two_issues job_builder
           (take 14 (events (Process world_two_issues job_builder)))
           (drop 15 (events (Process world_two_issues job_builder)))
           "abc123" StatusFailure "2 issues found"
           "https://golangci.com/r/github.com/owner/name/pulls/7").
  - vm_compute; reflexivity.
  - discriminate.
Defined.

Lemma final_writes_both (writes : list Event) :
  final_writes writes -> writes <> [] -> length writes <> 1 ->
  (forall owner name guid st sha status desc url,
      writes = [EvUpdateState owner name guid st; EvSetCommitStatus sha status desc url] ->
      status <> StatusPending) ->
  exists st status desc url,
    terminal_states writes = [st] /\
    prstate.Status st = "processed/" +:+ Status_string status /\
    terminal_statuses writes = [(status, desc, url)].
Proof.
  intros [|o n guid st status Hst|o n guid st sha status desc url Hst] Hne Hlen Hp.
  - now destruct Hne.
  - now destruct Hlen.
  - exists st, status, desc, url. cbn [terminal_states terminal_statuses].
    rewrite (terminal_state_processed st status Hst).
    rewrite (terminal_status_not_pending status (Hp _ _ _ _ _ _ _ _ eq_refl)).
    auto.
Qed.

(** What finalization writes, whatever [work] ran into. *)
Lemma finalization_writes_once (w : World) (g1 : G) :
  writes_return w -> no_pending_outcome w -> ready g1 ->
  exists tr st sha status desc url r g',
    processWithGuaranteedGithubStatus w g1
    = (tr ++ [EvUpdateState (Owner (ctxRepo (context g'))) (Name (ctxRepo (context g')))
                            (analysisGUID g') st;
              EvSetCommitStatus sha status desc url], (Ret r, g')) /\
    Forall quiet tr /\
    prstate.Status st = "processed/" +:+ Status_string status /\
    status <> StatusPending.
Proof.
  intros [HS HU] Hn Hg.
  destruct (finalization_run w g1 Hg)
    as (tr & res & err & g' & status & desc & pe & err' & Ew & Hq & Hg' & Hok & Ec & E).
  cbn zeta in E.
  exists tr, (processed_state g' res status pe), (PullRequest_GetHeadSHA (pr g')),
         status, desc, (detailsURL w g' status), err', g'.
  split; [|split; [exact Hq|split; [reflexivity|]]].
  - rewrite E.
    destruct (UpdateState w _ _ _ _) eqn:EU; cbn [panicked];
      try (now destruct (HU _ _ _ _ _ EU));
      destruct (SetCommitStatus w _ _ _ _) eqn:ES; cbn [panicked];
      try (now destruct (HS _ _ _ _ _ ES)); reflexivity.
  - eapply classify_not_pending; [exact Ec|]. apply Hok, Hn.
Qed.

(** C1, as the code has it.  When the state store and the status endpoint
    answer, and no ignored error carries the pending status, a run of
    [Process] writes either no terminal state record and no terminal commit
    status, and then it does not return nil, or exactly one terminal state
    record [processed/<status>] and exactly one terminal commit status, of
    that same status.  Once [processWithGuaranteedGithubStatus] is entered
    it makes exactly these two writes and returns, whichever stage of
    [work] fails or panics; so a job that reaches it ends with exactly one
    of each. *)
Theorem terminal_writes_of_a_job (w : World) (g : G) :
  writes_return w -> no_pending_outcome w ->
  ((terminal_states (events (Process w g)) = [] /\
    terminal_statuses (events (Process w g)) = [] /\
    returned (Process w g) <> Ret None) \/
   (exists st status desc url,
       terminal_states (events (Process w g)) = [st] /\
       prstate.Status st = "processed/" +:+ Status_string status /\
       terminal_statuses (events (Process w g)) = [(status, desc, url)])) /\
  (forall g1, ready g1 ->
     exists tr st status desc url r g',
       events (processWithGuaranteedGithubStatus w g1) = tr /\
       returned (processWithGuaranteedGithubStatus w g1) = Ret r /\
       final (processWithGuaranteedGithubStatus w g1) = g' /\
       terminal_states tr = [st] /\
       prstate.Status st = "processed/" +:+ Status_string status /\
       terminal_statuses tr = [(status, desc, url)]) /\
  (forall pre g1 post, reaches_finalization w g pre g1 post -> ready g1 ->
     exists st status desc url,
       terminal_states (events (Process w g)) = [st] /\
       prstate.Status st = "processed/" +:+ Status_string status /\
       terminal_statuses (events (Process w g)) = [(status, desc, url)]).
Proof.
  intros Hw Hn.
  assert (Hfin : forall g1, ready g1 ->
     exists tr st status desc url r g',
       events (processWithGuaranteedGithubStatus w g1) = tr /\
       returned (processWithGuaranteedGithubStatus w g1) = Ret r /\
       final (processWithGuaranteedGithubStatus w g1) = g' /\
       terminal_states tr = [st] /\
       prstate.Status st = "processed/" +:+ Status_string status /\
       terminal_statuses tr = [(status, desc, url)]).
  { intros g1 Hg.
    destruct (finalization_writes_once w g1 Hw Hn Hg)
      as (tr & st & sha & status & desc & url & r & g' & E & Hq & Hst & Hp).
    exists (events (processWithGuaranteedGithubStatus w g1)), st, status, desc, url, r, g'.
    rewrite E. cbn [events returned final fst snd].
    repeat (split; [reflexivity|]).
    rewrite terminal_states_app, terminal_statuses_app.
    rewrite (quiet_terminal_states _ Hq), (quiet_terminal_statuses _ Hq).
    cbn [app terminal_states terminal_statuses].
    rewrite (terminal_state_processed st status Hst).
    rewrite (terminal_status_not_pending status Hp). auto. }
  assert (Hdich :
    (terminal_states (events (Process w g)) = [] /\
     terminal_statuses (events (Process w g)) = [] /\
     returned (Process w g) <> Ret None) \/
    (exists st status desc url,
        terminal_states (events (Process w g)) = [st] /\
        prstate.Status st = "processed/" +:+ Status_string status /\
        terminal_statuses (events (Process w g)) = [(status, desc, url)])).
  { destruct (Process_trace_split w g)
      as (a & f & b & Ef & Ha & Hb & Hf & Hnil & Hlen & Hpend).
    destruct (terminal_writes_of_split a f b Ha Hb) as [Es Et].
    rewrite Ef, Es, Et.
    destruct f as [|e f].
    - left. repeat split; auto.
    - right.
      apply final_writes_both;
        [exact Hf | discriminate | exact (Hlen Hw) | exact (Hpend Hn)]. }
  split; [exact Hdich|]. split; [exact Hfin|].
  intros pre g1 post Hreach Hg.
  destruct Hdich as [(Es & Et & _)|H]; [|exact H].
  destruct (Hfin g1 Hg) as (tr & st & status & desc & url & r & g' & <- & _ & _ & Hs & _).
  destruct (Hreach (processWithGuaranteedGithubStatus w)) as [Ev _].
  fold (Process w g) in Ev. rewrite Ev, !terminal_states_app, Hs in Es.
  now destruct (terminal_states pre).
Qed.

(** In a world where stages 1 to 6 succeed, the builder job gets to its
    last statement, whatever the linter runner will answer. *)
Lemma nominal_reaches (lint : outcome lintres.Result) :
  reaches_finalization (nominal pr_open lint) job_builder
    (take 11 (events (Process world_clean job_builder)))
    nominal_state
    [EvClean exec0].
Proof.
  intros finalize.
  unfold events, returned.
  vm_compute.
  match goal with |- context [finalize ?g] => destruct (finalize g) as [t [r s]] end.
  split; reflexivity.
Qed.

Lemma nominal_state_ready : ready nominal_state.
Proof. unfold ready. discriminate. Qed.

Lemma nominal_writes_return (p : PullRequest) (lint : outcome lintres.Result) :
  writes_return (nominal p lint).
Proof. split; intros; discriminate. Qed.

Lemma terminal_writes_of_a_job_witness :
  writes_return world_two_issues /\ no_pending_outcome world_two_issues /\
  ready nominal_state /\
  exists st status desc url,
    terminal_states (events (Process world_two_issues job_builder)) = [st] /\
    prstate.Status st = "processed/" +:+ Status_string status /\
    terminal_statuses (events (Process world_two_issues job_builder)) = [(status, desc, url)].
Proof.
  assert (Hw : writes_return world_two_issues) by apply nominal_writes_return.
  assert (Hn : no_pending_outcome world_two_issues) by (intros e d r; discriminate).
  repeat (split; [first [exact Hw | exact Hn | exact nominal_state_ready]|]).
  destruct (terminal_writes_of_a_job world_two_issues job_builder Hw Hn) as (_ & _ & H).
  exact (H _ _ _ (nominal_reaches _) nominal_state_ready).
Defined.

(** C1 as the claim states it fails: a job whose pull request cannot be
    fetched goes through [Process] without any terminal write. *)
Lemma job_without_terminal_writes :
  returned (Process world_pr_unreachable job_builder)
  = Ret (Some (ErrorString "can't get pull request: connection reset")) /\
  terminal_states (events (Process world_pr_unreachable job_builder)) = [] /\
  terminal_statuses (events (Process world_pr_unreachable job_builder)) = [] /\
  length (terminal_states (events (Process world_pr_unreachable job_builder))) <> 1.
Proof. vm_compute. repeat split. discriminate. Qed.

(** ** The downgrade of "no go files" errors *)

(** C6. When [work] returns an internal error whose private description
    contains "no go files to analyze", finalization writes the state
    [processed/success] and sets the commit status success with the
    description "No Go files to analyze", and returns nil; a run of
    [Process] that got to finalization returns that nil. *)
Theorem no_go_files_downgraded (w : World) (g g' : G) (tr : list Event)
    (res : option lintres.Result) (pub priv : string) :
  work w g = (tr, (Ret (res, Some (InternalError pub priv)), g')) ->
  Contains priv "no go files to analyze" = true ->
  writes_return w ->
  let st := processed_state g' res StatusSuccess "No Go files to analyze" in
  let final_events :=
    tr ++ [EvUpdateState (Owner (ctxRepo (context g'))) (Name (ctxRepo (context g')))
                         (analysisGUID g') st;
           EvSetCommitStatus (PullRequest_GetHeadSHA (pr g')) StatusSuccess
                             "No Go files to analyze" (detailsURL w g' StatusSuccess)] in
  processWithGuaranteedGithubStatus w g = (final_events, (Ret None, g')) /\
  prstate.Status st = "processed/success" /\
  (forall g0 pre post, reaches_finalization w g0 pre g post ->
     returned (Process w g0) = Ret None /\
     events (Process w g0) = pre ++ final_events ++ post).
Proof.
  intros Ew Hc [HS HU]. cbn zeta.
  assert (E : processWithGuaranteedGithubStatus w g
              = (tr ++ [EvUpdateState (Owner (ctxRepo (context g')))
                          (Name (ctxRepo (context g'))) (analysisGUID g')
                          (processed_state g' res StatusSuccess "No Go files to analyze");
                        EvSetCommitStatus (PullRequest_GetHeadSHA (pr g')) StatusSuccess
                          "No Go files to analyze" (detailsURL w g' StatusSuccess)],
                 (Ret None, g'))).
  { unfold processWithGuaranteedGithubStatus.
    rewrite bind_run, Ew. cbn [returned events final fst snd].
    unfold classify. change noGoFilesToAnalyzeErr with "no go files to analyze".
    rewrite Hc.
    rewrite bind_run. cbn [ret returned events final fst snd].
    rewrite bind_run, updateAnalysisState_run. cbn [returned events final fst snd].
    destruct (UpdateState w _ _ _ _) eqn:EU; cbn [panicked];
      try (now destruct (HU _ _ _ _ _ EU));
      rewrite bind_run, setCommitStatus_run; cbn [returned events final fst snd];
      destruct (SetCommitStatus w _ _ _ _) eqn:ES; cbn [panicked];
      try (now destruct (HS _ _ _ _ _ ES)); reflexivity. }
  split; [exact E|]. split; [reflexivity|].
  intros g0 pre post Hreach.
  destruct (Hreach (processWithGuaranteedGithubStatus w)) as [Ev Er].
  fold (Process w g0) in Ev, Er. rewrite Ev, Er, E. auto.
Qed.

Lemma no_go_files_downgraded_witness :
  Contains "build failed: no go files to analyze" "no go files to analyze" = true /\
  writes_return world_no_go_files /\
  returned (Process world_no_go_files job_builder) = Ret None /\
  terminal_statuses (events (Process world_no_go_files job_builder))
  = [(StatusSuccess, "No Go files to analyze",
      "https://golangci.com/r/github.com/owner/name/pulls/7")].
Proof.
  split; [reflexivity|]. split; [apply nominal_writes_return|].
  destruct (no_go_files_downgraded world_no_go_files nominal_state
              (add_timing "Analysis" nominal_state)
              [EvLint (exec nominal_state)] None
              "can't run linters" "build failed: no go files to analyze")
    as (_ & _ & H).
  - vm_compute. reflexivity.
  - reflexivity.
  - apply nominal_writes_return.
  - destruct (H job_builder _ _ (nominal_reaches _)) as [Er Ev].
    split; [exact Er|]. rewrite Ev. vm_compute. reflexivity.
Defined.

(** ** A failed provisioning *)

Lemma writes_return_status (w : World) (sha : string) (status : Status) (desc url : string) :
  writes_return w -> panicked (SetCommitStatus w sha status desc url) = None.
Proof.
  intros [HS _]. destruct (SetCommitStatus w sha status desc url) eqn:E; try reflexivity.
  now destruct (HS _ _ _ _ _ E).
Qed.

Lemma writes_return_state (w : World) (owner name guid : string) (st : prstate.State) :
  writes_return w -> panicked (UpdateState w owner name guid st) = None.
Proof.
  intros [_ HU]. destruct (UpdateState w owner name guid st) eqn:E; try reflexivity.
  now destruct (HU _ _ _ _ _ E).
Qed.

Lemma Setup_final {S} (w : World) (go2 : workspaces.Go2) (repo : fetchers.Repo)
    (parts : list string) (s : S) :
  final (workspaces.Setup w go2 repo parts s) = s.
Proof. now apply (Setup_quiet (fun s' => s' = s) w go2 repo parts s). Qed.

Lemma provisioning_failure_run (w : World) (g : G) (p : PullRequest) (err : error) :
  GetPullRequest w (context g) = Ok p ->
  writes_return w ->
  provisioning_fails w g p err ->
  let g2 := state_at_provisioning g p in
  exists secrets setup_events,
    returned (buildSecrets w g2) = Ret secrets /\
    Forall quiet setup_events /\
    let publicError :=
      escapeErrorText w ("failed to setup workspace: " +:+ ErrorText w err) secrets in
    Process w g
    = ([EvGetPullRequest (context g);
        EvSetCommitStatus (prHeadSHA p) StatusPending
                          "GolangCI is reviewing your Pull Request..." ""]
       ++ setup_events
       ++ [EvUpdateState (Owner (ctxRepo (context g))) (Name (ctxRepo (context g)))
                         (analysisGUID g)
                         (processed_state g2 None StatusError publicError);
           EvSetCommitStatus (prHeadSHA p) StatusError "failed to setup"
                             (detailsURL w g2 StatusError);
           EvClean (exec g)],
       (Ret (match newWorkspaceInstaller g with
             | Some _ => None
             | None => Some (ErrorString ("can't setup go workspace: " +:+ ErrorText w err))
             end), g)).
Proof.
  intros Hpr Hw Hfail. cbn zeta.
  unfold provisioning_fails, state_at_provisioning in *.
  unfold Process, Process_then.
  rewrite by_value_run, bind_run. cbn [get returned events final fst snd app].
  rewrite defer_run, bind_run. cbn [call emit returned events final fst snd].
  rewrite Hpr. cbn [app].
  rewrite bind_run. cbn [modify returned events final fst snd app].
  rewrite bind_run, setCommitStatus_run, writes_return_status by exact Hw.
  cbn [returned events final fst snd app].
  rewrite bind_run. cbn [get returned events final fst snd app].
  cbn zeta.
  cbn [set_pr set_gw newWorkspaceInstaller context analysisGUID pr exec gw
       PullRequest_GetHeadSHA].
  destruct (newWorkspaceInstaller g) as [installer|] eqn:Ei.
  - assert (Hg2 : ready (set_pr (Some p) g))
      by (apply (ready_with_installer _ installer); exact Ei).
    destruct (report_setup_failure_run w err _ Hg2) as (secrets & Es & Er).
    cbn zeta in Er.
    rewrite !writes_return_state, !writes_return_status in Er by exact Hw.
    cbn [set_pr set_gw newWorkspaceInstaller context analysisGUID pr exec gw
         PullRequest_GetHeadSHA] in Er.
    exists secrets, (events (workspaces.Setup w installer (getRepo w (set_pr (Some p) g))
                               ["github.com"; Owner (ctxRepo (context g));
                                Name (ctxRepo (context g))] (set_pr (Some p) g))).
    split; [now rewrite Es|].
    split; [apply (Setup_quiet (fun _ => True)); exact I|].
    rewrite bind_run, Hfail. cbn [returned events final fst snd].
    rewrite Setup_final, bind_run, Er. cbn [ret returned events final fst snd detailsURL].
    rewrite <- !app_assoc. reflexivity.
  - assert (Hg2 : ready (set_gw (Some (workspaces.NewGo (exec g))) (set_pr (Some p) g)))
      by (unfold ready; cbn; discriminate).
    destruct (report_setup_failure_run w err _ Hg2) as (secrets & Es & Er).
    cbn zeta in Er.
    rewrite !writes_return_state, !writes_return_status in Er by exact Hw.
    cbn [set_pr set_gw newWorkspaceInstaller context analysisGUID pr exec gw
         PullRequest_GetHeadSHA] in Er.
    exists secrets, [EvGoSetup (getRepo w (set_pr (Some p) g))].
    split; [now rewrite Es|].
    split; [repeat constructor|].
    rewrite bind_run. cbn [modify returned events final fst snd app].
    rewrite bind_run. cbn [call returned events final fst snd app].
    rewrite Hfail.
    rewrite bind_run, Er. cbn [ret returned events final fst snd detailsURL app].
    reflexivity.
Qed.

(** C2, as the code has it.  When workspace provisioning fails, [Process]
    writes one terminal state record [processed/error] whose public error
    is the redacted text "failed to setup workspace: <error>", then sets
    the commit status error "failed to setup"; with the external-builder
    installer configured it returns nil, so that the queue does not
    retry. *)
Theorem provisioning_failure_reported (w : World) (g : G) (p : PullRequest) (err : error) :
  GetPullRequest w (context g) = Ok p ->
  writes_return w ->
  provisioning_fails w g p err ->
  let g2 := state_at_provisioning g p in
  exists secrets st url,
    returned (buildSecrets w g2) = Ret secrets /\
    terminal_states (events (Process w g)) = [st] /\
    prstate.Status st = "processed/error" /\
    public_error st
    = escapeErrorText w ("failed to setup workspace: " +:+ ErrorText w err) secrets /\
    terminal_statuses (events (Process w g)) = [(StatusError, "failed to setup", url)] /\
    (newWorkspaceInstaller g <> None -> returned (Process w g) = Ret None).
Proof.
  intros Hpr Hw Hfail. cbn zeta.
  destruct (provisioning_failure_run w g p err Hpr Hw Hfail)
    as (secrets & setup_events & Es & Hq & E).
  cbn zeta in E.
  exists secrets, (processed_state (state_at_provisioning g p) None StatusError
                     (escapeErrorText w ("failed to setup workspace: " +:+ ErrorText w err)
                                      secrets)),
         (detailsURL w (state_at_provisioning g p) StatusError).
  rewrite E. cbn [events returned fst snd].
  rewrite !terminal_states_app, !terminal_statuses_app.
  rewrite (quiet_terminal_states _ Hq), (quiet_terminal_statuses _ Hq).
  repeat split; try reflexivity; try exact Es.
  intros Hi. destruct (newWorkspaceInstaller g); [reflexivity | now destruct Hi].
Qed.

Lemma provisioning_failure_reported_witness :
  GetPullRequest world_setup_fails (context job_builder) = Ok pr_open /\
  writes_return world_setup_fails /\
  provisioning_fails world_setup_fails job_builder pr_open
                     (ErrorString "failed to fetch repo: no space left") /\
  newWorkspaceInstaller job_builder <> None /\
  returned (Process world_setup_fails job_builder) = Ret None.
Proof.
  assert (Hw : writes_return world_setup_fails) by (split; intros; discriminate).
  assert (Hf : provisioning_fails world_setup_fails job_builder pr_open
                 (ErrorString "failed to fetch repo: no space left"))
    by (vm_compute; reflexivity).
  split; [reflexivity|]. split; [exact Hw|]. split; [exact Hf|]. split; [discriminate|].
  destruct (provisioning_failure_reported world_setup_fails job_builder pr_open
              (ErrorString "failed to fetch repo: no space left") eq_refl Hw Hf)
    as (secrets & st & url & _ & _ & _ & _ & _ & H).
  apply H. discriminate.
Defined.

(** C2 as the claim states it fails: with the in-process workspace a
    failed provisioning makes [Process] return an error. *)
Lemma in_process_provisioning_failure_returns_error :
  GoSetup world_setup_fails (getRepo world_setup_fails (set_pr (Some pr_open) job_in_process))
  = Err (ErrorString "no space left") /\
  terminal_statuses (events (Process world_setup_fails job_in_process))
  = [(StatusError, "failed to setup", "https://golangci.com/r/github.com/owner/name/pulls/7")] /\
  returned (Process world_setup_fails job_in_process)
  = Ret (Some (ErrorString "can't setup go workspace: no space left")) /\
  returned (Process world_setup_fails job_in_process) <> Ret None.
Proof. vm_compute. repeat split. discriminate. Qed.

(** ** A closed pull request *)

(** C3, evaluated.  For a closed pull request and the external-builder
    installer, [Process] sets the pending status, then clones the
    repository and runs [goenvbuild] in stage 3, and only then [work] sees
    that the pull request is closed: the state [processed/success] is
    written, the status success "Pull Request is already closed" is set
    and nil is returned.  With the in-process workspace the fetcher is not
    called. *)
Theorem closed_pull_request_is_cloned_by_the_builder :
  let tr := events (Process world_closed job_builder) in
  clones tr = [fetchers.mkRepo "https://github.com/fork" "feature" "github.com/owner/name"] /\
  statuses tr
  = [(StatusPending, "GolangCI is reviewing your Pull Request...", "");
     (StatusSuccess, "Pull Request is already closed",
      "https://golangci.com/r/github.com/owner/name/pulls/7")] /\
  map prstate.Status (terminal_states tr) = ["processed/success"] /\
  returned (Process world_closed job_builder) = Ret None /\
  (exists pre post,
      tr = pre ++ EvFetch (getRepo world_closed (set_pr (Some pr_closed) job_builder)) exec0
               :: post /\
      statuses pre = [(StatusPending, "GolangCI is reviewing your Pull Request...", "")] /\
      terminal_states pre = []) /\
  clones (events (Process world_closed job_in_process)) = [] /\
  statuses (events (Process world_closed job_in_process)) = statuses tr /\
  returned (Process world_closed job_in_process) = Ret None.
Proof.
  cbn zeta. repeat split; try (vm_compute; reflexivity).
  exists (take 2 (events (Process world_closed job_builder))),
         (drop 3 (events (Process world_closed job_builder))).
  repeat split; vm_compute; reflexivity.
Qed.

(** ** Panics *)

(** C5, as the code has it.  [work] always returns: a panic inside it
    becomes an internal error with the public message
    "golangci-worker panic-ed" and a private description that contains the
    panic value, the named result [res] staying as it was.  The task
    handlers [analyzeV2] and [analyze] always return too: a panic that
    reaches them becomes the error "panic recovered: <value>, <stack>". *)
Theorem panics_become_errors (w : World) (f : analyze.Factory)
    (owner name token : string) (number : Z) (request : string) (user : nat)
    (guid : string) (g : G) :
  (exists tr x g', work w g = (tr, (Ret x, g'))) /\
  (forall tr v s,
      work_body w (g, None) = (tr, (Panic v, s)) ->
      work w g
      = (tr, (Ret (snd s, Some (InternalError "golangci-worker panic-ed"
                                  ("panic occured: " +:+ v +:+ ", " +:+ Stack w))),
              fst s)) /\
      Contains ("panic occured: " +:+ v +:+ ", " +:+ Stack w) v = true) /\
  (exists tr err,
      analyze.analyzeWrappedV2 w f owner name token number request user guid
      = (tr, Ret err)) /\
  (exists tr err,
      analyze.analyzeWrapped w f owner name token number request user = (tr, Ret err)) /\
  (forall tr r,
      analyze.analyzeLogged w f owner name token number request user guid = (tr, Panic r) ->
      analyze.analyzeWrappedV2 w f owner name token number request user guid
      = (tr, Ret (Some (ErrorString ("panic recovered: " +:+ r +:+ ", " +:+ Stack w))))) /\
  (forall tr r,
      analyze.analyzeLogged w f owner name token number request user "" = (tr, Panic r) ->
      analyze.analyzeWrapped w f owner name token number request user
      = (tr, Ret (Some (ErrorString ("panic recovered: " +:+ r +:+ ", " +:+ Stack w))))).
Proof.
  split; [apply work_returns|].
  split.
  { intros tr v [g' res'] E. unfold work. rewrite E. cbn [fst snd].
    split; [reflexivity|]. apply Contains_infix. }
  unfold analyze.analyzeWrapped, analyze.analyzeWrappedV2.
  split.
  { destruct (analyze.analyzeLogged w f owner name token number request user guid)
      as [tr [err|r]]; eauto. }
  split.
  { destruct (analyze.analyzeLogged w f owner name token number request user "")
      as [tr [err|r]]; eauto. }
  split; intros tr r ->; reflexivity.
Qed.

Lemma panics_become_errors_witness :
  work_body world_lint_panics (nominal_state, None)
  = ([EvLint (exec nominal_state)], (Panic "boom", (nominal_state, None))) /\
  work world_lint_panics nominal_state
  = ([EvLint (exec nominal_state)],
     (Ret (None, Some (InternalError "golangci-worker panic-ed"
                         "panic occured: boom, goroutine 1 [running]")),
      nominal_state)).
Proof.
  assert (E : work_body world_lint_panics (nominal_state, None)
              = ([EvLint (exec nominal_state)], (Panic "boom", (nominal_state, None))))
    by (vm_compute; reflexivity).
  split; [exact E|].
  destruct (panics_become_errors world_lint_panics (factory (Ok job_builder))
              "owner" "name" "token-123456" 7 "req-1" 1 "guid-1" nominal_state)
    as (_ & H & _).
  exact (proj1 (H _ _ _ E)).
Defined.

(** C5 as the claim states it fails: the public message of a recovered
    panic is not "worker panic-ed". *)
Lemma panic_public_message_differs :
  returned (work world_lint_panics nominal_state)
  = Ret (None, Some (InternalError "golangci-worker panic-ed"
                       "panic occured: boom, goroutine 1 [running]")) /\
  "golangci-worker panic-ed" <> "worker panic-ed".
Proof. split; [vm_compute; reflexivity | discriminate]. Qed.

(** * Further properties of the code *)

(** ** The secret map *)

Lemma add_env_secret_hit (ret : gmap string string) (kv x : string) :
  redacts kv x -> add_env_secret ret kv !! x = Some hidden.
Proof.
  intros (k & E & Hlen). unfold add_env_secret. rewrite E.
  apply Nat.leb_le in Hlen. rewrite Hlen. apply lookup_insert_eq.
Qed.

Lemma add_env_secret_miss (ret : gmap string string) (kv x : string) :
  ~ redacts kv x -> add_env_secret ret kv !! x = ret !! x.
Proof.
  intros Hn. unfold add_env_secret.
  destruct (Split kv "=") as [|k [|v [|z rest]]] eqn:E; try reflexivity.
  destruct (6 <=? String.length v)%nat eqn:Hlen; [|reflexivity].
  apply lookup_insert_ne. intros ->. apply Hn. exists k.
  split; [exact E | now apply Nat.leb_le].
Qed.

Lemma add_env_secret_lookup (ret : gmap string string) (kv x : string) :
  add_env_secret ret kv !! x = Some hidden \/ add_env_secret ret kv !! x = ret !! x.
Proof.
  unfold add_env_secret.
  destruct (Split kv "=") as [|k [|v [|z rest]]]; auto.
  destruct (6 <=? String.length v)%nat; auto.
  destruct (decide (v = x)) as [->|Hne];
    [left; apply lookup_insert_eq | right; now apply lookup_insert_ne].
Qed.

Lemma env_secrets_keep (environ : list string) (m : gmap string string) (x : string) :
  m !! x = Some hidden -> foldl add_env_secret m environ !! x = Some hidden.
Proof.
  revert m. induction environ as [|kv environ IH]; intros m Hm; [exact Hm|].
  cbn [foldl]. apply IH.
  destruct (add_env_secret_lookup m kv x) as [E|E]; rewrite E; auto.
Qed.

Lemma env_secrets_hit (environ : list string) (ret : gmap string string) (x : string) :
  (exists kv, kv ∈ environ /\ redacts kv x) ->
  foldl add_env_secret ret environ !! x = Some hidden.
Proof.
  revert ret. induction environ as [|kv environ IH]; intros ret (kv' & Hin & Hr).
  - now apply elem_of_nil in Hin.
  - cbn [foldl]. apply elem_of_cons in Hin as [->|Hin]; [|apply IH; eauto].
    apply env_secrets_keep. now apply add_env_secret_hit.
Qed.

Lemma env_secrets_miss (environ : list string) (ret : gmap string string) (x : string) :
  (forall kv, kv ∈ environ -> ~ redacts kv x) ->
  foldl add_env_secret ret environ !! x = ret !! x.
Proof.
  revert ret. induction environ as [|kv environ IH]; intros ret Hn; [reflexivity|].
  cbn [foldl]. rewrite IH.
  - apply add_env_secret_miss, Hn, elem_of_cons. now left.
  - intros kv' Hin. apply Hn, elem_of_cons. now right.
Qed.

Lemma redacts_dec (kv x : string) : redacts kv x \/ ~ redacts kv x.
Proof.
  unfold redacts.
  destruct (Split kv "=") as [|k [|v [|z rest]]] eqn:E;
    try (right; intros (k' & H & _); discriminate).
  destruct (decide (v = x)) as [->|Hne].
  - destruct (le_lt_dec 6 (String.length x)) as [Hl|Hl].
    + left. eauto.
    + right. intros (k' & _ & Hl'). lia.
  - right. intros (k' & H & _). congruence.
Qed.

Lemma redacting_entry_dec (environ : list string) (x : string) :
  (exists kv, kv ∈ environ /\ redacts kv x) \/
  (forall kv, kv ∈ environ -> ~ redacts kv x).
Proof.
  induction environ as [|kv environ [(kv' & Hin & Hr)|IH]].
  - right. intros kv Hin. now apply elem_of_nil in Hin.
  - left. exists kv'. split; [apply elem_of_cons; now right | exact Hr].
  - destruct (redacts_dec kv x) as [Hr|Hn].
    + left. exists kv. split; [apply elem_of_cons; now left | exact Hr].
    + right. intros kv' Hin. apply elem_of_cons in Hin as [->|Hin]; auto.
Qed.

(** The map [buildSecrets] starts from, before it ranges over the
    environment. *)
Lemma buildSecrets_value (w : World) (g : G) (secrets : gmap string string) :
  returned (buildSecrets w g) = Ret secrets ->
  secrets
  = foldl add_env_secret
      (match newWorkspaceInstaller g with
       | Some _ => <[analysisGUID g := hidden]> (<[GithubAccessToken (context g) := hidden]> ∅)
       | None =>
           <[GoGopath w := "$GOPATH"]>
             (<[analysisGUID g := hidden]> (<[GithubAccessToken (context g) := hidden]> ∅))
       end)
      (Environ w).
Proof.
  unfold buildSecrets. rewrite by_value_run, bind_run.
  cbn [get returned events final fst snd].
  destruct (newWorkspaceInstaller g).
  - rewrite bind_run. cbn [ret returned events final fst snd]. now intros [= <-].
  - destruct (gw g); rewrite bind_run; cbn [ret panic returned events final fst snd];
      [now intros [= <-] | discriminate].
Qed.

(** X1. The keys of the secret map are exactly the access token, the
    analysis id, the GOPATH of the in-process workspace, and the values of
    the environment entries that have exactly one "=" and a value of six
    bytes or more.  A shorter value, or the value of an entry with a second
    "=", is a key only if it is one of the former. *)
Theorem buildSecrets_keys (w : World) (g : G) (secrets : gmap string string) (x : string) :
  returned (buildSecrets w g) = Ret secrets ->
  (is_Some (secrets !! x) <->
   x = GithubAccessToken (context g) \/ x = analysisGUID g \/
   (newWorkspaceInstaller g = None /\ x = GoGopath w) \/
   (exists kv, kv ∈ Environ w /\ redacts kv x)).
Proof.
  intros E. rewrite (buildSecrets_value w g secrets E). clear E.
  destruct (redacting_entry_dec (Environ w) x) as [Hhit|Hmiss].
  - rewrite (env_secrets_hit _ _ _ Hhit). split; [auto | eauto].
  - rewrite (env_secrets_miss _ _ _ Hmiss).
    destruct (newWorkspaceInstaller g) as [i|];
      rewrite !lookup_insert, lookup_empty; split.
    + intros H. repeat case_decide; subst; auto.
      destruct H as [? H']. discriminate.
    + intros [->|[->|[[Hi _]|(kv & Hin & Hr)]]];
        [| |discriminate|now destruct (Hmiss kv Hin)];
        repeat case_decide; try congruence; eauto.
    + intros H. repeat case_decide; subst; auto.
      destruct H as [? H']. discriminate.
    + intros [->|[->|[[_ ->]|(kv & Hin & Hr)]]];
        [| | |now destruct (Hmiss kv Hin)];
        repeat case_decide; try congruence; eauto.
Qed.

Lemma buildSecrets_keys_witness :
  returned (buildSecrets world_clean nominal_state)
  = Ret (<["hunter22" := "{hidden}"]>
           (<["https://golangci.com" := "{hidden}"]>
              (<["guid-1" := "{hidden}"]> (<["token-123456" := "{hidden}"]> ∅)))) /\
  ~ is_Some ((<["hunter22" := "{hidden}"]>
                (<["https://golangci.com" := "{hidden}"]>
                   (<["guid-1" := "{hidden}"]>
                      (<["token-123456" := "{hidden}"]> (∅ : gmap string string))))) !! "/root").
Proof.
  assert (E : returned (buildSecrets world_clean nominal_state)
              = Ret (<["hunter22" := "{hidden}"]>
                       (<["https://golangci.com" := "{hidden}"]>
                          (<["guid-1" := "{hidden}"]> (<["token-123456" := "{hidden}"]> ∅)))))
    by (vm_compute; reflexivity).
  split; [exact E|].
  rewrite (buildSecrets_keys world_clean nominal_state _ "/root" E).
  intros [H|[H|[[H _]|(kv & Hin & k & Hs & Hl)]]]; try discriminate.
  cbn in Hl. lia.
Defined.

(** X2. Every secret is replaced by the placeholder [{hidden}], except
    that the GOPATH of the in-process workspace is replaced by [$GOPATH]
    as long as no environment value of six bytes or more equals it.  With
    the external builder every value of the map is [{hidden}]. *)
Theorem buildSecrets_values (w : World) (g : G) (secrets : gmap string string)
    (x v : string) :
  returned (buildSecrets w g) = Ret secrets ->
  secrets !! x = Some v ->
  v = hidden \/
  (v = "$GOPATH" /\ newWorkspaceInstaller g = None /\ x = GoGopath w /\
   forall kv, kv ∈ Environ w -> ~ redacts kv x).
Proof.
  intros E. rewrite (buildSecrets_value w g secrets E). clear E.
  destruct (redacting_entry_dec (Environ w) x) as [Hhit|Hmiss].
  - rewrite (env_secrets_hit _ _ _ Hhit). intros [= <-]. now left.
  - rewrite (env_secrets_miss _ _ _ Hmiss).
    destruct (newWorkspaceInstaller g) as [i|];
      rewrite !lookup_insert, lookup_empty;
      repeat case_decide; subst; intros [= <-]; auto.
Qed.

Lemma buildSecrets_values_witness :
  returned (buildSecrets world_clean (state_at_provisioning job_in_process pr_open))
  = Ret (foldl add_env_secret
           (<["/gopath" := "$GOPATH"]>
              (<["guid-1" := "{hidden}"]> (<["token-123456" := "{hidden}"]> ∅)))
           environ0) /\
  foldl add_env_secret
    (<["/gopath" := "$GOPATH"]>
       (<["guid-1" := "{hidden}"]> (<["token-123456" := "{hidden}"]> ∅)))
    environ0 !! "/gopath" = Some "$GOPATH" /\
  ("$GOPATH" = hidden \/
   ("$GOPATH" = "$GOPATH" /\
    newWorkspaceInstaller (state_at_provisioning job_in_process pr_open) = None /\
    "/gopath" = GoGopath world_clean /\
    forall kv, kv ∈ Environ world_clean -> ~ redacts kv "/gopath")).
Proof.
  assert (E : returned (buildSecrets world_clean (state_at_provisioning job_in_process pr_open))
              = Ret (foldl add_env_secret
                       (<["/gopath" := "$GOPATH"]>
                          (<["guid-1" := "{hidden}"]> (<["token-123456" := "{hidden}"]> ∅)))
                       environ0))
    by reflexivity.
  assert (L : foldl add_env_secret
                (<["/gopath" := "$GOPATH"]>
                   (<["guid-1" := "{hidden}"]> (<["token-123456" := "{hidden}"]> ∅)))
                environ0 !! "/gopath" = Some "$GOPATH")
    by (vm_compute; reflexivity).
  split; [exact E|]. split; [exact L|].
  exact (buildSecrets_values world_clean (state_at_provisioning job_in_process pr_open)
           _ "/gopath" "$GOPATH" E L).
Defined.

(** ** Preparing the repository *)

Lemma add_warnings_app (ws1 ws2 : list collector.Warning) (g : G) :
  add_warnings (ws1 ++ ws2) g = add_warnings ws2 (add_warnings ws1 g).
Proof. unfold add_warnings. apply foldl_app. Qed.

Lemma add_warnings_fields (ws : list collector.Warning) (g : G) :
  warnings (add_warnings ws g) = warnings g ++ ws /\
  timings (add_warnings ws g) = timings g /\
  newWorkspaceInstaller (add_warnings ws g) = newWorkspaceInstaller g /\
  gw (add_warnings ws g) = gw g /\
  exec (add_warnings ws g) = exec g /\
  pr (add_warnings ws g) = pr g.
Proof.
  revert g. induction ws as [|[tag text] ws IH]; intros g.
  - cbn. now rewrite app_nil_r.
  - change (add_warnings (collector.mkWarning tag text :: ws) g)
      with (add_warnings ws (add_warning tag text g)).
    destruct (IH (add_warning tag text g)) as (-> & -> & -> & -> & -> & ->).
    cbn. now rewrite <- app_assoc.
Qed.

Lemma buildSecrets_shape (w : World) (g : G) :
  buildSecrets w g = ([], (returned (buildSecrets w g), g)).
Proof.
  unfold buildSecrets, by_value, bind, get, ret, panic, returned.
  destruct (newWorkspaceInstaller g); [reflexivity|].
  destruct (gw g); reflexivity.
Qed.

Lemma buildSecrets_add_warning (w : World) (tag text : string) (g : G) :
  returned (buildSecrets w (add_warning tag text g)) = returned (buildSecrets w g).
Proof.
  unfold buildSecrets, by_value, bind, get, ret, panic, returned. cbn.
  destruct (newWorkspaceInstaller g); [reflexivity|].
  destruct (gw g); reflexivity.
Qed.

Lemma buildSecrets_add_warnings (w : World) (ws : list collector.Warning) (g : G)
    (secrets : gmap string string) :
  buildSecrets w g = ([], (Ret secrets, g)) ->
  buildSecrets w (add_warnings ws g) = ([], (Ret secrets, add_warnings ws g)).
Proof.
  revert g. induction ws as [|[tag text] ws IH]; intros g E; [exact E|].
  change (add_warnings (collector.mkWarning tag text :: ws) g)
    with (add_warnings ws (add_warning tag text g)).
  apply IH.
  rewrite buildSecrets_shape, buildSecrets_add_warning, E. reflexivity.
Qed.

(** A loop that publishes the warnings [f x] of each element [x]. *)
Lemma warn_loop {A} (w : World) (secrets : gmap string string)
    (f : A -> list collector.Warning) (body : A -> M G unit) (xs : list A) (g : G) :
  buildSecrets w g = ([], (Ret secrets, g)) ->
  (forall x g', buildSecrets w g' = ([], (Ret secrets, g')) ->
                body x g' = ([], (Ret tt, add_warnings (f x) g'))) ->
  forM_ xs body g = ([], (Ret tt, add_warnings (flat_map f xs) g)).
Proof.
  intros Es Hb. revert g Es. induction xs as [|x xs IH]; intros g Es; [reflexivity|].
  cbn [forM_ flat_map]. rewrite bind_run, (Hb x g Es).
  cbn [returned events final fst snd app].
  rewrite (IH _ (buildSecrets_add_warnings w (f x) g secrets Es)).
  cbn [returned events final fst snd]. now rewrite add_warnings_app.
Qed.

Lemma prepareRepo_builder_run (w : World) (g : G) (i : workspaces.Go2)
    (secrets : gmap string string) :
  newWorkspaceInstaller g = Some i ->
  buildSecrets w g = ([], (Ret secrets, g)) ->
  prepareRepo w g
  = ([], (Ret None,
          match resLog g with
          | Some log => add_warnings (step_warnings w secrets log) g
          | None => g
          end)).
Proof.
  intros Ei Es. unfold prepareRepo.
  rewrite bind_run. cbn [get returned events final fst snd app]. rewrite Ei.
  destruct (resLog g) as [log|]; [|reflexivity].
  rewrite bind_run.
  rewrite (warn_loop w secrets
             (fun sg => flat_map (step_warning w secrets sg) (goenv.Steps sg))
             _ (goenv.Groups log) g Es).
  - reflexivity.
  - intros sg g' Es'.
    apply (warn_loop w secrets (step_warning w secrets sg) _ (goenv.Steps sg) g' Es').
    intros s g'' Es''. unfold step_warning.
    destruct (negb _); [|reflexivity].
    rewrite bind_run, Es''. reflexivity.
Qed.

(** X3. With the external builder configured, [prepareRepo] calls no
    collaborator (no clone, no dependency fetch), returns nil and never
    panics, whatever the build log holds. *)
Theorem prepareRepo_with_builder_is_silent (w : World) (g : G) (i : workspaces.Go2) :
  newWorkspaceInstaller g = Some i ->
  events (prepareRepo w g) = [] /\ returned (prepareRepo w g) = Ret None.
Proof.
  intros Ei.
  destruct (buildSecrets_run w g (ready_with_installer g i Ei)) as [secrets Es].
  now rewrite (prepareRepo_builder_run w g i secrets Ei Es).
Qed.

Lemma prepareRepo_with_builder_is_silent_witness :
  newWorkspaceInstaller nominal_state = Some (workspaces.NewGo2 exec0) /\
  events (prepareRepo world_clean nominal_state) = [] /\
  returned (prepareRepo world_clean nominal_state) = Ret None.
Proof.
  split; [reflexivity|].
  apply (prepareRepo_with_builder_is_silent world_clean nominal_state
           (workspaces.NewGo2 exec0)).
  reflexivity.
Defined.

(** X4. With the external builder configured, [prepareRepo] publishes one
    warning for each step of the build log whose error is not empty, in the
    order of the log, tagged with the name of the group of the step, its
    text being the redacted "<description> error: <error>"; the steps
    without an error publish nothing and the earlier warnings stay. *)
Theorem prepareRepo_publishes_step_errors (w : World) (g : G) (i : workspaces.Go2)
    (log : goenv.Log) :
  newWorkspaceInstaller g = Some i ->
  resLog g = Some log ->
  exists secrets,
    returned (buildSecrets w g) = Ret secrets /\
    warnings (final (prepareRepo w g)) = warnings g ++ step_warnings w secrets log /\
    length (step_warnings w secrets log)
    = length (filter (fun s => goenv.StepError s <> "")
                     (flat_map goenv.Steps (goenv.Groups log))).
Proof.
  intros Ei El.
  destruct (buildSecrets_run w g (ready_with_installer g i Ei)) as [secrets Es].
  exists secrets. split; [now rewrite Es|].
  rewrite (prepareRepo_builder_run w g i secrets Ei Es), El.
  cbn [final snd]. split; [apply add_warnings_fields|].
  unfold step_warnings. generalize (goenv.Groups log). intros groups.
  induction groups as [|sg groups IH]; [reflexivity|].
  cbn [flat_map]. rewrite filter_app, !length_app, IH. f_equal.
  generalize (goenv.Steps sg). intros steps.
  induction steps as [|s steps IHs]; [reflexivity|].
  cbn [flat_map]. rewrite length_app, IHs. unfold step_warning.
  rewrite filter_cons.
  destruct (String.eqb_spec (goenv.StepError s) "") as [E|E]; cbn [negb].
  - rewrite decide_False by (intros H; now apply H). reflexivity.
  - rewrite decide_True by exact E. reflexivity.
Qed.

Lemma prepareRepo_publishes_step_errors_witness :
  let g := set_resLog (Some log_one_failure) nominal_state in
  newWorkspaceInstaller g = Some (workspaces.NewGo2 exec0) /\
  resLog g = Some log_one_failure /\
  exists secrets,
    returned (buildSecrets world_clean g) = Ret secrets /\
    warnings (final (prepareRepo world_clean g))
    = warnings g ++ step_warnings world_clean secrets log_one_failure /\
    length (step_warnings world_clean secrets log_one_failure)
    = length (filter (fun s => goenv.StepError s <> "")
                     (flat_map goenv.Steps (goenv.Groups log_one_failure))).
Proof.
  cbn zeta. split; [reflexivity|]. split; [reflexivity|].
  apply (prepareRepo_publishes_step_errors world_clean
           (set_resLog (Some log_one_failure) nominal_state)
           (workspaces.NewGo2 exec0) log_one_failure); reflexivity.
Defined.

Example one_failed_step_one_warning :
  warnings (final (prepareRepo world_clean (set_resLog (Some log_one_failure) nominal_state)))
  = [collector.mkWarning "prepare repo" "go mod download error: exit status 1"].
Proof. vm_compute. reflexivity. Qed.

(** X5. With the in-process workspace, a failed clone makes [prepareRepo]
    return an internal error whose public message is "can't clone git
    repo", and the dependencies are then not fetched; a failed dependency
    fetch is not an error: [prepareRepo] returns nil and publishes no
    warning. *)
Theorem prepareRepo_in_process_failures (w : World) (g : G) (go : workspaces.Go) :
  newWorkspaceInstaller g = None ->
  gw g = Some go ->
  let repo := getRepo w g in
  (forall e, Fetch w repo (exec g) = Err e ->
     events (prepareRepo w g) = [EvFetch repo (exec g)] /\
     returned (prepareRepo w g)
     = Ret (Some (InternalError "can't clone git repo"
                    ("can't clone git repo: " +:+ ErrorText w e))) /\
     warnings (final (prepareRepo w g)) = warnings g) /\
  (forall e, Fetch w repo (exec g) = Ok tt ->
     GoFetchDeps w (fetchers.FullPath repo) = Err e ->
     events (prepareRepo w g)
     = [EvFetch repo (exec g); EvFetchDeps (fetchers.FullPath repo)] /\
     returned (prepareRepo w g) = Ret None /\
     warnings (final (prepareRepo w g)) = warnings g).
Proof.
  intros Ei Eg. cbn zeta. unfold prepareRepo, trackTiming.
  split.
  - intros e Ef.
    rewrite bind_run. cbn [get returned events final fst snd app]. rewrite Ei.
    rewrite !bind_run. cbn [call returned events final fst snd app]. rewrite Ef.
    cbn [modify ret returned events final fst snd app]. auto.
  - intros e Ef Ed.
    rewrite bind_run. cbn [get returned events final fst snd app]. rewrite Ei.
    rewrite !bind_run. cbn [call returned events final fst snd app]. rewrite Ef.
    cbn [modify ret returned events final fst snd app].
    rewrite Eg. rewrite !bind_run. cbn [call returned events final fst snd app].
    rewrite Ed. cbn [modify ret returned events final fst snd app]. auto.
Qed.

Lemma prepareRepo_in_process_failures_witness :
  let g := set_exec exec0 (state_at_provisioning job_in_process pr_open) in
  newWorkspaceInstaller g = None /\
  gw g = Some (workspaces.NewGo exec0) /\
  Fetch world_setup_fails (getRepo world_setup_fails g) (exec g)
  = Err (ErrorString "no space left") /\
  returned (prepareRepo world_setup_fails g)
  = Ret (Some (InternalError "can't clone git repo" "can't clone git repo: no space left")).
Proof.
  cbn zeta. repeat (split; [reflexivity|]).
  apply (proj1 (prepareRepo_in_process_failures world_setup_fails
                  (set_exec exec0 (state_at_provisioning job_in_process pr_open))
                  (workspaces.NewGo exec0) eq_refl eq_refl)
               (ErrorString "no space left")).
  reflexivity.
Defined.

(** ** What a computation calls *)

Section Calls.

Context {S : Type}.
Variable ok : Event -> Prop.

Lemma Only_ret {A} (a : A) : Only ok (@ret S A a).
Proof. intros s. constructor. Qed.

Lemma Only_get : Only ok (@get S).
Proof. intros s. constructor. Qed.

Lemma Only_panic {A} (v : string) : Only ok (@panic S A v).
Proof. intros s. constructor. Qed.

Lemma Only_modify (f : S -> S) : Only ok (modify f).
Proof. intros s. constructor. Qed.

Lemma Only_call {A} (e : Event) (o : outcome A) : ok e -> Only ok (@call S A e o).
Proof. intros He s. repeat constructor. exact He. Qed.

Lemma Only_emit (e : Event) : ok e -> Only ok (@emit S e).
Proof. intros He s. repeat constructor. exact He. Qed.

Lemma Only_bind {A B} (m : M S A) (f : A -> M S B) :
  Only ok m -> (forall a, Only ok (f a)) -> Only ok (bind m f).
Proof.
  intros Hm Hf s. rewrite bind_run.
  destruct (returned (m s)) as [a|v]; cbn [events fst]; [|apply Hm].
  apply Forall_app. split; [apply Hm | apply Hf].
Qed.

Lemma Only_defer {A} (d : M S unit) (body : M S A) :
  Only ok d -> Only ok body -> Only ok (defer d body).
Proof.
  intros Hd Hb s. rewrite defer_run. cbn [events fst].
  apply Forall_app. split; [apply Hb | apply Hd].
Qed.

Lemma Only_by_value {A} (m : M S A) : Only ok m -> Only ok (by_value m).
Proof. intros Hm s. rewrite by_value_run. apply Hm. Qed.

Lemma Only_forM_ {A} (xs : list A) (body : A -> M S unit) :
  (forall x, Only ok (body x)) -> Only ok (forM_ xs body).
Proof.
  intros Hb. induction xs as [|x xs IH]; cbn [forM_].
  - apply Only_ret.
  - apply Only_bind; [apply Hb | intros _; exact IH].
Qed.

End Calls.

Lemma Only_on_fst {S L A} (ok : Event -> Prop) (m : M S A) :
  Only ok m -> Only ok (@on_fst S L A m).
Proof.
  intros Hm [s l]. specialize (Hm s). unfold on_fst, events in *. cbn [fst snd] in *.
  now destruct (m s) as [t [r s']].
Qed.

Lemma Only_weaken {S A} (ok ok' : Event -> Prop) (m : M S A) :
  (forall e, ok e -> ok' e) -> Only ok m -> Only ok' m.
Proof. intros H Hm s. eapply Forall_impl; [apply Hm | exact H]. Qed.

(** One step of a proof that a computation calls only what it may. *)
Ltac only_step :=
  match goal with
  | |- Only _ (ret _) => apply Only_ret
  | |- Only _ get => apply Only_get
  | |- Only _ (panic _) => apply Only_panic
  | |- Only _ (modify _) => apply Only_modify
  | |- Only _ (call _ _) => apply Only_call; exact I
  | |- Only _ (emit _) => apply Only_emit; exact I
  | |- Only _ (bind _ _) => apply Only_bind; [|intros ?]
  | |- Only _ (defer _ _) => apply Only_defer
  | |- Only _ (by_value _) => apply Only_by_value
  | |- Only _ (forM_ _ _) => apply Only_forM_; intros ?
  | |- Only _ (on_fst _) => apply Only_on_fst
  | |- Only _ (match ?x with _ => _ end) => destruct x
  | |- Only _ (let '(_, _) := ?x in _) => destruct x
  | |- Only _ (let _ := _ in _) => cbn zeta
  end.

Lemma prepareRepo_only_fetches (w : World) : Only is_fetch (prepareRepo w).
Proof.
  unfold prepareRepo, trackTiming, buildSecrets, publicWarn. repeat only_step.
Qed.

Lemma on_fst_run {S L A} (m : M S A) (s : S) (l : L) :
  on_fst m (s, l) = (events (m s), (returned (m s), (final (m s), l))).
Proof.
  unfold on_fst, events, returned, final. cbn [fst snd].
  now destruct (m s) as [t [r s']].
Qed.

(** [work] on a pull request that is neither merged nor closed, as one
    equation over what [prepareRepo], the linter runner and the reporter
    answer. *)
Lemma work_open_run (w : World) (g g1 : G) (tp : list Event) (rp : result (option error)) :
  String.eqb (ToUpper (PullRequest_GetState (pr g))) "MERGED"
  || String.eqb (ToUpper (PullRequest_GetState (pr g))) "CLOSED" = false ->
  prepareRepo w g = (tp, (rp, g1)) ->
  work w g
  = match rp with
    | Panic v => (tp, (Ret (None, Some (panic_error w v)), g1))
    | Ret (Some err) => (tp, (Ret (None, Some err), g1))
    | Ret None =>
        let sha := PullRequest_GetHeadSHA (pr g1) in
        match Lint w (exec g1) with
        | Panics v =>
            (tp ++ [EvLint (exec g1)], (Ret (None, Some (panic_error w v)), g1))
        | Err err =>
            (tp ++ [EvLint (exec g1)], (Ret (None, Some err), add_timing "Analysis" g1))
        | Ok res =>
            (tp ++ [EvLint (exec g1); EvReport sha (lintres.Issues res)],
             (match Report w sha (lintres.Issues res) with
              | Ok _ => Ret (Some res, None)
              | Err err =>
                  Ret (None,
                       Some (InternalError "can't send pull request comments to github"
                               ("can't send pull request comments to github: "
                                +:+ ErrorText w err)))
              | Panics v => Ret (Some res, Some (panic_error w v))
              end, add_timing "Analysis" g1))
        end
    end.
Proof.
  intros Hopen Ep. unfold work, work_body.
  rewrite bind_run, on_fst_run. cbn [get returned events final fst snd app].
  rewrite Hopen.
  rewrite bind_run, on_fst_run, Ep. cbn [returned events final fst snd].
  destruct rp as [[err|]|v]; cbn [ret returned events final fst snd];
    try (rewrite ?app_nil_r; reflexivity).
  rewrite bind_run, on_fst_run. cbn [get returned events final fst snd app].
  rewrite bind_run, on_fst_run. unfold trackTiming.
  rewrite bind_run. cbn [call returned events final fst snd app].
  destruct (Lint w (exec g1)) as [res|err|v];
    cbn [modify ret bind call returned events final fst snd app];
    try reflexivity.
  destruct (Report w _ _) as [u|err|v]; reflexivity.
Qed.

Lemma fetches_are_no_reports (tr : list Event) :
  Forall is_fetch tr -> reports tr = [] /\ lint_runs tr = [].
Proof.
  induction 1 as [|e tr He _ [IH1 IH2]]; [auto|].
  destruct e; cbn in He; try contradiction; cbn [reports lint_runs]; auto.
Qed.

Lemma reports_app (a b : list Event) : reports (a ++ b) = reports a ++ reports b.
Proof.
  induction a as [|e a IH]; [reflexivity|].
  destruct e; cbn [app reports]; now rewrite ?IH.
Qed.

Lemma lint_runs_app (a b : list Event) : lint_runs (a ++ b) = lint_runs a ++ lint_runs b.
Proof.
  induction a as [|e a IH]; [reflexivity|].
  destruct e; cbn [app lint_runs]; now rewrite ?IH.
Qed.

(** [prepareRepo] changes nothing of the processor but its timings and
    warnings. *)
Lemma prepareRepo_frame (w : World) (P : G -> Prop) :
  (forall s tag text, P s -> P (add_warning tag text s)) ->
  (forall s name, P s -> P (add_timing name s)) ->
  Quiet P (prepareRepo w).
Proof.
  intros Hw Ht.
  unfold prepareRepo, trackTiming, buildSecrets, publicWarn.
  repeat first
    [ apply Quiet_modify; intros s Hs;
      first [exact (Ht _ _ Hs) | exact (Hw _ _ _ Hs)]
    | quiet_step ].
Qed.

Lemma prepareRepo_keeps (w : World) (g : G) :
  pr (final (prepareRepo w g)) = pr g /\ exec (final (prepareRepo w g)) = exec g.
Proof.
  apply (prepareRepo_frame w (fun s => pr s = pr g /\ exec s = exec g)); auto.
Qed.

(** X6. For a pull request that is merged or closed, in whatever case the
    state is written, [work] calls no collaborator at all: no clone, no
    linter run, no review.  It returns the ignored error that carries the
    status success and "Pull Request is already merged" or "... closed" and
    is not recoverable. *)
Theorem work_skips_finished_pull_request (w : World) (g : G) :
  let st := ToUpper (PullRequest_GetState (pr g)) in
  st = "MERGED" \/ st = "CLOSED" ->
  events (work w g) = [] /\
  returned (work w g)
  = Ret (None, Some (IgnoredError StatusSuccess
                       ("Pull Request is already " +:+ ToLower st) false)) /\
  exec (final (work w g)) = exec g.
Proof.
  cbn zeta. intros H.
  assert (E : String.eqb (ToUpper (PullRequest_GetState (pr g))) "MERGED"
              || String.eqb (ToUpper (PullRequest_GetState (pr g))) "CLOSED" = true).
  { destruct H as [-> | ->]; reflexivity. }
  unfold work, work_body.
  rewrite bind_run, on_fst_run. cbn [get returned events final fst snd app].
  rewrite E.
  rewrite bind_run, on_fst_run. cbn [publicWarn modify ret returned events final fst snd app].
  auto.
Qed.

Lemma work_skips_finished_pull_request_witness :
  ToUpper (PullRequest_GetState (pr (set_pr (Some (mkPullRequest 7 "Merged" "f" "abc" "fork"))
                                      nominal_state))) = "MERGED" /\
  events (work world_two_issues
            (set_pr (Some (mkPullRequest 7 "Merged" "f" "abc" "fork")) nominal_state)) = [] /\
  returned (work world_two_issues
              (set_pr (Some (mkPullRequest 7 "Merged" "f" "abc" "fork")) nominal_state))
  = Ret (None, Some (IgnoredError StatusSuccess "Pull Request is already merged" false)).
Proof.
  split; [reflexivity|].
  destruct (work_skips_finished_pull_request world_two_issues
              (set_pr (Some (mkPullRequest 7 "Merged" "f" "abc" "fork")) nominal_state))
    as (E1 & E2 & _); [left; reflexivity|].
  split; [exact E1 | exact E2].
Defined.

(** X7. [work] runs the linters at most once and posts at most one
    review; a review is posted only after the linters have succeeded, with
    exactly their issues, at the head commit of the pull request. *)
Theorem work_reports_once (w : World) (g : G) :
  (lint_runs (events (work w g)) = [] \/ lint_runs (events (work w g)) = [exec g]) /\
  (reports (events (work w g)) = [] \/
   exists res, Lint w (exec g) = Ok res /\
               lint_runs (events (work w g)) = [exec g] /\
               reports (events (work w g))
               = [(PullRequest_GetHeadSHA (pr g), lintres.Issues res)]).
Proof.
  destruct (String.eqb (ToUpper (PullRequest_GetState (pr g))) "MERGED"
            || String.eqb (ToUpper (PullRequest_GetState (pr g))) "CLOSED") eqn:Hopen.
  - assert (E : events (work w g) = []).
    { apply work_skips_finished_pull_request. cbn zeta.
      apply orb_true_iff in Hopen as [H|H]; apply String.eqb_eq in H; auto. }
    rewrite E. auto.
  - destruct (prepareRepo w g) as [tp [rp g1]] eqn:Ep.
    destruct (prepareRepo_keeps w g) as [Kpr Kexec].
    rewrite Ep in Kpr, Kexec. cbn [final snd] in Kpr, Kexec.
    destruct (fetches_are_no_reports tp) as [Rp Lp].
    { pose proof (prepareRepo_only_fetches w g) as H. now rewrite Ep in H. }
    rewrite (work_open_run w g g1 tp rp Hopen Ep), Kpr, Kexec.
    destruct rp as [[err|]|v]; cbn [events fst]; rewrite ?Rp, ?Lp; auto.
    cbn zeta.
    destruct (Lint w (exec g)) as [res|err|v]; cbn [events fst];
      rewrite reports_app, lint_runs_app, Rp, Lp; cbn [app reports lint_runs];
      (split; [now right|]); [right | now left | now left].
    exists res. auto.
Qed.

(** X8. [work] hands an error of [prepareRepo] or of the linter runner on
    as it is, so that its kind is still known to finalization; after
    either, no review is posted, and after a failed [prepareRepo] the
    linters are not run. *)
Theorem work_hands_errors_on (w : World) (g : G) (err : error) :
  String.eqb (ToUpper (PullRequest_GetState (pr g))) "MERGED"
  || String.eqb (ToUpper (PullRequest_GetState (pr g))) "CLOSED" = false ->
  (returned (prepareRepo w g) = Ret (Some err) ->
   returned (work w g) = Ret (None, Some err) /\
   lint_runs (events (work w g)) = [] /\ reports (events (work w g)) = []) /\
  (returned (prepareRepo w g) = Ret None -> Lint w (exec g) = Err err ->
   returned (work w g) = Ret (None, Some err) /\
   lint_runs (events (work w g)) = [exec g] /\ reports (events (work w g)) = []).
Proof.
  intros Hopen.
  destruct (prepareRepo w g) as [tp [rp g1]] eqn:Ep.
  destruct (prepareRepo_keeps w g) as [Kpr Kexec].
  rewrite Ep in Kpr, Kexec. cbn [final snd] in Kpr, Kexec.
  destruct (fetches_are_no_reports tp) as [Rp Lp].
  { pose proof (prepareRepo_only_fetches w g) as H. now rewrite Ep in H. }
  rewrite (work_open_run w g g1 tp rp Hopen Ep), Kpr, Kexec.
  cbn [returned fst snd]. split.
  - intros ->. cbn [events returned fst snd]. auto.
  - intros -> El. cbn zeta. rewrite El. cbn [events returned fst snd].
    rewrite reports_app, lint_runs_app, Rp, Lp. auto.
Qed.

Lemma work_hands_errors_on_witness :
  returned (prepareRepo world_no_go_files nominal_state) = Ret None /\
  Lint world_no_go_files (exec nominal_state)
  = Err (InternalError "can't run linters" "build failed: no go files to analyze") /\
  returned (work world_no_go_files nominal_state)
  = Ret (None, Some (InternalError "can't run linters"
                       "build failed: no go files to analyze")).
Proof.
  split; [reflexivity|]. split; [reflexivity|].
  apply (proj2 (work_hands_errors_on world_no_go_files nominal_state
                  (InternalError "can't run linters" "build failed: no go files to analyze")
                  eq_refl)); reflexivity.
Defined.

(** ** What finalization makes of each kind of error *)

Lemma finalization_of (w : World) (g g' : G) (tr : list Event)
    (res : option lintres.Result) (err err' : option error)
    (status : Status) (desc publicError : string) :
  work w g = (tr, (Ret (res, err), g')) ->
  classify w res err g' = ([], (Ret (status, desc, publicError, err'), g')) ->
  writes_return w ->
  processWithGuaranteedGithubStatus w g
  = (tr ++ [EvUpdateState (Owner (ctxRepo (context g'))) (Name (ctxRepo (context g')))
                          (analysisGUID g') (processed_state g' res status publicError);
            EvSetCommitStatus (PullRequest_GetHeadSHA (pr g')) status desc
                              (detailsURL w g' status)],
     (Ret err', g')).
Proof.
  intros Ew Ec Hw. unfold processWithGuaranteedGithubStatus.
  rewrite bind_run, Ew. cbn [returned events final fst snd].
  rewrite bind_run, Ec. cbn [returned events final fst snd].
  rewrite bind_run, updateAnalysisState_run, writes_return_state by exact Hw.
  cbn [returned events final fst snd].
  rewrite bind_run, setCommitStatus_run, writes_return_status by exact Hw.
  reflexivity.
Qed.

(** X9. When [work] returns a bad-input error, finalization stores the
    redacted public description as the public error of the state
    [processed/error], sets the status error "can't analyze" and returns
    nil: the error is not handed back to the queue. *)
Theorem bad_input_is_reported_and_swallowed (w : World) (g g' : G) (tr : list Event)
    (res : option lintres.Result) (publicDesc : string) :
  work w g = (tr, (Ret (res, Some (BadInputError publicDesc)), g')) ->
  ready g' ->
  writes_return w ->
  exists secrets,
    returned (buildSecrets w g') = Ret secrets /\
    let st := processed_state g' res StatusError (escapeErrorText w publicDesc secrets) in
    processWithGuaranteedGithubStatus w g
    = (tr ++ [EvUpdateState (Owner (ctxRepo (context g'))) (Name (ctxRepo (context g')))
                            (analysisGUID g') st;
              EvSetCommitStatus (PullRequest_GetHeadSHA (pr g')) StatusError
                                "can't analyze" (detailsURL w g' StatusError)],
       (Ret None, g')) /\
    prstate.Status st = "processed/error" /\
    public_error st = escapeErrorText w publicDesc secrets.
Proof.
  intros Ew Hg Hw.
  destruct (buildSecrets_run w g' Hg) as [secrets Es].
  exists secrets. split; [now rewrite Es|]. cbn zeta.
  split; [|split; reflexivity].
  apply (finalization_of w g g' tr res _ None StatusError "can't analyze" _ Ew); [|exact Hw].
  unfold classify. rewrite bind_run, Es. reflexivity.
Qed.

(** X10. Finalization hands back to the queue either nil or the very
    error [work] returned, never another one: the error itself for a
    recoverable ignored error, an internal error without the "no go files"
    mark, or an error of no known kind; nil for every other outcome. *)
Theorem finalization_returns_nil_or_the_error (w : World) (g g' : G) (tr : list Event)
    (res : option lintres.Result) (err : error) :
  work w g = (tr, (Ret (res, Some err), g')) ->
  ready g' ->
  writes_return w ->
  (retried err -> returned (processWithGuaranteedGithubStatus w g) = Ret (Some err)) /\
  (~ retried err -> returned (processWithGuaranteedGithubStatus w g) = Ret None).
Proof.
  intros Ew Hg Hw.
  destruct (buildSecrets_run w g' Hg) as [secrets Es].
  assert (F : forall status desc pe err',
             classify w res (Some err) g' = ([], (Ret (status, desc, pe, err'), g')) ->
             returned (processWithGuaranteedGithubStatus w g) = Ret err').
  { intros status desc pe err' Ec.
    now rewrite (finalization_of w g g' tr res _ err' status desc pe Ew Ec Hw). }
  destruct err as [status desc [|]|pub priv|pub|msg]; cbn [retried]; split; intros H;
    try discriminate; try contradiction; try (now destruct H).
  - eapply F. reflexivity.
  - eapply F. reflexivity.
  - eapply F. unfold classify. rewrite H. reflexivity.
  - eapply F. unfold classify.
    destruct (Contains priv noGoFilesToAnalyzeErr); [reflexivity | now destruct H].
  - eapply F. unfold classify. rewrite bind_run, Es. reflexivity.
  - eapply F. reflexivity.
Qed.

Lemma nominal_work_fails (err : error) :
  work (nominal pr_open (Err err)) nominal_state
  = ([EvLint (exec nominal_state)],
     (Ret (None, Some err), add_timing "Analysis" nominal_state)).
Proof. reflexivity. Qed.

Lemma bad_input_is_reported_and_swallowed_witness :
  work world_bad_input nominal_state
  = ([EvLint (exec nominal_state)],
     (Ret (None, Some (BadInputError "can't parse go.mod")),
      add_timing "Analysis" nominal_state)) /\
  ready (add_timing "Analysis" nominal_state) /\
  writes_return world_bad_input /\
  returned (processWithGuaranteedGithubStatus world_bad_input nominal_state) = Ret None.
Proof.
  assert (Hg : ready (add_timing "Analysis" nominal_state))
    by (unfold ready; discriminate).
  split; [apply nominal_work_fails|]. split; [exact Hg|].
  split; [apply nominal_writes_return|].
  destruct (bad_input_is_reported_and_swallowed world_bad_input nominal_state _ _ None _
              (nominal_work_fails _) Hg (nominal_writes_return _ _))
    as (secrets & _ & E & _).
  cbn zeta in E. now rewrite E.
Defined.

Lemma finalization_returns_nil_or_the_error_witness :
  work world_unknown_error nominal_state
  = ([EvLint (exec nominal_state)],
     (Ret (None, Some (ErrorString "exit status 2")), add_timing "Analysis" nominal_state)) /\
  ready (add_timing "Analysis" nominal_state) /\
  writes_return world_unknown_error /\
  retried (ErrorString "exit status 2") /\
  returned (processWithGuaranteedGithubStatus world_unknown_error nominal_state)
  = Ret (Some (ErrorString "exit status 2")).
Proof.
  assert (Hg : ready (add_timing "Analysis" nominal_state))
    by (unfold ready; discriminate).
  split; [apply nominal_work_fails|]. split; [exact Hg|].
  split; [apply nominal_writes_return|]. split; [exact I|].
  apply (proj1 (finalization_returns_nil_or_the_error world_unknown_error nominal_state
                  _ _ None _ (nominal_work_fails _) Hg (nominal_writes_return _ _))).
  exact I.
Defined.

(** X11. The private text of an error is not published.  For an internal
    error without the "no go files" mark, the state and the status carry
    its public description only; for an error of no known kind they carry
    the fixed text "Internal error". *)
Theorem private_text_is_not_published (w : World) (g g' : G) (tr : list Event)
    (res : option lintres.Result) :
  writes_return w ->
  (forall pub priv,
      work w g = (tr, (Ret (res, Some (InternalError pub priv)), g')) ->
      Contains priv noGoFilesToAnalyzeErr = false ->
      terminal_states (events (processWithGuaranteedGithubStatus w g))
      = terminal_states tr ++ [processed_state g' res StatusError pub] /\
      statuses (events (processWithGuaranteedGithubStatus w g))
      = statuses tr ++ [(StatusError, pub, detailsURL w g' StatusError)]) /\
  (forall msg,
      work w g = (tr, (Ret (res, Some (ErrorString msg)), g')) ->
      terminal_states (events (processWithGuaranteedGithubStatus w g))
      = terminal_states tr ++ [processed_state g' res StatusError "Internal error"] /\
      statuses (events (processWithGuaranteedGithubStatus w g))
      = statuses tr ++ [(StatusError, "Internal error", detailsURL w g' StatusError)]).
Proof.
  intros Hw.
  assert (statuses_app : forall a b, statuses (a ++ b) = statuses a ++ statuses b).
  { intros a b. induction a as [|e a IH]; [reflexivity|].
    destruct e; cbn [app statuses]; now rewrite ?IH. }
  split.
  - intros pub priv Ew Hc.
    rewrite (finalization_of w g g' tr res _ (Some (InternalError pub priv))
               StatusError pub pub Ew); [|unfold classify; now rewrite Hc | exact Hw].
    cbn [events fst]. rewrite terminal_states_app, statuses_app. auto.
  - intros msg Ew.
    rewrite (finalization_of w g g' tr res _ (Some (ErrorString msg))
               StatusError "Internal error" "Internal error" Ew);
      [|reflexivity | exact Hw].
    cbn [events fst]. rewrite terminal_states_app, statuses_app. auto.
Qed.

Lemma private_text_is_not_published_witness :
  writes_return world_unknown_error /\
  work world_unknown_error nominal_state
  = ([EvLint (exec nominal_state)],
     (Ret (None, Some (ErrorString "exit status 2")), add_timing "Analysis" nominal_state)) /\
  statuses (events (processWithGuaranteedGithubStatus world_unknown_error nominal_state))
  = [(StatusError, "Internal error",
      "https://golangci.com/r/github.com/owner/name/pulls/7")].
Proof.
  split; [apply nominal_writes_return|]. split; [apply nominal_work_fails|].
  destruct (private_text_is_not_published world_unknown_error nominal_state
              (add_timing "Analysis" nominal_state) [EvLint (exec nominal_state)] None
              (nominal_writes_return _ _)) as [_ H].
  destruct (H _ (nominal_work_fails _)) as [_ E].
  rewrite E. reflexivity.
Defined.

(** X12. When the linters succeed but the review cannot be posted, [work]
    drops the result of the linters and returns an internal error; so the
    state written at the end reads [processed/error] with zero reported
    issues and no linter document, the status is error "can't send pull
    request comments to github", and the error goes back to the queue.
    (The text of the reporter's error must not contain "no go files to
    analyze": the private description, which embeds it, would then carry
    the mark that downgrades the outcome to success.) *)
Theorem failed_review_drops_the_result (w : World) (g : G) (lintResult : lintres.Result)
    (e : error) :
  String.eqb (ToUpper (PullRequest_GetState (pr g))) "MERGED"
  || String.eqb (ToUpper (PullRequest_GetState (pr g))) "CLOSED" = false ->
  returned (prepareRepo w g) = Ret None ->
  Lint w (exec g) = Ok lintResult ->
  Report w (PullRequest_GetHeadSHA (pr g)) (lintres.Issues lintResult) = Err e ->
  Contains ("can't send pull request comments to github: " +:+ ErrorText w e)
           noGoFilesToAnalyzeErr = false ->
  writes_return w ->
  let err := InternalError "can't send pull request comments to github"
               ("can't send pull request comments to github: " +:+ ErrorText w e) in
  returned (work w g) = Ret (None, Some err) /\
  returned (processWithGuaranteedGithubStatus w g) = Ret (Some err) /\
  map (fun st => (prstate.Status st, prstate.ReportedIssuesCount st,
                  prstate.GolangciLintRes <$> prstate.ResultJSON st))
      (terminal_states (events (processWithGuaranteedGithubStatus w g)))
  = [("processed/error", 0, Some None)] /\
  terminal_statuses (events (processWithGuaranteedGithubStatus w g))
  = [(StatusError, "can't send pull request comments to github",
      detailsURL w (final (work w g)) StatusError)].
Proof.
  intros Hopen Hp Hl Hr Hc Hw. cbn zeta.
  destruct (prepareRepo w g) as [tp [rp g1]] eqn:Ep.
  cbn [returned fst snd] in Hp. subst rp.
  destruct (prepareRepo_keeps w g) as [Kpr Kexec].
  rewrite Ep in Kpr, Kexec. cbn [final snd] in Kpr, Kexec.
  pose proof (work_open_run w g g1 tp (Ret None) Hopen Ep) as Ew.
  cbn zeta in Ew. rewrite Kpr, Kexec, Hl, Hr in Ew.
  assert (Hq : Forall quiet tp).
  { pose proof (prepareRepo_only_fetches w g) as H. rewrite Ep in H. cbn [events fst] in H.
    eapply Forall_impl; [exact H|]. intros [] He; cbn in He; try contradiction; reflexivity. }
  rewrite Ew. cbn [returned final fst snd]. split; [reflexivity|].
  rewrite (finalization_of w g _ _ None _
             (Some (InternalError "can't send pull request comments to github"
                      ("can't send pull request comments to github: " +:+ ErrorText w e)))
             StatusError "can't send pull request comments to github"
             "can't send pull request comments to github" Ew);
    [|unfold classify; now rewrite Hc | exact Hw].
  cbn [returned events fst snd]. split; [reflexivity|].
  rewrite !terminal_states_app, !terminal_statuses_app.
  rewrite !(quiet_terminal_states tp), !(quiet_terminal_statuses tp) by exact Hq.
  split; reflexivity.
Qed.

Lemma failed_review_drops_the_result_witness :
  returned (prepareRepo world_review_fails nominal_state) = Ret None /\
  Lint world_review_fails (exec nominal_state) = Ok (lintres.mkResult issues2 "{}") /\
  Report world_review_fails "abc123" issues2 = Err (ErrorString "403 Forbidden") /\
  Contains "can't send pull request comments to github: 403 Forbidden"
           noGoFilesToAnalyzeErr = false /\
  writes_return world_review_fails /\
  returned (processWithGuaranteedGithubStatus world_review_fails nominal_state)
  = Ret (Some (InternalError "can't send pull request comments to github"
                 "can't send pull request comments to github: 403 Forbidden")).
Proof.
  assert (Hw : writes_return world_review_fails) by (split; intros; discriminate).
  repeat (split; [first [reflexivity | exact Hw]|]).
  destruct (failed_review_drops_the_result world_review_fails nominal_state
              (lintres.mkResult issues2 "{}") (ErrorString "403 Forbidden")
              eq_refl eq_refl eq_refl eq_refl eq_refl Hw) as (_ & E & _).
  exact E.
Defined.

Lemma prefix_app_r (sub s t : string) :
  String.prefix sub s = true -> String.prefix sub (s +:+ t) = true.
Proof.
  revert s. induction sub as [|c sub IH]; intros s H;
    [now destruct (s +:+ t)|].
  destruct s as [|d s]; [discriminate|].
  rewrite append_cons. cbn [String.prefix] in *.
  destruct (ascii_dec c d); [now apply IH | discriminate].
Qed.

Lemma Contains_app_r (s sub t : string) :
  Contains s sub = true -> Contains (s +:+ t) sub = true.
Proof.
  induction s as [|c s IH]; cbn [Contains].
  - destruct (String.prefix sub "") eqn:E; [|discriminate].
    intros _. destruct sub; [|discriminate]. now destruct t.
  - destruct (String.prefix sub (String c s)) eqn:E.
    + intros _. rewrite append_cons. cbn [Contains].
      rewrite <- append_cons, (prefix_app_r _ _ t E). reflexivity.
    + intros H. rewrite append_cons. cbn [Contains].
      rewrite (IH H). now destruct (String.prefix sub (String c (s +:+ t))).
Qed.

Lemma statuses_app (a b : list Event) : statuses (a ++ b) = statuses a ++ statuses b.
Proof.
  induction a as [|e a IH]; [reflexivity|].
  destruct e; cbn [app statuses]; now rewrite ?IH.
Qed.

(** X13. The "no go files" mark is looked for in the private description
    of any internal error, also the one made from a recovered panic: a
    panic inside [work] whose value contains "no go files to analyze" is
    reported as the status success "No Go files to analyze", and
    finalization returns nil. *)
Theorem panic_with_the_mark_is_reported_as_success (w : World) (g : G) (tr : list Event)
    (v : string) (s : G * option lintres.Result) :
  work_body w (g, None) = (tr, (Panic v, s)) ->
  Contains v noGoFilesToAnalyzeErr = true ->
  writes_return w ->
  returned (processWithGuaranteedGithubStatus w g) = Ret None /\
  statuses (events (processWithGuaranteedGithubStatus w g))
  = statuses tr ++ [(StatusSuccess, "No Go files to analyze",
                     detailsURL w (fst s) StatusSuccess)].
Proof.
  intros Eb Hc Hw.
  assert (Ew : work w g = (tr, (Ret (snd s, Some (panic_error w v)), fst s))).
  { destruct s as [g' res']. unfold work. rewrite Eb. reflexivity. }
  rewrite (finalization_of w g (fst s) tr (snd s) _ None StatusSuccess
             noGoFilesToAnalyzeMessage noGoFilesToAnalyzeMessage Ew); [| |exact Hw].
  - cbn [returned events fst snd]. split; [reflexivity|].
    now rewrite statuses_app.
  - unfold classify, panic_error.
    rewrite (Contains_later "panic occured: " _ _
               (Contains_app_r v _ (", " +:+ Stack w) Hc)).
    reflexivity.
Qed.

Lemma panic_with_the_mark_is_reported_as_success_witness :
  work_body world_panic_with_mark (nominal_state, None)
  = ([EvLint (exec nominal_state)],
     (Panic "loader: no go files to analyze in ./...", (nominal_state, None))) /\
  Contains "loader: no go files to analyze in ./..." noGoFilesToAnalyzeErr = true /\
  writes_return world_panic_with_mark /\
  returned (processWithGuaranteedGithubStatus world_panic_with_mark nominal_state)
  = Ret None.
Proof.
  assert (E : work_body world_panic_with_mark (nominal_state, None)
              = ([EvLint (exec nominal_state)],
                 (Panic "loader: no go files to analyze in ./...", (nominal_state, None))))
    by reflexivity.
  split; [exact E|]. split; [reflexivity|]. split; [apply nominal_writes_return|].
  apply (panic_with_the_mark_is_reported_as_success world_panic_with_mark nominal_state
           _ _ _ E eq_refl (nominal_writes_return _ _)).
Defined.

(** ** The stages of [Process] before finalization *)

(** X14. When the pull request cannot be fetched, [Process] calls nothing
    else but the clean-up of its executor: no status is set and no state
    is written.  It returns the error as it is when the client does not
    take it for recoverable, and "can't get pull request: <error>"
    otherwise. *)
Theorem Process_without_pull_request (w : World) (g : G) (e : error) :
  GetPullRequest w (context g) = Err e ->
  Process w g
  = ([EvGetPullRequest (context g); EvClean (exec g)],
     (Ret (Some (if IsRecoverableError w e
                 then ErrorString ("can't get pull request: " +:+ ErrorText w e)
                 else e)), g)).
Proof.
  intros E. unfold Process, Process_then.
  rewrite by_value_run, bind_run. cbn [get returned events final fst snd app].
  rewrite defer_run, bind_run. cbn [call emit returned events final fst snd].
  rewrite E. destruct (IsRecoverableError w e); reflexivity.
Qed.

Lemma Process_without_pull_request_witness :
  GetPullRequest world_pr_unreachable (context job_builder)
  = Err (ErrorString "connection reset") /\
  Process world_pr_unreachable job_builder
  = ([EvGetPullRequest ctx0; EvClean exec0],
     (Ret (Some (ErrorString "can't get pull request: connection reset")), job_builder)).
Proof.
  split; [reflexivity|].
  apply (Process_without_pull_request world_pr_unreachable job_builder
           (ErrorString "connection reset")).
  reflexivity.
Defined.

Lemma work_only_analyses (w : World) : Only is_analysis (work w).
Proof.
  assert (H : Only is_analysis (work_body w)).
  { unfold work_body, trackTiming, publicWarn.
    repeat first
      [ apply Only_on_fst, (Only_weaken is_fetch), prepareRepo_only_fetches;
        intros []; cbn; tauto
      | only_step ]. }
  intros g. specialize (H (g, None)). unfold work, events in *.
  destruct (work_body w (g, None)) as [t [[x|v] [g' res']]]; exact H.
Qed.

Lemma finalization_never_cleans (w : World) :
  Only not_clean (processWithGuaranteedGithubStatus w).
Proof.
  unfold processWithGuaranteedGithubStatus, classify, buildSecrets,
    updateAnalysisState, setCommitStatus, publicWarn.
  repeat first
    [ apply (Only_weaken is_analysis), work_only_analyses; intros []; cbn; tauto
    | only_step ].
Qed.

(** X15. Every run of [Process] ends with the clean-up of the executor
    the processor was built with, also when a stage fails or panics, and
    cleans it once only: no other clean-up of an executor is in the
    trace. *)
Theorem Process_cleans_its_executor_last (w : World) (g : G) :
  exists tr,
    events (Process w g) = tr ++ [EvClean (exec g)] /\ Forall not_clean tr.
Proof.
  unfold Process, Process_then.
  rewrite by_value_run, bind_run. cbn [get returned events final fst snd app].
  rewrite defer_run. cbn [emit returned events final fst snd].
  eexists. split; [reflexivity|].
  match goal with |- Forall _ (events (?body g)) => assert (H : Only not_clean body) end.
  { unfold Process_after_setup, report_setup_failure, workspaces.Setup, storePatch,
      FileName, addTimingFrom, buildSecrets, updateAnalysisState, setCommitStatus,
      publicWarn.
    repeat first [apply finalization_never_cleans | only_step]. }
  apply H.
Qed.

Lemma Setup_only_provisions {S} (w : World) (go2 : workspaces.Go2) (repo : fetchers.Repo)
    (parts : list string) :
  Only is_provisioning (@workspaces.Setup S w go2 repo parts).
Proof. unfold workspaces.Setup. repeat only_step. Qed.

Lemma storePatch_only_files {S} (w : World) (patch : string) (exec : Executor) :
  Only is_patch_file (@storePatch S w patch exec).
Proof. unfold storePatch, FileName. repeat only_step. Qed.

Lemma storePatch_final {S} (w : World) (patch : string) (exec : Executor) (s : S) :
  final (storePatch w patch exec s) = s.
Proof. now apply (storePatch_quiet (fun s' => s' = s) w patch exec s). Qed.

Lemma provisioning_is_silent (w : World) (g : G) (p : PullRequest)
    (setup_events : list Event) (g1 : G) :
  provisioning_succeeds w g p setup_events g1 ->
  Forall is_provisioning setup_events /\
  context g1 = context g /\ analysisGUID g1 = analysisGUID g /\
  newWorkspaceInstaller g1 = newWorkspaceInstaller g /\ pr g1 = Some p /\ ready g1.
Proof.
  unfold provisioning_succeeds. cbn zeta.
  destruct (newWorkspaceInstaller g) as [i|] eqn:Ei.
  - intros (exec' & resLog' & E & ->).
    split.
    { pose proof (Setup_only_provisions w i (getRepo w (set_pr (Some p) g))
                    ["github.com"; Owner (ctxRepo (context g)); Name (ctxRepo (context g))]
                    (set_pr (Some p) g)) as H.
      now rewrite E in H. }
    cbn. repeat split; auto. unfold ready. cbn. rewrite Ei. discriminate.
  - intros (_ & -> & ->). split; [repeat constructor|].
    cbn. repeat split; auto. unfold ready. cbn. discriminate.
Qed.

Lemma provisioning_events (tr : list Event) :
  Forall is_provisioning tr ->
  statuses tr = [] /\ state_writes tr = [] /\ Forall quiet tr.
Proof.
  induction 1 as [|e tr He _ (IH1 & IH2 & IH3)]; [repeat split; constructor|].
  destruct e; cbn in He; try contradiction; cbn [statuses state_writes];
    repeat split; auto; constructor; auto; reflexivity.
Qed.

Lemma patch_file_events (tr : list Event) :
  Forall is_patch_file tr ->
  statuses tr = [] /\ state_writes tr = [] /\ Forall quiet tr.
Proof.
  induction 1 as [|e tr He _ (IH1 & IH2 & IH3)]; [repeat split; constructor|].
  destruct e; cbn in He; try contradiction; cbn [statuses state_writes];
    repeat split; auto; constructor; auto; reflexivity.
Qed.

Lemma state_writes_app (a b : list Event) :
  state_writes (a ++ b) = state_writes a ++ state_writes b.
Proof.
  induction a as [|e a IH]; [reflexivity|].
  destruct e; cbn [app state_writes]; now rewrite ?IH.
Qed.

(** [Process] up to the end of stage 3, when the pull request was fetched
    and the workspace provisioned: what follows is [Process_after_setup],
    then the deferred calls. *)
Lemma Process_then_provisioned (w : World) (k : M G (option error)) (g : G)
    (p : PullRequest) (setup_events : list Event) (g1 : G) :
  GetPullRequest w (context g) = Ok p ->
  (forall v, SetCommitStatus w (prHeadSHA p) StatusPending reviewing "" <> Panics v) ->
  provisioning_succeeds w g p setup_events g1 ->
  Process_then w k g
  = ([EvGetPullRequest (context g); EvSetCommitStatus (prHeadSHA p) StatusPending reviewing ""]
     ++ setup_events ++ events (Process_after_setup w k g1) ++ cleanup g,
     (returned (Process_after_setup w k g1), g)).
Proof.
  intros Hpr Hs Hprov.
  assert (Hp : panicked (SetCommitStatus w (prHeadSHA p) StatusPending reviewing "") = None).
  { destruct (SetCommitStatus w _ _ _ _) eqn:E; try reflexivity. now destruct (Hs v). }
  unfold provisioning_succeeds, cleanup in *. cbn zeta in Hprov.
  unfold Process_then.
  rewrite by_value_run, bind_run. cbn [get returned events final fst snd app].
  rewrite defer_run, bind_run. cbn [call emit returned events final fst snd].
  rewrite Hpr. cbn [app].
  rewrite bind_run. cbn [modify returned events final fst snd app].
  rewrite bind_run, setCommitStatus_run.
  cbn [set_pr set_gw newWorkspaceInstaller context analysisGUID pr exec gw
       PullRequest_GetHeadSHA detailsURL].
  change "GolangCI is reviewing your Pull Request..." with reviewing.
  rewrite Hp. cbn [returned events final fst snd app].
  rewrite bind_run. cbn [get returned events final fst snd app].
  cbn zeta.
  cbn [set_pr set_gw newWorkspaceInstaller context analysisGUID pr exec gw].
  destruct (newWorkspaceInstaller g) as [installer|] eqn:Ei.
  - destruct Hprov as (exec' & resLog' & E & ->).
    rewrite bind_run, E. cbn [returned events final fst snd].
    rewrite !bind_run. cbn [modify addTimingFrom returned events final fst snd app].
    rewrite <- !app_assoc. reflexivity.
  - destruct Hprov as (E & -> & ->).
    rewrite bind_run. cbn [modify returned events final fst snd app].
    rewrite bind_run. cbn [call returned events final fst snd app]. rewrite E.
    rewrite defer_run, bind_run. cbn [modify emit returned events final fst snd app].
    rewrite <- !app_assoc. reflexivity.
Qed.

(** X16. Once stage 3 has succeeded, every run of [Process] ends with the
    deferred clean-up, whatever the later stages do, panics included: with
    the in-process workspace first the workspace and then the executor is
    cleaned; with the external builder the executor alone. *)
Theorem Process_cleans_up_after_provisioning (w : World) (g : G) (p : PullRequest)
    (setup_events : list Event) (g1 : G) :
  GetPullRequest w (context g) = Ok p ->
  (forall v, SetCommitStatus w (prHeadSHA p) StatusPending reviewing "" <> Panics v) ->
  provisioning_succeeds w g p setup_events g1 ->
  exists tr,
    events (Process w g) = tr ++ cleanup g /\
    (newWorkspaceInstaller g = None -> cleanup g = [EvGoClean; EvClean (exec g)]) /\
    (newWorkspaceInstaller g <> None -> cleanup g = [EvClean (exec g)]).
Proof.
  intros Hpr Hs Hprov. unfold Process.
  rewrite (Process_then_provisioned w _ g p setup_events g1 Hpr Hs Hprov).
  cbn [events fst]. eexists. split; [rewrite !app_assoc; reflexivity|].
  unfold cleanup. destruct (newWorkspaceInstaller g); split; congruence.
Qed.

Lemma in_process_provisioned :
  provisioning_succeeds world_lint_panics job_in_process pr_open
    [EvGoSetup (getRepo world_lint_panics (set_pr (Some pr_open) job_in_process))]
    (set_exec (GoExecutor world_lint_panics)
       (set_gw (Some (workspaces.NewGo exec0)) (set_pr (Some pr_open) job_in_process))).
Proof. repeat split. Qed.

Lemma Process_cleans_up_after_provisioning_witness :
  GetPullRequest world_lint_panics (context job_in_process) = Ok pr_open /\
  (forall v, SetCommitStatus world_lint_panics (prHeadSHA pr_open) StatusPending reviewing ""
             <> Panics v) /\
  exists tr, events (Process world_lint_panics job_in_process)
             = tr ++ [EvGoClean; EvClean exec0].
Proof.
  split; [reflexivity|]. split; [intros v; discriminate|].
  destruct (Process_cleans_up_after_provisioning world_lint_panics job_in_process pr_open
              _ _ eq_refl (fun v => ltac:(discriminate)) in_process_provisioned)
    as (tr & E & _).
  exists tr. exact E.
Defined.

Lemma after_setup_without_patch (w : World) (k : M G (option error)) (g : G) (e : error) :
  GetPullRequestPatch w (context g) = Err e ->
  Process_after_setup w k g
  = ([EvGetPullRequestPatch (context g)],
     (Ret (Some (if IsRecoverableError w e
                 then ErrorString ("can't get patch: " +:+ ErrorText w e)
                 else e)), g)).
Proof.
  intros E. unfold Process_after_setup.
  rewrite bind_run. cbn [get returned events final fst snd app].
  rewrite bind_run. cbn [call returned events final fst snd app]. rewrite E.
  destruct (IsRecoverableError w e); reflexivity.
Qed.

Lemma after_setup_patch_not_stored (w : World) (k : M G (option error)) (g : G)
    (patch : string) :
  GetPullRequestPatch w (context g) = Ok patch ->
  returned (storePatch w patch (exec g) g) <> Ret None ->
  Process_after_setup w k g
  = (EvGetPullRequestPatch (context g) :: events (storePatch w patch (exec g) g),
     (match returned (storePatch w patch (exec g) g) with
      | Ret (Some err) => Ret (Some (ErrorString ("can't store patch: " +:+ ErrorText w err)))
      | Ret None => Ret None
      | Panic v => Panic v
      end, g)).
Proof.
  intros E Hs. unfold Process_after_setup.
  rewrite bind_run. cbn [get returned events final fst snd app].
  rewrite bind_run. cbn [call returned events final fst snd app]. rewrite E.
  rewrite bind_run. rewrite storePatch_final.
  destruct (returned (storePatch w patch (exec g) g)) as [[err|]|v];
    cbn [ret returned events final fst snd app]; rewrite ?app_nil_r;
    [reflexivity | now destruct Hs | reflexivity].
Qed.

(** X17. When the workspace is provisioned but the patch cannot be fetched
    or cannot be stored, [Process] does not get to finalization: the only
    status it has set is the pending one, it has written no state, and it
    does not return nil. *)
Theorem Process_without_patch (w : World) (g : G) (p : PullRequest)
    (setup_events : list Event) (g1 : G) :
  GetPullRequest w (context g) = Ok p ->
  (forall v, SetCommitStatus w (prHeadSHA p) StatusPending reviewing "" <> Panics v) ->
  provisioning_succeeds w g p setup_events g1 ->
  ((exists e, GetPullRequestPatch w (context g) = Err e) \/
   (exists patch, GetPullRequestPatch w (context g) = Ok patch /\
                  returned (storePatch w patch (exec g1) g1) <> Ret None)) ->
  statuses (events (Process w g)) = [(StatusPending, reviewing, "")] /\
  state_writes (events (Process w g)) = [] /\
  returned (Process w g) <> Ret None /\
  forall k, Process_then w k g = Process w g.
Proof.
  intros Hpr Hs Hprov Hfail.
  destruct (provisioning_is_silent w g p setup_events g1 Hprov)
    as (Hse & Hctx & _ & _ & _ & _).
  destruct (provisioning_events setup_events Hse) as (Ss & Ws & _).
  assert (Hk : forall k, exists tr r,
             Process_after_setup w k g1 = (tr, (r, g1)) /\
             statuses tr = [] /\ state_writes tr = [] /\ r <> Ret None /\
             Process_after_setup w (processWithGuaranteedGithubStatus w) g1 = (tr, (r, g1))).
  { intros k. destruct Hfail as [[e E]|(patch & E & Hst)]; rewrite <- Hctx in E.
    - do 2 eexists. rewrite !(after_setup_without_patch w _ g1 e E).
      repeat split; discriminate.
    - do 2 eexists. rewrite !(after_setup_patch_not_stored w _ g1 patch E Hst).
      destruct (patch_file_events (events (storePatch w patch (exec g1) g1)))
        as (S1 & W1 & _); [apply storePatch_only_files|].
      cbn [statuses state_writes]. repeat split; auto.
      destruct (returned (storePatch w patch (exec g1) g1)) as [[err|]|v];
        [discriminate | exact Hst | discriminate]. }
  assert (Hc : statuses (cleanup g) = [] /\ state_writes (cleanup g) = []).
  { unfold cleanup. destruct (newWorkspaceInstaller g); auto. }
  destruct Hc as [Sc Wc].
  destruct (Hk (processWithGuaranteedGithubStatus w)) as (tr & r & E & St & Wt & Hr & _).
  unfold Process.
  rewrite (Process_then_provisioned w _ g p setup_events g1 Hpr Hs Hprov), E.
  cbn [events returned fst snd].
  rewrite !statuses_app, !state_writes_app, Ss, Ws, St, Wt, Sc, Wc.
  repeat split; auto.
  intros k. destruct (Hk k) as (tr' & r' & E' & _ & _ & _ & E'').
  rewrite E in E''. injection E'' as <- <-.
  now rewrite (Process_then_provisioned w k g p setup_events g1 Hpr Hs Hprov), E'.
Qed.

Lemma storePatch_no_temp_file {S} (w : World) (patch : string) (exec : Executor) (s : S)
    (e : error) :
  TempFile w = Err e ->
  storePatch w patch exec s = ([EvTempFile], (Panic nil_dereference, s)).
Proof.
  intros E. unfold storePatch. rewrite bind_run.
  cbn [call returned events final fst snd app]. now rewrite E.
Qed.

Lemma no_temp_file_provisioned :
  provisioning_succeeds world_no_temp_file job_in_process pr_open
    [EvGoSetup (getRepo world_no_temp_file (set_pr (Some pr_open) job_in_process))]
    (set_exec (GoExecutor world_no_temp_file)
       (set_gw (Some (workspaces.NewGo exec0)) (set_pr (Some pr_open) job_in_process))).
Proof. repeat split. Qed.

Lemma Process_without_patch_witness :
  statuses (events (Process world_no_temp_file job_in_process))
  = [(StatusPending, reviewing, "")] /\
  state_writes (events (Process world_no_temp_file job_in_process)) = [] /\
  returned (Process world_no_temp_file job_in_process) <> Ret None /\
  forall k, Process_then world_no_temp_file k job_in_process
            = Process world_no_temp_file job_in_process.
Proof.
  apply (Process_without_patch world_no_temp_file job_in_process pr_open _ _ eq_refl
           (fun v => ltac:(discriminate)) no_temp_file_provisioned).
  right. exists "diff". split; [reflexivity|].
  rewrite (storePatch_no_temp_file world_no_temp_file "diff" _ _ (ErrorString "disk full") eq_refl).
  discriminate.
Defined.

(** X18. The refresh of the queue state between the patch and finalization
    is best effort.  Once the patch is stored, a state store that cannot be
    read, or that refuses the write, does not stop the job: the last
    statement is run all the same and its result is the result.  The record
    is written back only when its status reads [sent_to_queue], with the
    status [processing] and its other fields as they were read; no commit
    status is set on the way. *)
Theorem queue_refresh_is_best_effort (w : World) (k : M G (option error)) (g : G)
    (patch : string) :
  GetPullRequestPatch w (context g) = Ok patch ->
  returned (storePatch w patch (exec g) g) = Ret None ->
  (forall v, GetState w (Owner (ctxRepo (context g))) (Name (ctxRepo (context g)))
                      (analysisGUID g) <> Panics v) ->
  (forall st v, UpdateState w (Owner (ctxRepo (context g))) (Name (ctxRepo (context g)))
                            (analysisGUID g) st <> Panics v) ->
  exists pre g',
    events (Process_after_setup w k g) = pre ++ events (k g') /\
    returned (Process_after_setup w k g) = returned (k g') /\
    final (Process_after_setup w k g) = final (k g') /\
    statuses pre = [] /\
    state_writes pre
    = match GetState w (Owner (ctxRepo (context g))) (Name (ctxRepo (context g)))
                     (analysisGUID g) with
      | Ok st =>
          if String.eqb (prstate.Status st) "sent_to_queue"
          then [prstate.mkState (prstate.CreatedAt st) "processing"
                                (prstate.ReportedIssuesCount st) (prstate.ResultJSON st)]
          else []
      | _ => []
      end /\
    context g' = context g /\ pr g' = pr g /\ exec g' = exec g /\
    analysisGUID g' = analysisGUID g /\ warnings g' = warnings g.
Proof.
  intros E Hst Hg Hu.
  destruct (patch_file_events (events (storePatch w patch (exec g) g)))
    as (S1 & W1 & _); [apply storePatch_only_files|].
  unfold Process_after_setup.
  rewrite bind_run. cbn [get returned events final fst snd app].
  rewrite bind_run. cbn [call returned events final fst snd app]. rewrite E.
  rewrite bind_run. rewrite storePatch_final, Hst. cbn zeta.
  set (o := Owner (ctxRepo (context g))) in *.
  set (n := Name (ctxRepo (context g))) in *.
  rewrite bind_run. cbn [call returned events final fst snd app].
  destruct (GetState w o n (analysisGUID g)) as [st|e|v] eqn:Eg;
    [| |now destruct (Hg v)].
  - rewrite bind_run.
    destruct (String.eqb (prstate.Status st) statusSentToQueue) eqn:Es.
    + unfold addTimingFrom. rewrite bind_run.
      cbn [modify returned events final fst snd app].
      rewrite bind_run. cbn [call returned events final fst snd app].
      pose proof (Hu (prstate.with_Status st statusProcessing)) as Hu'.
      destruct (UpdateState w o n (analysisGUID g) (prstate.with_Status st statusProcessing))
        as [[]|e|v]; [| |now destruct (Hu' v)];
        cbn [ret returned events final fst snd app];
        exists (EvGetPullRequestPatch (context g)
                  :: events (storePatch w patch (exec g) g)
                  ++ [EvGetState o n (analysisGUID g);
                      EvUpdateState o n (analysisGUID g)
                        (prstate.with_Status st statusProcessing)]),
               (add_timing "In Queue" g);
        (split; [cbn [app]; now rewrite <- !app_assoc|]);
        cbn [statuses state_writes]; rewrite statuses_app, state_writes_app, S1, W1;
        change statusSentToQueue with "sent_to_queue" in Es; rewrite Es;
        repeat split.
    + cbn [ret returned events final fst snd app].
      exists (EvGetPullRequestPatch (context g)
                :: events (storePatch w patch (exec g) g)
                ++ [EvGetState o n (analysisGUID g)]), g.
      split; [cbn [app]; now rewrite <- !app_assoc|].
      cbn [statuses state_writes]. rewrite statuses_app, state_writes_app, S1, W1.
      change statusSentToQueue with "sent_to_queue" in Es. rewrite Es.
      repeat split.
  - rewrite bind_run. cbn [ret returned events final fst snd app].
    exists (EvGetPullRequestPatch (context g)
              :: events (storePatch w patch (exec g) g)
              ++ [EvGetState o n (analysisGUID g)]), g.
    split; [cbn [app]; now rewrite <- !app_assoc|].
    cbn [statuses state_writes]. rewrite statuses_app, state_writes_app, S1, W1.
    repeat split.
Qed.

Lemma queue_refresh_is_best_effort_witness :
  exists (pre : list Event) (g' : G),
    events (Process_after_setup world_clean (ret None) job_builder) = pre ++ [] /\
    returned (Process_after_setup world_clean (ret None) job_builder) = Ret None /\
    exec g' = exec job_builder /\
    state_writes pre = [prstate.mkState 100 "processing" 0 None].
Proof.
  destruct (queue_refresh_is_best_effort world_clean (ret None) job_builder "diff"
              eq_refl eq_refl (fun v => ltac:(discriminate))
              (fun st v => ltac:(discriminate)))
    as (pre & g' & E & R & _ & _ & W & _ & _ & X & _).
  exists pre, g'.
  split; [exact E|]. split; [exact R|]. split; [exact X | exact W].
Defined.

(** X19. A temporary file that cannot be created crashes the job instead of
    failing it: with the workspace provisioned and the patch fetched,
    [Process] panics on the nil file handle right after the call of
    [ioutil.TempFile]; nothing is written or removed, only the deferred
    clean-up runs, and the commit status stays pending.  The task handler
    recovers the panic and returns "panic recovered: ..." to the queue. *)
Theorem missing_temp_file_crashes_the_job (w : World) (f : analyze.Factory)
    (owner name token : string) (number : Z) (request : string) (user : nat)
    (guid : string) (g : G) (p : PullRequest) (setup_events : list Event) (g1 : G)
    (patch : string) (e : error) :
  analyze.BuildProcessor f
    (analyze.mkTask (mkContext (mkRepo owner name) token number) request user guid) = Ok g ->
  GetPullRequest w (context g) = Ok p ->
  (forall v, SetCommitStatus w (prHeadSHA p) StatusPending reviewing "" <> Panics v) ->
  provisioning_succeeds w g p setup_events g1 ->
  GetPullRequestPatch w (context g) = Ok patch ->
  TempFile w = Err e ->
  Process w g
  = ([EvGetPullRequest (context g); EvSetCommitStatus (prHeadSHA p) StatusPending reviewing ""]
     ++ setup_events ++ [EvGetPullRequestPatch (context g); EvTempFile] ++ cleanup g,
     (Panic nil_dereference, g)) /\
  analyze.analyzeWrappedV2 w f owner name token number request user guid
  = (events (Process w g),
     Ret (Some (ErrorString ("panic recovered: " +:+ nil_dereference +:+ ", " +:+ Stack w)))).
Proof.
  intros Hb Hpr Hs Hprov Hp Ht.
  destruct (provisioning_is_silent w g p setup_events g1 Hprov) as (_ & Hctx & _).
  assert (EP : Process w g
    = ([EvGetPullRequest (context g);
        EvSetCommitStatus (prHeadSHA p) StatusPending reviewing ""]
       ++ setup_events ++ [EvGetPullRequestPatch (context g); EvTempFile] ++ cleanup g,
       (Panic nil_dereference, g))).
  { unfold Process.
    rewrite (Process_then_provisioned w _ g p setup_events g1 Hpr Hs Hprov).
    rewrite <- Hctx in Hp.
    rewrite (after_setup_patch_not_stored w _ g1 patch Hp);
      rewrite (storePatch_no_temp_file w patch (exec g1) g1 e Ht);
      [|discriminate].
    cbn [events returned fst snd]. now rewrite Hctx. }
  split; [exact EP|].
  unfold analyze.analyzeWrappedV2, analyze.analyzeLogged, analyze.analyze.
  cbn zeta. rewrite Hb, EP. reflexivity.
Qed.

Lemma missing_temp_file_crashes_the_job_witness :
  returned (Process world_no_temp_file job_in_process) = Panic nil_dereference /\
  analyze.analyzeWrappedV2 world_no_temp_file (factory (Ok job_in_process))
    "owner" "name" "token-123456" 7 "req-1" 1 "guid-1"
  = (events (Process world_no_temp_file job_in_process),
     Ret (Some (ErrorString ("panic recovered: " +:+ nil_dereference
                             +:+ ", goroutine 1 [running]")))).
Proof.
  destruct (missing_temp_file_crashes_the_job world_no_temp_file (factory (Ok job_in_process))
              "owner" "name" "token-123456" 7 "req-1" 1 "guid-1"
              job_in_process pr_open _ _ "diff" (ErrorString "disk full")
              eq_refl eq_refl (fun v => ltac:(discriminate)) no_temp_file_provisioned
              eq_refl eq_refl) as [E1 E2].
  split; [now rewrite E1 | exact E2].
Defined.



(** X21. [Go2.Setup] succeeds exactly when the fetch succeeds, [goenvbuild]
    runs, its output parses and the parsed result carries no error text: a
    build that ran but reports an error in its JSON is a failure.  On
    success the two calls are the fetch on the installer's executor and the
    build on a copy with the hints [REPO] and [FORMAT_JSON]; the executor
    handed back works in the directory the build names and the log is the
    build's.  When the fetch fails, the build is not run.  [Setup] leaves
    the caller's state alone. *)
Theorem Setup_succeeds_iff {S} (w : World) (go2 : workspaces.Go2) (repo : fetchers.Repo)
    (parts : list string) (s : S) :
  let build_exec :=
    executors.copy_SetEnv
      (executors.copy_SetEnv (workspaces.exec go2) "REPO" (workspaces.Join parts))
      "FORMAT_JSON" "1" in
  ((exists e log, returned (workspaces.Setup w go2 repo parts s) = Ret (inl (e, log))) <->
   Fetch w repo (workspaces.exec go2) = Ok tt /\
   exists out res, Run w build_exec "goenvbuild" = Ok out /\
                   Unmarshal w out = inl res /\ goenv.ResError res = "") /\
  (forall e log, returned (workspaces.Setup w go2 repo parts s) = Ret (inl (e, log)) ->
     events (workspaces.Setup w go2 repo parts s)
     = [EvFetch repo (workspaces.exec go2); EvRun build_exec "goenvbuild"] /\
     exists out res, Run w build_exec "goenvbuild" = Ok out /\
                     Unmarshal w out = inl res /\
                     executors.WorkDir e = goenv.ResWorkDir res /\
                     log = goenv.ResLog res) /\
  (forall err, Fetch w repo (workspaces.exec go2) = Err err ->
     workspaces.Setup w go2 repo parts s
     = ([EvFetch repo (workspaces.exec go2)],
        (Ret (inr (ErrorString ("failed to fetch repo: " +:+ ErrorText w err))), s))) /\
  final (workspaces.Setup w go2 repo parts s) = s.
Proof.
  cbn zeta.
  unfold workspaces.Setup, workspaces.Wrap, bind, call, ret, returned, events, final.
  destruct (Fetch w repo _) as [[]|err|v] eqn:Ef; cbn.
  2,3: (split; [split; [intros (e & log & H); discriminate | intros (H & _); discriminate]|];
        split; [intros e log H; discriminate|];
        split; [intros err0 H; try discriminate; now injection H as <- | reflexivity]).
  destruct (Run w _ _) as [out|err|v] eqn:Er; cbn.
  2,3: (split; [split; [intros (e & log & H); discriminate
                       | intros (_ & out & res & H & _); discriminate]|];
        split; [intros e log H; discriminate|];
        split; [intros err0 H; discriminate | reflexivity]).
  destruct (Unmarshal w out) as [res|err] eqn:Eu; cbn.
  2: { split; [split|].
       - intros (e & log & H); discriminate.
       - intros (_ & out' & res' & H & Hu & _). injection H as <-.
         rewrite Eu in Hu. discriminate.
       - split; [intros e log H; discriminate|].
         split; [intros err0 H; discriminate | reflexivity]. }
  destruct (String.eqb (goenv.ResError res) "") eqn:Ee; cbn.
  - apply String.eqb_eq in Ee.
    destruct (fold_SetEnv (goenv.Environment res)
                (executors.copy_SetWorkDir (workspaces.exec go2) (goenv.ResWorkDir res)))
      as [Hw _].
    split; [split|].
    + intros _. split; [reflexivity|]. exists out, res. auto.
    + intros _. eauto.
    + split; [|split; [intros err0 H; discriminate | reflexivity]].
      intros e log H. injection H as <- <-. split; [reflexivity|].
      exists out, res. repeat split; auto.
  - apply String.eqb_neq in Ee.
    split; [split|].
    + intros (e & log & H); discriminate.
    + intros (_ & out' & res' & H & Hu & He). injection H as <-.
      rewrite Eu in Hu. injection Hu as <-. contradiction.
    + split; [intros e log H; discriminate|].
      split; [intros err0 H; discriminate | reflexivity].
Qed.

Lemma Setup_succeeds_iff_witness :
  exists e log,
    returned (workspaces.Setup world_clean (workspaces.NewGo2 exec0)
                (getRepo world_clean (set_pr (Some pr_open) job_builder))
                ["github.com"; "owner"; "name"] tt) = Ret (inl (e, log)) /\
    executors.WorkDir e = "/goapp".
Proof.
  destruct (Setup_succeeds_iff world_clean (workspaces.NewGo2 exec0)
              (getRepo world_clean (set_pr (Some pr_open) job_builder))
              ["github.com"; "owner"; "name"] tt) as (H1 & H2 & _).
  destruct (proj2 H1) as (e & log & E).
  { split; [reflexivity|]. exists "{}", envres0. repeat split. }
  exists e, log. split; [exact E|].
  destruct (H2 e log E) as (_ & out & res & Hr & Hu & Hw & _).
  rewrite Hw. change (inl envres0 = inl (B := error) res) in Hu. now injection Hu as <-.
Defined.

Lemma last_cons {A} (ds : list A) (d a : A) : List.last (d :: ds) a = List.last ds d.
Proof.
  revert d a. induction ds as [|d' ds IH]; intros d a; [reflexivity|].
  change (List.last (d :: d' :: ds) a) with (List.last (d' :: ds) a).
  now rewrite !IH.
Qed.

Lemma SetWorkDir_all (dirs : list string) (h : executors.heap) (base : executors.ptr)
    (s : Executor) :
  h !! base = Some s ->
  exists h' x,
    executors.mutate_all h base (map executors.MutSetWorkDir dirs) = Some h' /\
    h' !! base = Some x /\
    executors.WorkDir x = List.last dirs (executors.WorkDir s) /\
    executors.Env x = executors.Env s /\
    forall p, p <> base -> h' !! p = h !! p.
Proof.
  revert h s. induction dirs as [|d ds IH]; intros h s Hb.
  - exists h, s. repeat split; auto.
  - cbn [map executors.mutate_all executors.mutate].
    unfold executors.SetWorkDir. rewrite Hb.
    destruct (IH (<[base := executors.copy_SetWorkDir s d]> h)
                 (executors.copy_SetWorkDir s d) (lookup_insert_eq _ _ _))
      as (h' & x & E & Hx & Hw & He & Hp).
    exists h', x. rewrite last_cons.
    split; [exact E|]. split; [exact Hx|]. split; [exact Hw|]. split; [exact He|].
    intros p Hne. rewrite (Hp p Hne). now apply lookup_insert_ne.
Qed.

(** X22. A working directory set in place stays with its executor.  After
    [base.WithEnv(k, v)] and [base.WithWorkDir(dir0)], any number of
    [base.SetWorkDir] calls leave the two derived executors as they were
    made, while [base] itself works in the last directory set and keeps its
    environment. *)
Theorem SetWorkDir_stays_with_its_executor (h : executors.heap) (base : executors.ptr)
    (s : Executor) (k v dir0 : string) (dirs : list string) :
  h !! base = Some s ->
  exists d1 h1 dw hw h',
    executors.WithEnv h base k v = Some (d1, h1) /\
    executors.WithWorkDir h1 base dir0 = Some (dw, hw) /\
    executors.mutate_all hw base (map executors.MutSetWorkDir dirs) = Some h' /\
    h' !! d1 = Some (executors.copy_SetEnv s k v) /\
    h' !! dw = Some (executors.copy_SetWorkDir s dir0) /\
    exists x, h' !! base = Some x /\
              executors.WorkDir x = List.last dirs (executors.WorkDir s) /\
              executors.Env x = executors.Env s.
Proof.
  intros Hb.
  set (a1 := executors.alloc h (executors.copy_SetEnv s k v)).
  assert (H1b : a1.2 !! base = Some s) by apply (alloc_keeps h base s Hb).
  assert (H1d : a1.2 !! a1.1 = Some (executors.copy_SetEnv s k v)) by apply alloc_reads.
  assert (H1n : a1.1 <> base) by apply (alloc_differs h base s Hb).
  set (aw := executors.alloc a1.2 (executors.copy_SetWorkDir s dir0)).
  assert (Hwb : aw.2 !! base = Some s) by apply (alloc_keeps a1.2 base s H1b).
  assert (Hwd : aw.2 !! aw.1 = Some (executors.copy_SetWorkDir s dir0))
    by apply alloc_reads.
  assert (Hwn : aw.1 <> base) by apply (alloc_differs a1.2 base s H1b).
  assert (Hw1 : aw.2 !! a1.1 = Some (executors.copy_SetEnv s k v))
    by apply (alloc_keeps a1.2 a1.1 _ H1d).
  destruct (SetWorkDir_all dirs aw.2 base s Hwb) as (h' & x & E & Hx & Hw & He & Hp).
  exists a1.1, a1.2, aw.1, aw.2, h'.
  split; [unfold executors.WithEnv; now rewrite Hb|].
  split; [unfold executors.WithWorkDir; now rewrite H1b|].
  split; [exact E|].
  split; [now rewrite (Hp _ H1n)|].
  split; [now rewrite (Hp _ Hwn)|].
  exists x. auto.
Qed.

Lemma SetWorkDir_stays_with_its_executor_witness :
  exists d1 h1 dw hw h',
    executors.WithEnv {[ 1%positive := exec0 ]} 1%positive "GOPATH" "/go" = Some (d1, h1) /\
    executors.WithWorkDir h1 1%positive "/goapp" = Some (dw, hw) /\
    executors.mutate_all hw 1%positive
      (map executors.MutSetWorkDir ["/tmp/a"; "/tmp/b"]) = Some h' /\
    h' !! d1 = Some (executors.copy_SetEnv exec0 "GOPATH" "/go") /\
    h' !! dw = Some (executors.copy_SetWorkDir exec0 "/goapp") /\
    exists x, h' !! 1%positive = Some x /\ executors.WorkDir x = "/tmp/b".
Proof.
  destruct (SetWorkDir_stays_with_its_executor {[ 1%positive := exec0 ]} 1%positive exec0
              "GOPATH" "/go" "/goapp" ["/tmp/a"; "/tmp/b"] (lookup_singleton_eq _ _))
    as (d1 & h1 & dw & hw & h' & E1 & E2 & E3 & E4 & E5 & x & E6 & E7 & _).
  exists d1, h1, dw, hw, h'. repeat split; auto. exists x. auto.
Defined.

(** ** The state store and the HTTP client *)

(** X23. [APIStorage.GetState] over the [GrequestsClient] closes every
    response it receives, exactly once, and receives at most the one of
    its GET; it decodes only a response that answered OK; and it returns a
    state exactly when the request was made, was answered OK and the body
    decoded. *)
Theorem GetState_closes_what_it_receives (net : httputils.Net prstate.State)
    (api_host owner name analysisID : string) :
  let s := repostate.mkAPIStorage api_host (httputils.GrequestsClient net) in
  let url := repostate.getAnalysisURL s owner name analysisID in
  let run := repostate.GetState net s owner name analysisID in
  httputils.closed (fst run) = httputils.received (fst run) /\
  httputils.received (fst run)
  = match httputils.grequests_Get net url with inl resp => [resp] | inr _ => [] end /\
  (forall resp, In (httputils.NetDecode resp) (fst run) ->
                httputils.RespOk resp = true) /\
  (forall st, snd run = inl st <->
     exists resp, httputils.grequests_Get net url = inl resp /\
                  httputils.RespOk resp = true /\
                  httputils.Decode net resp = inl st).
Proof.
  cbn zeta. unfold repostate.GetState.
  cbn [repostate.client httputils.GrequestsClient httputils.Get].
  unfold httputils.GrequestsClient_Get, httputils.close_logged.
  set (url := repostate.getAnalysisURL _ owner name analysisID).
  destruct (httputils.grequests_Get net url) as [resp|err] eqn:Eg.
  - destruct (httputils.RespOk resp) eqn:Eo; cbn [negb].
    + destruct (httputils.Decode net resp) as [st|err] eqn:Ed; cbn.
      * split; [reflexivity|]. split; [reflexivity|]. split.
        -- intros r [H|[H|[H|[]]]]; try discriminate. now injection H as <-.
        -- intros st'. split.
           ++ intros H. injection H as <-. exists resp. auto.
           ++ intros (r & Hr & _ & Hd). injection Hr as <-.
              rewrite Ed in Hd. now injection Hd as <-.
      * split; [reflexivity|]. split; [reflexivity|]. split.
        -- intros r [H|[H|[H|[]]]]; try discriminate. now injection H as <-.
        -- intros st'. split; [discriminate|].
           intros (r & Hr & _ & Hd). injection Hr as <-.
           rewrite Ed in Hd. discriminate.
    + destruct (httputils.Close net resp); cbn.
      * split; [reflexivity|]. split; [reflexivity|]. split.
        -- intros r [H|[H|[H|[]]]]; discriminate.
        -- intros st'. split; [discriminate|].
           intros (r & Hr & Ho & _). injection Hr as <-. rewrite Eo in Ho. discriminate.
      * split; [reflexivity|]. split; [reflexivity|]. split.
        -- intros r [H|[H|[]]]; discriminate.
        -- intros st'. split; [discriminate|].
           intros (r & Hr & Ho & _). injection Hr as <-. rewrite Eo in Ho. discriminate.
  - cbn. split; [reflexivity|]. split; [reflexivity|]. split.
    + intros r [H|[]]; discriminate.
    + intros st'. split; [discriminate|]. intros (r & Hr & _). discriminate.
Qed.

(** X24. [APIStorage.UpdateState] over the [GrequestsClient] returns nil
    exactly when the PUT was answered OK, and in that case it has received
    a response that it leaves open; when it returns an error, every
    response it received is closed. *)
Theorem UpdateState_leaves_the_accepted_response_open
    (net : httputils.Net prstate.State)
    (api_host owner name analysisID : string) (state : prstate.State) :
  let s := repostate.mkAPIStorage api_host (httputils.GrequestsClient net) in
  let url := repostate.getAnalysisURL s owner name analysisID in
  let run := repostate.UpdateState s owner name analysisID state in
  (snd run = None <->
   exists resp, httputils.grequests_Put net url state = inl resp /\
                httputils.RespOk resp = true) /\
  (snd run = None ->
   exists resp, httputils.received (fst run) = [resp] /\ httputils.closed (fst run) = []) /\
  (snd run <> None -> httputils.closed (fst run) = httputils.received (fst run)).
Proof.
  cbn zeta. unfold repostate.UpdateState.
  cbn [repostate.client httputils.GrequestsClient httputils.Put].
  unfold httputils.GrequestsClient_Put, httputils.close_logged.
  set (url := repostate.getAnalysisURL _ owner name analysisID).
  destruct (httputils.grequests_Put net url state) as [resp|err] eqn:Eg.
  - destruct (httputils.RespOk resp) eqn:Eo; cbn [negb].
    + cbn. split; [split|split].
      * intros _. exists resp. auto.
      * reflexivity.
      * intros _. exists resp. auto.
      * intros H. now destruct H.
    + destruct (httputils.Close net resp); cbn.
      * split; [split|split]; try discriminate; try reflexivity.
        intros (r & Hr & Ho). injection Hr as <-. rewrite Eo in Ho. discriminate.
      * split; [split|split]; try discriminate; try reflexivity.
        intros (r & Hr & Ho). injection Hr as <-. rewrite Eo in Ho. discriminate.
  - cbn. split; [split|split]; try discriminate; try reflexivity.
    intros (r & Hr & _). discriminate.
Qed.

(** X25. A response that cannot be closed never changes an answer of the
    state store: with any other behaviour of [Close], [GetState] and
    [UpdateState] return the same, and make the same calls but for the
    warnings written to the log. *)
Theorem close_failures_are_only_logged (net : httputils.Net prstate.State)
    (close : httputils.Response -> option error)
    (api_host owner name analysisID : string) (state : prstate.State) :
  let s := repostate.mkAPIStorage api_host (httputils.GrequestsClient net) in
  let net' := httputils.with_Close net close in
  let s' := repostate.mkAPIStorage api_host (httputils.GrequestsClient net') in
  snd (repostate.GetState net' s' owner name analysisID)
  = snd (repostate.GetState net s owner name analysisID) /\
  httputils.unlogged (fst (repostate.GetState net' s' owner name analysisID))
  = httputils.unlogged (fst (repostate.GetState net s owner name analysisID)) /\
  snd (repostate.UpdateState s' owner name analysisID state)
  = snd (repostate.UpdateState s owner name analysisID state) /\
  httputils.unlogged (fst (repostate.UpdateState s' owner name analysisID state))
  = httputils.unlogged (fst (repostate.UpdateState s owner name analysisID state)).
Proof.
  cbn zeta. unfold repostate.GetState, repostate.UpdateState, repostate.getAnalysisURL.
  cbn [repostate.client repostate.host httputils.GrequestsClient httputils.Get
       httputils.Put].
  unfold httputils.GrequestsClient_Get, httputils.GrequestsClient_Put,
    httputils.close_logged, httputils.with_Close.
  cbn [httputils.grequests_Get httputils.grequests_Put httputils.Close httputils.Decode
       httputils.Quote httputils.ErrText].
  split; [|split; [|split]].
  - destruct (httputils.grequests_Get net _) as [resp|err]; [|reflexivity].
    destruct (httputils.RespOk resp); cbn [negb]; [|reflexivity].
    now destruct (httputils.Decode net resp).
  - destruct (httputils.grequests_Get net _) as [resp|err]; [|reflexivity].
    destruct (httputils.RespOk resp); cbn [negb].
    + now destruct (httputils.Decode net resp).
    + now destruct (close resp), (httputils.Close net resp).
  - destruct (httputils.grequests_Put net _ state) as [resp|err]; [|reflexivity].
    now destruct (httputils.RespOk resp).
  - destruct (httputils.grequests_Put net _ state) as [resp|err]; [|reflexivity].
    destruct (httputils.RespOk resp); cbn [negb]; [reflexivity|].
    now destruct (close resp), (httputils.Close net resp).
Qed.

(** ** Files of the temp-dir shell *)

(** X26. [TempDirShell.CopyFile] closes every file it has opened, exactly
    once and in the reverse order of the openings, on every path.  It
    returns nil exactly when the source opened, the destination opened and
    the copy succeeded.  The only name it opens for writing is the
    destination joined to the working directory of the shell, and it does
    not open it when the source cannot be opened. *)
Theorem CopyFile_closes_what_it_opens (fs : files.FS) (s : Executor) (dst src : string) :
  let target := files.filepath_Join fs (executors.WorkDir s) dst in
  let run := files.CopyFile fs s dst src in
  files.closed (fst run) = rev (files.opened (fst run)) /\
  (snd run = None <->
   exists from to, files.Open fs src = inl from /\ files.OpenFile fs target = inl to /\
                   files.Copy fs to from = None) /\
  (forall name, In name (files.written (fst run)) -> name = target) /\
  (forall err, files.Open fs src = inr err -> files.written (fst run) = []).
Proof.
  cbn zeta. unfold files.CopyFile. cbn zeta.
  set (target := files.filepath_Join fs (executors.WorkDir s) dst).
  destruct (files.Open fs src) as [from|err] eqn:Eo.
  - destruct (files.OpenFile fs target) as [to|err] eqn:Ef.
    + destruct (files.Copy fs to from) as [err|] eqn:Ec; cbn.
      * split; [reflexivity|]. split; [split; [discriminate|]|split].
        -- intros (f & t & Hf & Ht & Hc). injection Hf as <-. injection Ht as <-.
           rewrite Ec in Hc. discriminate.
        -- intros nm [H|[]]. now symmetry.
        -- discriminate.
      * split; [reflexivity|]. split; [split|split].
        -- intros _. exists from, to. auto.
        -- reflexivity.
        -- intros nm [H|[]]. now symmetry.
        -- discriminate.
    + cbn. split; [reflexivity|]. split; [split; [discriminate|]|split].
      * intros (f & t & _ & Ht & _). discriminate.
      * intros nm [H|[]]. now symmetry.
      * discriminate.
  - cbn. split; [reflexivity|]. split; [split; [discriminate|]|split].
    + intros (f & t & Hf & _). discriminate.
    + intros nm [].
    + reflexivity.
Qed.

(** X27. [CopyFile] and [Clean] act on the directory of the very executor
    they are called on.  For an executor derived with [WithWorkDir(dir)]
    the copy is written under [dir] and [Clean] removes [dir], while
    [Clean] on the executor it was derived from still removes that one's
    own directory; [Clean] removes nothing else. *)
Theorem derived_executor_files (fs : files.FS) (h : executors.heap)
    (base : executors.ptr) (s : Executor) (dir dst src : string) :
  h !! base = Some s ->
  exists d h' x,
    executors.WithWorkDir h base dir = Some (d, h') /\
    h' !! d = Some x /\ h' !! base = Some s /\
    (forall name, In name (files.written (fst (files.CopyFile fs x dst src))) ->
                  name = files.filepath_Join fs dir dst) /\
    files.removed (files.Clean fs x) = [dir] /\
    files.removed (files.Clean fs s) = [executors.WorkDir s].
Proof.
  intros Hb.
  set (a := executors.alloc h (executors.copy_SetWorkDir s dir)).
  exists a.1, a.2, (executors.copy_SetWorkDir s dir).
  split; [unfold executors.WithWorkDir; now rewrite Hb|].
  split; [apply alloc_reads|].
  split; [apply (alloc_keeps h base s Hb)|].
  split; [|split].
  - intros nm. unfold files.CopyFile. cbn zeta.
    change (executors.WorkDir (executors.copy_SetWorkDir s dir)) with dir.
    destruct (files.Open fs src); [|intros []].
    destruct (files.OpenFile fs _); [|intros [H|[]]; now symmetry].
    destruct (files.Copy fs _ _); intros [H|[]]; now symmetry.
  - unfold files.Clean.
    change (executors.WorkDir (executors.copy_SetWorkDir s dir)) with dir.
    now destruct (files.RemoveAll fs dir).
  - unfold files.Clean. now destruct (files.RemoveAll fs _).
Qed.

Lemma derived_executor_files_witness :
  exists d h' x,
    executors.WithWorkDir {[ 1%positive := exec0 ]} 1%positive "/goapp" = Some (d, h') /\
    h' !! d = Some x /\
    files.removed (files.Clean fs_ok x) = ["/goapp"] /\
    files.removed (files.Clean fs_ok exec0) = ["/tmp/golangci.x"].
Proof.
  destruct (derived_executor_files fs_ok {[ 1%positive := exec0 ]} 1%positive exec0
              "/goapp" patchPath "/tmp/golangci.diff1" (lookup_singleton_eq _ _))
    as (d & h' & x & E1 & E2 & _ & _ & E3 & E4).
  exists d, h', x. auto.
Defined.

Example GetState_answered :
  repostate.GetState net_ok
    (repostate.NewAPIStorage ["API_URL=https://api.golangci.com"]
       (httputils.GrequestsClient net_ok)) "owner" "name" "guid-1"
  = ([httputils.NetGet
        "https://api.golangci.com/v1/repos/github.com/owner/name/repoanalyzes/guid-1"
        (Some (httputils.mkResponse true 200 "{}"));
      httputils.NetDecode (httputils.mkResponse true 200 "{}");
      httputils.NetClose (httputils.mkResponse true 200 "{}")],
     inl (prstate.mkState 100 "sent_to_queue" 0 None)).
Proof. reflexivity. Qed.

Example CopyFile_of_the_patch :
  files.CopyFile fs_ok exec0 patchPath "/tmp/golangci.diff1"
  = ([files.FsOpen "/tmp/golangci.diff1" (Some (files.mkFile 3 "/tmp/golangci.diff1"));
      files.FsOpenFile "/tmp/golangci.x/../changes.patch"
        (Some (files.mkFile 4 "/tmp/golangci.x/../changes.patch"));
      files.FsCopy (files.mkFile 4 "/tmp/golangci.x/../changes.patch")
                   (files.mkFile 3 "/tmp/golangci.diff1");
      files.FsClose (files.mkFile 4 "/tmp/golangci.x/../changes.patch");
      files.FsClose (files.mkFile 3 "/tmp/golangci.diff1")],
     None).
Proof. reflexivity. Qed.
